(** * OptimizationBenchmark: the benchmark runner and the plotter

    A shallow embedding of [src/lib/benchmark.py] (class [Benchmark]:
    [__init__], [__run_solver], [run]) and of [benchmarx/plotter.py]
    ([Plotter.plotly_figure], [Plotter.plot]), with the properties stated
    about them.

    Conventions.
    - Python values that flow through the runner (initial points, iterates,
      objective values, parameter values) are [pyval]s.  Floats are modelled
      by the rationals they denote; NaN is not modelled.
    - A Python call that may raise returns an [outcome].
    - [print] and the calls into the solver are recorded in an event log, so
      that the order of the calls made by the loop can be stated.
    - The wall clock is a stream of readings [time_time k]. *)

From Stdlib Require Import QArith.
From stdpp Require Import gmap strings list fin_maps functions.

Local Open Scope string_scope.

(* [set_solver] clears hypotheses by name; it is harmless when they are gone *)
Set Warnings "-clear-no-such-hyp".

(** ** Python values and exceptions *)

Inductive pyval : Type :=
  | PyNone
  | PyInt (z : Z)
  | PyNum (q : Q)          (* a float *)
  | PyArr (a : list Q)     (* a jax array *)
  | PyObj (id : nat).      (* any other object, e.g. a step-size lambda *)

Inductive exn : Type :=
  | AttributeError
  | KeyError
  | IndexError
  | TypeError
  | SolverError (code : nat).   (* raised inside the optimizer library or user code *)

Inductive outcome (A : Type) : Type :=
  | Ok (a : A)
  | Raise (e : exn).
Arguments Ok {A} a.
Arguments Raise {A} e.

Definition is_Ok {A} (o : outcome A) : bool :=
  match o with Ok _ => true | Raise _ => false end.

(** [x < y] on floats that are numbers; the model has no NaN. *)
Definition Qltb (x y : Q) : bool := negb (Qle_bool y x).

(** [err < tol] where [err] is a float and [tol] any Python value. *)
Definition py_lt (err : Q) (tol : pyval) : outcome bool :=
  match tol with
  | PyNum t => Ok (Qltb err t)
  | PyInt z => Ok (Qltb err (inject_Z z))
  | PyArr [t] => Ok (Qltb err t)
  | _ => Raise TypeError
  end.

(** [v += 1]. *)
Definition py_incr (v : pyval) : outcome pyval :=
  match v with
  | PyInt z => Ok (PyInt (z + 1))
  | PyNum q => Ok (PyNum (q + 1))
  | PyArr a => Ok (PyArr (map (fun q => q + 1)%Q a))
  | _ => Raise TypeError
  end.

(** [v is None]. *)
Definition is_None (v : pyval) : bool :=
  match v with PyNone => true | _ => false end.

(** A dict of keyword parameters, and the dict of metric series that
    [__run_solver] returns. *)
Abbreviation Params := (gmap string pyval).
Abbreviation Result := (gmap string (list pyval)).

(** The parameter dicts of a configuration are Python objects: the
    configuration holds references to them and [Benchmark.run] mutates them
    in place.  [loc] is the identity of a dict, [Store] the heap of dicts. *)
Abbreviation loc := nat (only parsing).
Abbreviation Store := (loc -> Params).

(** [k in metrics] for a list of names. *)
Definition in_list (k : string) (l : list string) : bool :=
  bool_decide (k ∈ l).

(** ** The event log and the runner's monad *)

Inductive event : Type :=
  | EvPrint (v : pyval)            (* print(tol) *)
  | EvInit                         (* solver.init_state *)
  | EvErrorCheck (i : nat)         (* stop_criterion(state.error, tol) at iteration i *)
  | EvStopCriterion (i : nat)      (* solver.stop_criterion(sol, state) at iteration i *)
  | EvUpdate (i : nat).            (* solver.update(sol, state) at iteration i *)

Record World : Type := mkWorld {
  w_log : list event;    (* oldest event first *)
  w_clock : nat          (* number of clock readings taken so far *)
}.

Definition M (A : Type) : Type := World -> outcome A * World.

Definition ret {A} (a : A) : M A := fun w => (Ok a, w).
Definition raise {A} (e : exn) : M A := fun w => (Raise e, w).
Definition bind {A B} (m : M A) (k : A -> M B) : M B :=
  fun w => match m w with
           | (Ok a, w') => k a w'
           | (Raise e, w') => (Raise e, w')
           end.
Definition lift {A} (o : outcome A) : M A := fun w => (o, w).
Definition emit (ev : event) : M unit :=
  fun w => (Ok tt, mkWorld (w_log w ++ [ev])%list (w_clock w)).

Notation "x <- m ;; k" := (bind m (fun x => k))
  (at level 100, m at next level, right associativity).
Notation "m ;;; k" := (bind m (fun _ => k))
  (at level 100, right associativity).

(** The events that [m] adds to the log when started in [w]. *)
Definition events_of {A} (m : M A) (w : World) : list event :=
  drop (length (w_log w)) (w_log (snd (m w))).

Definition is_update (ev : event) : bool :=
  match ev with EvUpdate _ => true | _ => false end.

Definition is_stop_check (ev : event) : bool :=
  match ev with EvErrorCheck _ | EvStopCriterion _ => true | _ => false end.

(** Number of update steps recorded in a log. *)
Definition n_updates (l : list event) : nat := length (filter (fun ev => is_update ev = true) l).

(** ** The objects of the runner *)

(** What the runner uses of a solver object: a [jaxopt] solver or an heir
    of [CustomOptimizer]. *)
Record Solver (State : Type) : Type := mkSolver {
  is_custom : bool;   (* issubclass(type(solver), custom_optimizer.CustomOptimizer) *)
  maxiter : nat;      (* an iteration count: range(maxiter) *)
  x_init_attr : pyval;                                             (* solver.x_init *)
  init_state : pyval -> Params -> outcome State;
  update : pyval -> State -> Params -> outcome (pyval * State);
  stop_criterion : pyval -> State -> outcome bool
}.

Arguments mkSolver {State}.
Arguments is_custom {State}.
Arguments maxiter {State}.
Arguments x_init_attr {State}.
Arguments init_state {State}.
Arguments update {State}.
Arguments stop_criterion {State}.

(** [self.problem]: its name and its objective. *)
Record Problem : Type := mkProblem {
  problem_name : string;
  f : pyval -> outcome pyval
}.

(** One element of [methods]: a dict from method name to parameter dict,
    as the list of its items in iteration order. *)
Definition Item : Type := list (string * loc).

(** The attributes of a [Benchmark] object. *)
Record Benchmark : Type := mkBenchmark {
  bm_problem : Problem;
  bm_methods : list Item;
  bm_available_built_in_methods : list string;
  bm_metrics : list string
}.

(** A constructor call either returns the object or ends the process. *)
Inductive constructed (A : Type) : Type :=
  | Constructed (a : A)
  | Exit (code : Z).
Arguments Constructed {A} a.
Arguments Exit {A} code.

(** The [BenchmarkResult] that [run] returns. *)
Record BenchmarkResult : Type := mkBenchmarkResult {
  br_problem : Problem;
  br_methods : list string;
  br_metrics : list string;
  br_data : gmap string Result      (* data[self.problem] *)
}.

(** What [run] has built and changed so far. *)
Record RunState : Type := mkRunState {
  rs_world : World;
  rs_store : Store;
  rs_methods : list string;         (* res.methods *)
  rs_data : gmap string Result      (* data[self.problem] *)
}.

(** ** [Plotter.plotly_figure] *)

Module Plotter.

(** A row of the dataframe that [BenchmarkResult.get_dataframes] builds:
    the columns "Problem", "Method", "Iteration", and the numeric columns
    ("<metric>_mean", "<metric>_std"). *)
Record Row : Type := mkRow {
  r_Problem : string;
  r_Method : string;
  r_Iteration : Z;
  r_value : string -> Q
}.

(** A dataframe with the default index 0, 1, ...: the names of its numeric
    columns and its rows. *)
Record DataFrame : Type := mkDataFrame {
  df_columns : list string;
  df_rows : list Row
}.

(** [df[name]] for a numeric column. *)
Definition column (df : DataFrame) (name : string) : outcome (list Q) :=
  if in_list name (df_columns df)
  then Ok (map (fun r => r_value r name) (df_rows df))
  else Raise KeyError.

(** [Series.unique()]: the distinct values in order of first appearance. *)
Fixpoint unique (l : list string) : list string :=
  match l with
  | [] => []
  | x :: l' => x :: filter (fun y => y ≠ x) (unique l')
  end.

(** [dataframe[dataframe["Method"] == method]]. *)
Definition select_method (df : DataFrame) (method : string) : DataFrame :=
  mkDataFrame (df_columns df) (filter (fun r => r_Method r = method) (df_rows df)).

(** An element of [dropdown_options]. *)
Record DropdownOption : Type := mkOption {
  label : string;
  value : string
}.

Record Marker : Type := mkMarker {
  symbol : string;
  color : string
}.

(** The arguments [plotly_figure] gives to [go.Scatter]; [None] for an
    argument that is not given. *)
Record Trace : Type := mkTrace {
  tr_name : string;
  tr_x : list Z;
  tr_y : list Q;
  tr_mode : string;
  tr_marker : option Marker;
  tr_line_width : option Z;
  tr_fillcolor : option string;
  tr_fill : option string;
  tr_showlegend : option bool;
  tr_hovertext : string;
  tr_visible : bool
}.

(** A button of the dropdown menu. *)
Record Button : Type := mkButton {
  b_label : string;
  b_visible : list bool;       (* args: one flag per trace of the figure *)
  b_yaxis_title : string       (* args2 *)
}.

Record Figure : Type := mkFigure {
  fig_data : list Trace;
  fig_buttons : list Button;
  fig_title : string
}.

Definition markers : list string :=
  ["circle"; "square"; "diamond"; "cross"; "x"; "triangle-up"; "triangle-down";
   "triangle-left"; "triangle-right"; "triangle-ne"; "triangle-se"; "triangle-sw";
   "triangle-nw"].

Definition colors_rgba : list string :=
  ["rgba(31, 119, 180,  1)"; "rgba(255, 127, 14,  1)"; "rgba(44, 160, 44,   1)";
   "rgba(214, 39, 40,   1)"; "rgba(148, 103, 189, 1)"; "rgba(140, 86, 75,   1)";
   "rgba(227, 119, 194, 1)"; "rgba(127, 127, 127, 1)"; "rgba(188, 189, 34,  1)";
   "rgba(23, 190, 207,  1)"].

Definition colors_rgba_faint : list string :=
  ["rgba(31, 119, 180,  0.3)"; "rgba(255, 127, 14,  0.3)"; "rgba(44, 160, 44,   0.3)";
   "rgba(214, 39, 40,   0.3)"; "rgba(148, 103, 189, 0.3)"; "rgba(140, 86, 75,   0.3)";
   "rgba(227, 119, 194, 0.3)"; "rgba(127, 127, 127, 0.3)"; "rgba(188, 189, 34,  0.3)";
   "rgba(23, 190, 207,  0.3)"].

(** [l[i % len(l)]] for one of the three tables above. *)
Definition pick (l : list string) (i : nat) : string :=
  nth (i mod length l) l "".

(** [s in t] for strings. *)
Fixpoint is_substring (s t : string) : bool :=
  String.prefix s t ||
  match t with
  | EmptyString => false
  | String _ t' => is_substring s t'
  end.

(** [all([val == 0 for val in series])]. *)
Definition all_zero (series : list Q) : bool :=
  forallb (fun val => Qeq_bool val 0) series.

(** [option["value"] == dropdown_options[0]["value"]], inside a loop over
    [dropdown_options] (so the list is not empty there). *)
Definition is_first_value (dropdown_options : list DropdownOption) (option : DropdownOption)
  : bool :=
  match dropdown_options with
  | first :: _ => String.eqb (value option) (value first)
  | [] => false
  end.

(** Lines 80-115: the traces added for one method and one dropdown option. *)
Definition option_traces (dropdown_options : list DropdownOption) (i_method : nat)
    (method : string) (method_df : DataFrame) (option : DropdownOption)
  : outcome (list Trace) :=
  let marker := mkMarker (pick markers i_method) (pick colors_rgba i_method) in
  let fillcolor := pick colors_rgba_faint i_method in
  let x := map r_Iteration (df_rows method_df) in
  let visible := is_first_value dropdown_options option in
  match column method_df (value option +:+ "_mean") with
  | Raise e => Raise e
  | Ok mean =>
      let trace_mean :=
        mkTrace method x mean "lines+markers" (Some marker) None None None None
          (method +:+ " - " +:+ label option) visible in
      match column method_df (value option +:+ "_std") with
      | Raise e => Raise e
      | Ok std =>
          if negb (all_zero std) then
            let trace_plus_std :=
              mkTrace "mean + std" x (zip_with Qplus mean std) "lines" None (Some 0%Z)
                None None (Some false)
                (method +:+ " - " +:+ label option +:+ "_upper") visible in
            let trace_minus_std :=
              mkTrace "mean - std" x (zip_with Qminus mean std) "lines" None (Some 0%Z)
                (Some fillcolor) (Some "tonexty") (Some false)
                (method +:+ " - " +:+ label option +:+ "_lower") visible in
            Ok [trace_mean; trace_plus_std; trace_minus_std]
          else Ok [trace_mean]
      end
  end.

(** Run [g] on each element in order and chain the lists it returns; the
    first exception ends the loop. *)
Fixpoint collect {A B : Type} (g : A -> outcome (list B)) (l : list A) : outcome (list B) :=
  match l with
  | [] => Ok []
  | a :: l' =>
      match g a with
      | Raise e => Raise e
      | Ok bs =>
          match collect g l' with
          | Raise e => Raise e
          | Ok cs => Ok (bs ++ cs)%list
          end
      end
  end.

(** [enumerate(l)], counting from [i]. *)
Fixpoint enumerate_from {A : Type} (i : nat) (l : list A) : list (nat * A) :=
  match l with
  | [] => []
  | a :: l' => (i, a) :: enumerate_from (S i) l'
  end.

(** Lines 75-115: the traces added for one method. *)
Definition method_traces (dataframe : DataFrame) (dropdown_options : list DropdownOption)
    (im : nat * string) : outcome (list Trace) :=
  let method_df := select_method dataframe (snd im) in
  collect (option_traces dropdown_options (fst im) (snd im) method_df) dropdown_options.

(** The methods of a dataframe, numbered: [enumerate(dataframe["Method"].unique())]. *)
Definition methods_of (dataframe : DataFrame) : list (nat * string) :=
  enumerate_from 0 (unique (map r_Method (df_rows dataframe))).

(** The button of one dropdown option (lines 121-135). *)
Definition button (data : list Trace) (option : DropdownOption) : Button :=
  mkButton (label option)
    (map (fun trace => is_substring (value option) (tr_hovertext trace)) data)
    (label option).

(** [Plotter.plotly_figure(dataframe, dropdown_options)]. *)
Definition plotly_figure (dataframe : DataFrame) (dropdown_options : list DropdownOption)
  : outcome Figure :=
  match collect (method_traces dataframe dropdown_options) (methods_of dataframe) with
  | Raise e => Raise e
  | Ok data =>
      let buttons := map (button data) dropdown_options in
      (* title=str(dataframe.T[0]["Problem"]): the row labelled 0 *)
      match df_rows dataframe with
      | [] => Raise KeyError
      | row0 :: _ => Ok (mkFigure data buttons (r_Problem row0))
      end
  end.

(** The pairs of a numbered method and a dropdown option, in the order in
    which the two nested loops visit them. *)
Definition method_option_pairs (dataframe : DataFrame)
    (dropdown_options : list DropdownOption) : list (nat * string * DropdownOption) :=
  flat_map (fun im : nat * string => map (fun o => (fst im, snd im, o)) dropdown_options)
           (methods_of dataframe).

(** What [plotly_figure] adds for one method and one dropdown option: the
    mean trace, named after the method, followed by the two band traces when
    the standard deviation is not zero throughout; all of them with the same
    visibility, on exactly when the option's value is the value of the first
    option. *)
Definition group_ok (dataframe : DataFrame) (dropdown_options : list DropdownOption)
    (p : nat * string * DropdownOption) (ts : list Trace) : Prop :=
  let '(i_method, method, option) := p in
  let method_df := select_method dataframe method in
  option_traces dropdown_options i_method method method_df option = Ok ts /\
  (exists mean_trace bands std,
     ts = mean_trace :: bands /\
     tr_name mean_trace = method /\
     column method_df (value option +:+ "_std") = Ok std /\
     length bands = (if all_zero std then 0 else 2)) /\
  (exists first rest,
     dropdown_options = first :: rest /\
     Forall (fun t => tr_visible t = String.eqb (value option) (value first)) ts).

(** The traces of a figure that are shown when it is first displayed. *)
Definition visible_traces (data : list Trace) : list Trace :=
  filter (fun t => tr_visible t = true) data.

(** The marker of the traces of the method numbered [i_method] (lines 76-77). *)
Definition marker_of (i_method : nat) : Marker :=
  mkMarker (pick markers i_method) (pick colors_rgba i_method).

(** ** [Plotter.plot] *)

(** An element of the list [metrics] given to [plot]: a name, a
    [CustomMetric] (of which [plot] reads the label), or a value of another
    type. *)
Inductive Metric : Type :=
  | MetricName (name : string)
  | MetricCustom (custom_label : string)
  | MetricOther.

(** Lines 180-185: the names, then the labels of the custom metrics. *)
Definition metrics_str (metrics : list Metric) : list string :=
  (omap (fun metric => match metric with MetricName name => Some name | _ => None end) metrics
   ++ omap (fun metric => match metric with MetricCustom l => Some l | _ => None end) metrics)%list.

(** Lines 186-188. *)
Definition dropdown_options_of (metrics : list Metric) : list DropdownOption :=
  map (fun metric => mkOption metric metric) (metrics_str metrics).

(** What [plot] does to the outside: it displays a figure, or it writes
    one to a file. *)
Inductive Effect (Config : Type) : Type :=
  | Show (figure : Figure) (config : Config)
  | WriteHtml (path : string) (figure : Figure) (config : Config)
              (include_plotlyjs : string) (full_html : bool).
Arguments Show {Config}.
Arguments WriteHtml {Config}.

(** The loop of [plot] (lines 179-198) over the items of the dict that
    [get_dataframes] returned: the effects in order, and how the loop ends. *)
Fixpoint plot_loop {Config : Type} (dfs : list (string * DataFrame)) (metrics : list Metric)
    (plotly_config : Config) (write_html : bool) (path_to_write : string)
  : list (Effect Config) * outcome unit :=
  match dfs with
  | [] => ([], Ok tt)
  | (_, df) :: rest =>
      let dropdown_options := dropdown_options_of metrics in
      match plotly_figure df dropdown_options with
      | Raise e => ([], Raise e)
      | Ok figure =>
          let shown := Show figure plotly_config in
          let written :=
            if write_html
            then [WriteHtml path_to_write figure plotly_config "cdn" false]
            else [] in
          let '(effects, o) := plot_loop rest metrics plotly_config write_html path_to_write in
          ((shown :: written) ++ effects, o)%list
      end
  end.

(** [Plotter.plot(metrics, plotly_config, write_html, path_to_write,
    include_plotlyjs, full_html)], given the dataframes [dfs] that
    [self.benchmark_result.get_dataframes(df_metrics=metrics)] returns
    ([BenchmarkResult] is not among the sources). *)
Definition plot {Config : Type} (dfs : list (string * DataFrame)) (metrics : list Metric)
    (plotly_config : Config) (write_html : bool) (path_to_write : string)
    (include_plotlyjs : string) (full_html : bool)
  : list (Effect Config) * outcome unit :=
  plot_loop dfs metrics plotly_config write_html path_to_write.

(** The figure that the file [path] holds after the effects: the one
    written last. *)
Fixpoint file_after {Config : Type} (effects : list (Effect Config)) (path : string)
  : option Figure :=
  match effects with
  | [] => None
  | effect :: rest =>
      match file_after rest path with
      | Some figure => Some figure
      | None =>
          match effect with
          | WriteHtml p figure _ _ _ => if String.eqb p path then Some figure else None
          | Show _ _ => None
          end
      end
  end.

End Plotter.

(** ** Example inputs

    A small world for the worked examples below: optimizer states that
    carry their error (or none, like the [State] of a custom optimizer), a
    gradient-descent solver on the quadratic objective, and a few
    configurations. *)

Definition ex_error (st : option Q) : option Q := st.

Definition ex_time (k : nat) : Q := inject_Z (Z.of_nat k).

Definition ex_jnp_array (v : pyval) : outcome pyval :=
  match v with
  | PyArr a => Ok (PyArr a)
  | PyNum q => Ok (PyArr [q])
  | PyInt z => Ok (PyArr [inject_Z z])
  | _ => Raise TypeError
  end.

(** The objective: the sum of the squares of the coordinates. *)
Definition ex_problem : Problem :=
  mkProblem "quadratic"
    (fun v => match v with
              | PyArr a => Ok (PyNum (Qred (foldr Qplus 0%Q (map (fun x => (x * x)%Q) a))))
              | _ => Raise TypeError
              end).

(** A gradient-descent solver: a step scales the point by [1 - stepsize];
    the error it reports is 0.005 after every step.  Without a numeric
    "stepsize" among the keyword parameters the step raises. *)
Definition ex_gd (n : nat) : Solver (option Q) :=
  mkSolver false n PyNone
    (fun _ _ => Ok (Some 1%Q))
    (fun sol _ kwargs =>
       match sol, kwargs !! "stepsize" with
       | PyArr a, Some (PyNum s) =>
           Ok (PyArr (map (fun x => Qred (x * (1 - s))%Q) a), Some (5 # 1000)%Q)
       | _, _ => Raise (SolverError 1)
       end)
    (fun _ _ => Ok false).

(** [jaxopt.GradientDescent(fun=f, **params)]: "maxiter" defaults to 500. *)
Definition ex_GradientDescent (problem : Problem) (params : Params)
  : outcome (Solver (option Q)) :=
  match params !! "maxiter" with
  | None => Ok (ex_gd 500)
  | Some (PyInt n) => Ok (ex_gd (Z.to_nat n))
  | Some _ => Raise TypeError
  end.

(** A custom optimizer: its state has no [error]; it stops when asked to
    after two steps at most. *)
Definition ex_custom : Solver (option Q) :=
  mkSolver true 2 (PyArr [1%Q])
    (fun _ _ => Ok None)
    (fun sol st _ => Ok (sol, st))
    (fun _ _ => Ok true).

Definition ex_check_method (names : list string) : bool := true.

Definition ex_known_metrics : list string :=
  ["history_x"; "history_f"; "nit"; "nfev"; "njev"; "nhev"; "errors"; "time"].

Definition ex_world : World := mkWorld [] 0.

(** The parameters of the first method of [test_local], with three
    iterations and step size 1/2. *)
Definition ex_params : Params :=
  {[ "x_init" := PyArr [1%Q; 1%Q]; "tol" := PyNum (1 # 100);
     "maxiter" := PyInt 3; "stepsize" := PyNum (1 # 2) ]}.

(** The same as keyword parameters of [__run_solver] (without "x_init"). *)
Definition ex_kwargs : Params := delete "x_init" ex_params.

(** A parameter dict without step size: the step of its solver raises. *)
Definition ex_params_bad : Params :=
  {[ "x_init" := PyArr [1%Q; 1%Q]; "maxiter" := PyInt 3 ]}.

Definition ex_metrics : list string := ["nit"; "history_x"; "history_f"].

(** Dict 0 holds [ex_params], dict 1 [ex_params_bad], every other dict [ex_params]. *)
Definition ex_store : Store :=
  fun l => match l with 1 => ex_params_bad | _ => ex_params end.

(** One built-in method and one method of another name. *)
Definition ex_bm : Benchmark :=
  mkBenchmark ex_problem
    [[("GRADIENT_DESCENT_const_step", 0)]; [("MY_METHOD", 2)]]
    ["GRADIENT_DESCENT"] ex_metrics.

(** A method whose run raises, followed by a method whose run completes. *)
Definition ex_bm_raise : Benchmark :=
  mkBenchmark ex_problem
    [[("GRADIENT_DESCENT_bad", 1)]; [("GRADIENT_DESCENT_const_step", 0)]]
    ["GRADIENT_DESCENT"] ex_metrics.

(** A method whose run completes, a method whose run raises, and a
    method configured after it. *)
Definition ex_bm_raise_later : Benchmark :=
  mkBenchmark ex_problem
    [[("GRADIENT_DESCENT_const_step", 0)]; [("GRADIENT_DESCENT_bad", 1)];
     [("GRADIENT_DESCENT_later", 2)]]
    ["GRADIENT_DESCENT"] ex_metrics.

(** The second method alone. *)
Definition ex_bm_second : Benchmark :=
  mkBenchmark ex_problem [[("GRADIENT_DESCENT_const_step", 0)]]
    ["GRADIENT_DESCENT"] ex_metrics.

(** A dataframe with two methods and two iterations each; the column
    "f_std" is not zero. *)
Definition ex_row (method : string) (iteration : Z) (mean : Q) : Plotter.Row :=
  Plotter.mkRow "quadratic" method iteration
    (fun name => if String.eqb name "f_mean" then mean
                 else if String.eqb name "f_std" then (1 # 10)%Q
                 else 0%Q).

Definition ex_dataframe : Plotter.DataFrame :=
  Plotter.mkDataFrame ["f_mean"; "f_std"; "x_norm_mean"; "x_norm_std"]
    [ex_row "GD" 0 1%Q; ex_row "GD" 1 (1 # 2)%Q;
     ex_row "CSGD" 0 1%Q; ex_row "CSGD" 1 (3 # 4)%Q].

Definition ex_options : list Plotter.DropdownOption :=
  [Plotter.mkOption "f" "f"; Plotter.mkOption "x_norm" "x_norm"].

(** A gradient-descent solver whose error shrinks by a factor of ten with
    every step, starting from 1: it is 1/10000 after four steps. *)
Definition ex_gd_decay (n : nat) : Solver (option Q) :=
  mkSolver false n PyNone
    (fun _ _ => Ok (Some 1%Q))
    (fun sol st kwargs =>
       match sol, kwargs !! "stepsize", st with
       | PyArr a, Some (PyNum s), Some err =>
           Ok (PyArr (map (fun x => Qred (x * (1 - s))%Q) a), Some (Qred (err / 10))%Q)
       | _, _, _ => Raise (SolverError 1)
       end)
    (fun _ _ => Ok false).

(** A custom optimizer that never asks to stop, like [CSGD] of
    [examples/test_logreg.py], whose [stop_criterion] returns [False]. *)
Definition ex_custom_never : Solver (option Q) :=
  mkSolver true 2 (PyArr [1%Q])
    (fun _ _ => Ok None)
    (fun sol st _ => Ok (sol, st))
    (fun _ _ => Ok false).

(** Every metric that the loop serves, and one that it does not. *)
Definition ex_metrics_all : list string :=
  ["history_x"; "history_f"; "nit"; "errors"; "time"; "nfev"].

(** Two configurations under the same method name. *)
Definition ex_bm_twice : Benchmark :=
  mkBenchmark ex_problem
    [[("GRADIENT_DESCENT_const_step", 0); ("GRADIENT_DESCENT_const_step", 3)]]
    ["GRADIENT_DESCENT"] ex_metrics.

(** A dataframe with one method and one iteration, and the dataframes of
    two problems as [get_dataframes] returns them. *)
Definition ex_dataframe_one : Plotter.DataFrame :=
  Plotter.mkDataFrame ["f_mean"; "f_std"; "x_norm_mean"; "x_norm_std"]
    [ex_row "GD" 0 2%Q].

Definition ex_dataframes : list (string * Plotter.DataFrame) :=
  [("quadratic", ex_dataframe); ("quadratic_one", ex_dataframe_one)].

Definition ex_plot_metrics : list Plotter.Metric :=
  [Plotter.MetricName "f"; Plotter.MetricName "x_norm"].

(** ** [Benchmark.__run_solver] *)

Section Runner.

Set Default Proof Using "Type".

(** The optimizer state: [jaxopt]'s state for the built-in family, the
    user's [State] for a custom optimizer.  [error st] is the attribute
    [st.error], [None] when the object has no such attribute. *)
Variable State : Type.
Variable error : State -> option Q.

(** [time.time()]: the k-th reading of the wall clock. *)
Variable time_time : nat -> Q.

(** [jnp.array(v)]. *)
Variable jnp_array : pyval -> outcome pyval.

(** [methods.check_method] and [methods.available_built_in_methods]
    (module [methods]), and the constructor [jaxopt.GradientDescent]. *)
Variable check_method : list string -> bool.
Variable available_built_in_methods : list string.
Variable GradientDescent : Problem -> Params -> outcome (Solver State).

(** The fixed allow-list of metric names of module [metrics]. *)
Variable known_metrics : list string.

(** Drop from the context what the goal does not mention. *)
Ltac frame :=
  try clear known_metrics; try clear GradientDescent;
  try clear available_built_in_methods; try clear check_method;
  try clear jnp_array; try clear time_time.

Definition time_ : M Q :=
  fun w => (Ok (time_time (w_clock w)), mkWorld (w_log w) (S (w_clock w))).

(** The imported module [custom_optimizer] used as a condition: a module
    object is truthy. *)
Definition custom_optimizer : bool := true.

(** The tolerance the loop compares against (lines 77-80). *)
Definition tolerance (kwargs : Params) : outcome pyval :=
  if negb custom_optimizer && bool_decide (is_Some (kwargs !! "tol")) then
    match kwargs !! "tol" with
    | Some t => Ok t
    | None => Raise KeyError
    end
  else Ok (PyNum (1 # 1000)).

(** The variables of the loop. *)
Record LoopVars : Type := mkLoopVars {
  lv_sol : pyval;
  lv_state : State;
  lv_x_prev : pyval;
  lv_result : Result
}.

Inductive control : Type :=
  | Continue (lv : LoopVars)
  | Break (lv : LoopVars).

(** The nested stop function [stop_criterion(err, tol)] of [__run_solver]. *)
Definition stop_criterion_err (err : Q) (tol : pyval) : outcome bool := py_lt err tol.

(** Lines 84-88: [true] when the loop breaks. *)
Definition stop_check (solver : Solver State) (tol : pyval) (i : nat) (lv : LoopVars) : M bool :=
  if (0 <? i)%nat then
    b1 <- (if negb (is_custom solver) then
             emit (EvErrorCheck i) ;;;
             match error (lv_state lv) with
             | None => raise AttributeError
             | Some err => lift (stop_criterion_err err tol)
             end
           else ret false) ;;
    if b1 : bool then ret true
    else if is_custom solver then
           emit (EvStopCriterion i) ;;;
           lift (stop_criterion solver (lv_sol lv) (lv_state lv))
         else ret false
  else ret false.

(** [result[k].append(v)], creating the series on first use. *)
Definition record (k : string) (v : pyval) (result : Result) : Result :=
  match result !! k with
  | None => <[k := [v]]> result
  | Some l => <[k := (l ++ [v])%list]> result
  end.

(** Lines 105-109. *)
Definition record_nit (result : Result) : outcome Result :=
  match result !! "nit" with
  | None => Ok (<["nit" := [PyInt 1]]> result)
  | Some [] => Raise IndexError
  | Some (v :: tl) =>
      match py_incr v with
      | Ok v' => Ok (<["nit" := v' :: tl]> result)
      | Raise e => Raise e
      end
  end.

(** Lines 95-123: the metrics recorded after a step. *)
Definition record_metrics (problem : Problem) (metrics : list string)
    (sol : pyval) (state : State) (result : Result) : outcome Result :=
  let r1 := if in_list "history_x" metrics then record "history_x" sol result else result in
  match (if in_list "history_f" metrics then
           match f problem sol with
           | Ok y => Ok (record "history_f" y r1)
           | Raise e => Raise e
           end
         else Ok r1) with
  | Raise e => Raise e
  | Ok r2 =>
    match (if in_list "nit" metrics then record_nit r2 else Ok r2) with
    | Raise e => Raise e
    | Ok r3 =>
      (* "nfev", "njev", "nhev": pass *)
      if in_list "errors" metrics then
        match error state with
        | None => Raise AttributeError
        | Some err => Ok (record "errors" (PyNum err) r3)
        end
      else Ok r3
    end
  end.

(** One pass through the body of the [for] loop (lines 84-123).  The step of
    a built-in solver goes through [jax.jit]; it is the same function
    [solver.update]. *)
Definition loop_body (problem : Problem) (solver : Solver State) (metrics : list string)
    (kwargs : Params) (tol : pyval) (i : nat) (lv : LoopVars) : M control :=
  stop <- stop_check solver tol i lv ;;
  if stop : bool then ret (Break lv)
  else
    let x_prev := lv_sol lv in
    emit (EvUpdate i) ;;;
    p <- lift (update solver (lv_sol lv) (lv_state lv) kwargs) ;;
    let '(sol, state) := p in
    result <- lift (record_metrics problem metrics sol state (lv_result lv)) ;;
    ret (Continue (mkLoopVars sol state x_prev result)).

(** [for i in range(solver.maxiter)], with [n] iterations left to run. *)
Fixpoint for_range (problem : Problem) (solver : Solver State) (metrics : list string)
    (kwargs : Params) (tol : pyval) (n i : nat) (lv : LoopVars) : M LoopVars :=
  match n with
  | O => ret lv
  | S n' =>
      c <- loop_body problem solver metrics kwargs tol i lv ;;
      match c with
      | Break lv' => ret lv'
      | Continue lv' => for_range problem solver metrics kwargs tol n' (S i) lv'
      end
  end.

(** Lines 60-62: the point the loop starts from. *)
Definition initial_sol (solver : Solver State) (x_init : pyval) : pyval :=
  if is_custom solver && is_None x_init then x_init_attr solver else x_init.

(** [Benchmark.__run_solver(solver, x_init, metrics, **kwargs)]. *)
Definition run_solver (problem : Problem) (solver : Solver State) (x_init : pyval)
    (metrics : list string) (kwargs : Params) : M Result :=
  let custom_method := is_custom solver in
  start_time <- time_ ;;
  emit EvInit ;;;
  state <- lift (init_state solver x_init kwargs) ;;
  let sol := initial_sol solver x_init in
  tol <- lift (tolerance kwargs) ;;
  emit (EvPrint tol) ;;;
  lv <- for_range problem solver metrics kwargs tol (maxiter solver) 0
          (mkLoopVars sol state sol ∅) ;;
  now_ <- time_ ;;
  let duration := (now_ - start_time)%Q in
  ret (if in_list "time" metrics
       then <["time" := [PyNum duration]]> (lv_result lv)
       else lv_result lv).

(** The solution and the state after [k] update steps from [sol], [state]. *)
Fixpoint after_steps (solver : Solver State) (kwargs : Params) (k : nat)
    (sol : pyval) (state : State) : outcome (pyval * State) :=
  match k with
  | O => Ok (sol, state)
  | S k' =>
      match update solver sol state kwargs with
      | Ok (sol', state') => after_steps solver kwargs k' sol' state'
      | Raise e => Raise e
      end
  end.

(** [m] completed iterations of the loop: [m] update steps, each followed
    by the recording of the metrics. *)
Fixpoint iterations (problem : Problem) (solver : Solver State) (metrics : list string)
    (kwargs : Params) (m : nat) (sol : pyval) (state : State) (result : Result)
  : outcome (pyval * State * Result) :=
  match m with
  | O => Ok (sol, state, result)
  | S m' =>
      match update solver sol state kwargs with
      | Ok (sol', state') =>
          match record_metrics problem metrics sol' state' result with
          | Ok result' => iterations problem solver metrics kwargs m' sol' state' result'
          | Raise e => Raise e
          end
      | Raise e => Raise e
      end
  end.

(** ** [Benchmark.__init__] and [Benchmark.run] *)

(** Modelled from the spec: [metrics.check_metric] (module [metrics] is not
    among the sources) validates the requested names against a fixed
    allow-list, [known_metrics]: it accepts exactly when every requested name
    is in the list. *)
Definition check_metric (names : list string) : bool :=
  forallb (fun name => in_list name known_metrics) names.

(** [Benchmark.__init__]. *)
Definition init (problem : Problem) (methods : list Item) (metrics : list string)
  : constructed Benchmark :=
  let methods_names := flat_map (fun item : Item => map fst item) methods in
  if negb (check_method methods_names) then Exit 1
  else if negb (check_metric metrics) then Exit 1
  else Constructed (mkBenchmark problem methods available_built_in_methods metrics).

(** [x_init = None; if 'x_init' in params: x_init = params['x_init']]. *)
Definition get_x_init (params : Params) : pyval :=
  match params !! "x_init" with
  | Some v => v
  | None => PyNone
  end.

(** [if 'x_init' in params: params.pop('x_init')], on the dict at [l]. *)
Definition pop_x_init (l : loc) (store : Store) : Store :=
  match store l !! "x_init" with
  | Some _ => <[l := delete "x_init" (store l)]> store
  | None => store
  end.

(** The call [self.__run_solver(solver=.., x_init=.., metrics=.., **params)]:
    a key of [params] that names a parameter of the method is a [TypeError]. *)
Definition call_run_solver (problem : Problem) (solver : Solver State) (x_init : pyval)
    (metrics : list string) (params : Params) : M Result :=
  if bool_decide (is_Some (params !! "self")) || bool_decide (is_Some (params !! "solver"))
     || bool_decide (is_Some (params !! "x_init")) || bool_decide (is_Some (params !! "metrics"))
  then raise TypeError
  else run_solver problem solver x_init metrics params.

(** Run [solver] for [method] and store the series (lines 145-146, 153-154). *)
Definition run_and_store (bm : Benchmark) (method : string) (solver : Solver State)
    (x_init : pyval) (params : Params) (rs : RunState) : outcome unit * RunState :=
  match call_run_solver (bm_problem bm) solver x_init (bm_metrics bm) params (rs_world rs) with
  | (Ok sub, w) =>
      (Ok tt, mkRunState w (rs_store rs) (rs_methods rs) (<[method := sub]> (rs_data rs)))
  | (Raise e, w) =>
      (Raise e, mkRunState w (rs_store rs) (rs_methods rs) (rs_data rs))
  end.

(** The body of the inner loop of [run] (lines 138-154) for one
    [method, params] pair. *)
Definition run_method (bm : Benchmark) (user_method : option (Solver State))
    (method : string) (l : loc) (rs : RunState) : outcome unit * RunState :=
  if String.prefix "GRADIENT_DESCENT" method then
    let x_init := get_x_init (rs_store rs l) in
    let rs1 := mkRunState (rs_world rs) (pop_x_init l (rs_store rs))
                 (rs_methods rs ++ [method])%list (rs_data rs) in
    let params := rs_store rs1 l in
    match GradientDescent (bm_problem bm) params with
    | Raise e => (Raise e, rs1)
    | Ok solver => run_and_store bm method solver x_init params rs1
    end
  else
    match user_method with
    | Some solver =>
        let rs0 := mkRunState (rs_world rs) (rs_store rs)
                     (rs_methods rs ++ [method])%list (rs_data rs) in
        match rs_store rs l !! "x_init" with
        | Some v =>
            match jnp_array v with
            | Raise e => (Raise e, rs0)
            | Ok x_init =>
                let rs1 := mkRunState (rs_world rs) (pop_x_init l (rs_store rs))
                             (rs_methods rs0) (rs_data rs) in
                run_and_store bm method solver x_init (rs_store rs1 l) rs1
            end
        | None => run_and_store bm method solver PyNone (rs_store rs l) rs0
        end
    | None => (Ok tt, rs)
    end.

(** The two nested loops of [run]: the pairs of all items, in order.  The
    loop stops at the first exception. *)
Fixpoint run_methods (bm : Benchmark) (user_method : option (Solver State))
    (pairs : list (string * loc)) (rs : RunState) : outcome unit * RunState :=
  match pairs with
  | [] => (Ok tt, rs)
  | (method, l) :: rest =>
      match run_method bm user_method method l rs with
      | (Ok _, rs') => run_methods bm user_method rest rs'
      | (Raise e, rs') => (Raise e, rs')
      end
  end.

(** The state in which [run] starts. *)
Definition run_start (w : World) (store : Store) : RunState := mkRunState w store [] ∅.

Definition all_pairs (bm : Benchmark) : list (string * loc) := concat (bm_methods bm).

(** [Benchmark.run(user_method)], started in world [w] with the parameter
    dicts [store]: the returned [BenchmarkResult] or the exception, and the
    state [run] leaves behind. *)
Definition run (bm : Benchmark) (user_method : option (Solver State)) (w : World) (store : Store)
  : outcome BenchmarkResult * RunState :=
  match run_methods bm user_method (all_pairs bm) (run_start w store) with
  | (Ok _, rs) =>
      (Ok (mkBenchmarkResult (bm_problem bm) (rs_methods rs) (bm_metrics bm) (rs_data rs)), rs)
  | (Raise e, rs) => (Raise e, rs)
  end.

(** Whether [run] runs a method of that name (lines 138 and 147). *)
Definition runs_method (user_method : option (Solver State)) (method : string) : bool :=
  String.prefix "GRADIENT_DESCENT" method ||
  match user_method with Some _ => true | None => false end.

(** The pairs that [run] runs. *)
Definition run_pairs (user_method : option (Solver State)) (pairs : list (string * loc))
  : list (string * loc) :=
  filter (fun p => runs_method user_method (fst p) = true) pairs.

(** The benchmark without the methods that are not of the built-in
    gradient-descent family. *)
Definition only_gradient_descent (bm : Benchmark) : Benchmark :=
  mkBenchmark (bm_problem bm)
    (map (fun item : Item =>
            filter (fun p => String.prefix "GRADIENT_DESCENT" (fst p) = true) item)
         (bm_methods bm))
    (bm_available_built_in_methods bm) (bm_metrics bm).

(** The stop condition that the loop consults before an iteration other
    than the first (lines 85-88): the solver's own [stop_criterion] for a
    custom optimizer, the comparison of [state.error] with the tolerance for
    a built-in one. *)
Definition stop_decision (solver : Solver State) (tol : pyval) (sol : pyval) (state : State)
  : outcome bool :=
  if is_custom solver then stop_criterion solver sol state
  else match error state with
       | None => Raise AttributeError
       | Some err => stop_criterion_err err tol
       end.

(** What a completed loop says about the stop condition: it held at none
    of the iterations that were run (but the first, where it is not
    consulted), and it held where the loop ended before its range did. *)
Definition stop_post (solver : Solver State) (kwargs : Params) (tol : pyval)
    (n i : nat) (lv : LoopVars) (evs : list event) (o : outcome LoopVars) : Prop :=
  forall lv', o = Ok lv' ->
    after_steps solver kwargs (n_updates evs) (lv_sol lv) (lv_state lv)
      = Ok (lv_sol lv', lv_state lv') /\
    (forall k sol_k st_k,
       k < n_updates evs -> 0 < i + k ->
       after_steps solver kwargs k (lv_sol lv) (lv_state lv) = Ok (sol_k, st_k) ->
       stop_decision solver tol sol_k st_k = Ok false) /\
    (n_updates evs < n ->
       0 < i + n_updates evs /\
       stop_decision solver tol (lv_sol lv') (lv_state lv') = Ok true).

(** The solutions and states that [m] successive update steps produce from
    [sol], [state], as far as the steps succeed. *)
Fixpoint trajectory (solver : Solver State) (kwargs : Params) (m : nat)
    (sol : pyval) (state : State) : list (pyval * State) :=
  match m with
  | O => []
  | S m' =>
      match update solver sol state kwargs with
      | Ok (sol', state') => (sol', state') :: trajectory solver kwargs m' sol' state'
      | Raise _ => []
      end
  end.

(** What one recording adds to each series (lines 95-104 and 119-123). *)
Definition history_x_entry (metrics : list string) (sol : pyval) : list pyval :=
  if in_list "history_x" metrics then [sol] else [].

Definition history_f_entry (problem : Problem) (metrics : list string) (sol : pyval)
  : list pyval :=
  if in_list "history_f" metrics
  then match f problem sol with Ok y => [y] | Raise _ => [] end
  else [].

Definition errors_entry (metrics : list string) (state : State) : list pyval :=
  if in_list "errors" metrics
  then match error state with Some err => [PyNum err] | None => [] end
  else [].

(** The names under which [__run_solver] can store something. *)
Definition stored_names : list string :=
  ["history_x"; "history_f"; "nit"; "errors"; "time"].

(** The solver and the initial point with which [run] calls
    [__run_solver] for [method], given the method's parameter dict as it is
    when its turn comes (lines 140-144 and 149-152); [None] for a method
    that is not run. *)
Definition method_call (bm : Benchmark) (user_method : option (Solver State))
    (method : string) (params : Params) : option (outcome (Solver State * pyval)) :=
  if String.prefix "GRADIENT_DESCENT" method then
    Some (match GradientDescent (bm_problem bm) (delete "x_init" params) with
          | Ok solver => Ok (solver, get_x_init params)
          | Raise e => Raise e
          end)
  else
    match user_method with
    | Some solver =>
        Some (match params !! "x_init" with
              | Some v =>
                  match jnp_array v with
                  | Ok x_init => Ok (solver, x_init)
                  | Raise e => Raise e
                  end
              | None => Ok (solver, PyNone)
              end)
    | None => None
    end.

(** ** Specification vocabulary for the runner *)

(** [m] only adds events to the log, and the events it adds and its
    outcome satisfy [Q]. *)
Definition emits {A} (m : M A) (Q : list event -> outcome A -> Prop) : Prop :=
  forall w, exists evs, w_log (snd (m w)) = (w_log w ++ evs)%list /\ Q evs (fst (m w)).

(** The events of one stop check at iteration [i]. *)
Definition check_events (i : nat) (sc : list event) : Prop :=
  sc = [] \/ (0 < i /\ (sc = [EvErrorCheck i] \/ sc = [EvStopCriterion i])).

(** The events of iteration [i] and later: checks carry an index that is
    positive and at least [i], updates an index that is at least [i]. *)
Definition ev_from (i : nat) (ev : event) : Prop :=
  match ev with
  | EvErrorCheck j | EvStopCriterion j => 0 < j /\ i <= j
  | EvUpdate j => i <= j
  | _ => True
  end.

(** What the loop does when it has [n] iterations left and starts
    iteration [i] with the variables [lv]. *)
Definition loop_post (problem : Problem) (solver : Solver State) (metrics : list string)
    (kwargs : Params) (n i : nat) (lv : LoopVars) (evs : list event)
    (o : outcome LoopVars) : Prop :=
  n_updates evs <= n /\
  Forall (ev_from i) evs /\
  (i = 0 -> (n = 0 /\ evs = []) \/ exists rest, evs = EvUpdate 0 :: rest) /\
  (forall lv', o = Ok lv' ->
     iterations problem solver metrics kwargs (n_updates evs)
       (lv_sol lv) (lv_state lv) (lv_result lv)
     = Ok (lv_sol lv', lv_state lv', lv_result lv')).

(** The series [k] of [r] holds [l]; a series that holds nothing yet is
    not in the dict. *)
Definition series_is (r : Result) (k : string) (l : list pyval) : Prop :=
  (l = [] /\ r !! k = None) \/ (l <> [] /\ r !! k = Some l).

(** The counter ["nit"] of [r] holds [c]; a counter that has not counted
    yet is not in the dict. *)
Definition nit_is (r : Result) (c : nat) : Prop :=
  (c = 0 /\ r !! "nit" = None) \/ (0 < c /\ r !! "nit" = Some [PyInt (Z.of_nat c)]).

(** What a call of [__run_solver] does: it raises in [init_state], or it
    prints the tolerance and runs the loop from the initial point. *)
Definition run_solver_post (problem : Problem) (solver : Solver State) (x_init : pyval)
    (metrics : list string) (kwargs : Params) (evs : list event) (o : outcome Result) : Prop :=
  (exists e, init_state solver x_init kwargs = Raise e /\ evs = [EvInit] /\ o = Raise e) \/
  (exists st0 loop_evs o_loop,
     init_state solver x_init kwargs = Ok st0 /\
     evs = EvInit :: EvPrint (PyNum (1 # 1000)) :: loop_evs /\
     loop_post problem solver metrics kwargs (maxiter solver) 0
       (mkLoopVars (initial_sol solver x_init) st0 (initial_sol solver x_init) ∅)
       loop_evs o_loop /\
     match o_loop with
     | Raise e => o = Raise e
     | Ok lv =>
         exists duration,
           o = Ok (if in_list "time" metrics
                   then <["time" := [PyNum duration]]> (lv_result lv)
                   else lv_result lv)
     end).

(** What one pass of the inner loop of [run] does to the state. *)
Definition run_method_post (user_method : option (Solver State)) (method : string) (l : loc)
    (rs : RunState) (o : outcome unit) (rs' : RunState) : Prop :=
  if runs_method user_method method then
    rs_methods rs' = (rs_methods rs ++ [method])%list /\
    (forall l', l' <> l -> rs_store rs' l' = rs_store rs l') /\
    (rs_store rs' l = rs_store rs l \/ rs_store rs' l = delete "x_init" (rs_store rs l)) /\
    match o with
    | Ok _ =>
        rs_store rs' l = delete "x_init" (rs_store rs l) /\
        exists sub, rs_data rs' = <[method := sub]> (rs_data rs)
    | Raise _ => rs_data rs' = rs_data rs
    end
  else o = Ok tt /\ rs' = rs.

(** ** Properties of the loop of [__run_solver] *)

Lemma emits_events_of {A} (m : M A) Q w :
  emits m Q -> Q (events_of m w) (fst (m w)).
Proof.
  intros H. destruct (H w) as (evs & Hlog & HQ).
  unfold events_of. rewrite Hlog, drop_app_length. exact HQ.
Qed.

Lemma emits_weaken {A} (m : M A) (Q Q' : list event -> outcome A -> Prop) :
  emits m Q -> (forall evs o, Q evs o -> Q' evs o) -> emits m Q'.
Proof.
  intros H HQ w. destruct (H w) as (evs & Hlog & Hq). eauto.
Qed.

Lemma emits_bind {A B} (m : M A) (k : A -> M B) Q1 Q2 :
  emits m Q1 ->
  (forall a, emits (k a) (Q2 a)) ->
  emits (bind m k) (fun evs o =>
    (exists e1 a e2, evs = (e1 ++ e2)%list /\ Q1 e1 (Ok a) /\ Q2 a e2 o) \/
    (exists e, Q1 evs (Raise e) /\ o = Raise e)).
Proof.
  intros Hm Hk w. unfold bind.
  destruct (Hm w) as (e1 & Hlog1 & Hq1).
  destruct (m w) as [[a|e] w1]; simpl in *.
  - destruct (Hk a w1) as (e2 & Hlog2 & Hq2).
    exists (e1 ++ e2)%list. split.
    + rewrite Hlog2, Hlog1. by rewrite app_assoc.
    + left. by exists e1, a, e2.
  - exists e1. split; [done|]. right. by exists e.
Qed.

Lemma emits_ret {A} (a : A) : emits (ret a) (fun evs o => evs = [] /\ o = Ok a).
Proof. intros w. exists []. simpl. by rewrite app_nil_r. Qed.

Lemma emits_raise {A} (e : exn) : emits (@raise A e) (fun evs o => evs = [] /\ o = Raise e).
Proof. intros w. exists []. simpl. by rewrite app_nil_r. Qed.

Lemma emits_lift {A} (x : outcome A) : emits (lift x) (fun evs o => evs = [] /\ o = x).
Proof. intros w. exists []. simpl. by rewrite app_nil_r. Qed.

Lemma emits_emit (ev : event) : emits (emit ev) (fun evs o => evs = [ev] /\ o = Ok tt).
Proof. intros w. by exists [ev]. Qed.

Lemma emits_time : emits time_ (fun evs o => evs = [] /\ exists t, o = Ok t).
Proof. intros w. exists []. simpl. rewrite app_nil_r. eauto. Qed.

Lemma stop_check_emits solver tol i lv :
  emits (stop_check solver tol i lv) (fun evs _ => check_events i evs).
Proof.
  intros w. unfold stop_check, check_events.
  destruct (0 <? i)%nat eqn:Hi.
  - apply Nat.ltb_lt in Hi.
    unfold bind, emit, lift, ret, raise.
    destruct (is_custom solver); simpl.
    + destruct (stop_criterion solver (lv_sol lv) (lv_state lv)); simpl; eexists; eauto.
    + destruct (error (lv_state lv)) as [err|]; simpl; [|eexists; eauto].
      destruct (stop_criterion_err err tol) as [[|]|]; simpl; eexists; eauto.
  - exists []. simpl. rewrite app_nil_r. auto.
Qed.

(** One pass through the body: the stop check, then, unless the loop
    breaks, the update and the recording. *)
Lemma loop_body_emits problem solver metrics kwargs tol i lv :
  emits (loop_body problem solver metrics kwargs tol i lv) (fun evs o =>
    exists sc, check_events i sc /\
      ((0 < i /\ evs = sc /\ (o = Ok (Break lv) \/ exists e, o = Raise e)) \/
       (evs = (sc ++ [EvUpdate i])%list /\
        ((exists e, o = Raise e) \/
         exists sol' st' r',
           update solver (lv_sol lv) (lv_state lv) kwargs = Ok (sol', st') /\
           record_metrics problem metrics sol' st' (lv_result lv) = Ok r' /\
           o = Ok (Continue (mkLoopVars sol' st' (lv_sol lv) r')))))).
Proof.
  intros w. unfold loop_body.
  destruct (stop_check_emits solver tol i lv w) as (sc & Hlog & Hsc).
  assert (Hpos : forall o w1, stop_check solver tol i lv w = (o, w1) ->
                              o <> Ok false -> 0 < i).
  { intros o w1 Hs Ho. unfold stop_check in Hs.
    destruct (0 <? i)%nat eqn:Hi; [by apply Nat.ltb_lt|].
    unfold ret in Hs. congruence. }
  unfold bind, emit, lift, ret.
  destruct (stop_check solver tol i lv w) as [[stop|e] w1] eqn:Hstop; simpl in Hlog.
  - destruct stop; simpl.
    + exists sc. split; [done|]. exists sc. split; [done|]. left.
      split; [by eapply Hpos|by auto].
    + exists (sc ++ [EvUpdate i])%list.
      destruct (update solver (lv_sol lv) (lv_state lv) kwargs) as [[sol' st']|e]; simpl.
      * destruct (record_metrics problem metrics sol' st' (lv_result lv)) as [r'|e] eqn:Hrec;
          simpl.
        -- split; [by rewrite Hlog, app_assoc|].
           exists sc. split; [done|]. right. split; [done|]. right.
           by exists sol', st', r'.
        -- split; [by rewrite Hlog, app_assoc|].
           exists sc. split; [done|]. right. split; [done|]. left. by exists e.
      * split; [by rewrite Hlog, app_assoc|].
        exists sc. split; [done|]. right. split; [done|]. left. by exists e.
  - simpl. exists sc. split; [done|]. exists sc. split; [done|]. left.
    split; [by eapply Hpos|by eauto].
Qed.

Lemma n_updates_app l1 l2 : n_updates (l1 ++ l2) = n_updates l1 + n_updates l2.
Proof. unfold n_updates. by rewrite list.filter_app, length_app. Qed.

Lemma n_updates_nil : n_updates [] = 0.
Proof. reflexivity. Qed.

Lemma n_updates_update i : n_updates [EvUpdate i] = 1.
Proof. reflexivity. Qed.

Lemma n_updates_check i sc : check_events i sc -> n_updates sc = 0.
Proof. by intros [->|[_ [->| ->]]]. Qed.

Lemma ev_from_le i j ev : i <= j -> ev_from j ev -> ev_from i ev.
Proof. destruct ev; simpl; lia. Qed.

Lemma check_events_from i sc : check_events i sc -> Forall (ev_from i) sc.
Proof.
  intros [->|[Hi [->| ->]]]; repeat constructor; simpl; lia.
Qed.

Lemma for_range_emits problem solver metrics kwargs tol n : forall i lv,
  emits (for_range problem solver metrics kwargs tol n i lv)
        (loop_post problem solver metrics kwargs n i lv).
Proof.
  induction n as [|n IH]; intros i lv.
  - eapply emits_weaken; [apply emits_ret|].
    intros evs o [-> ->]. unfold loop_post. rewrite n_updates_nil. simpl.
    split; [lia|]. split; [constructor|]. split; [auto|].
    intros lv' [= <-]. done.
  - simpl.
    eapply emits_weaken.
    { apply emits_bind with
        (Q2 := fun c evs o =>
           match c with
           | Break lv' => evs = [] /\ o = Ok lv'
           | Continue lv' => loop_post problem solver metrics kwargs n (S i) lv' evs o
           end).
      - apply loop_body_emits.
      - intros [lv'|lv']; [apply IH|apply emits_ret]. }
    intros evs o [(e1 & c & e2 & -> & (sc & Hsc & Hbody) & Hrest)|(e & (sc & Hsc & Hbody) & ->)].
    + destruct Hbody as [(Hi & -> & [Ho|[e Ho]])|(-> & [[e Ho]|(sol' & st' & r' & Hup & Hrec & Ho)])];
        try discriminate.
      * (* the loop breaks *)
        injection Ho as ->. destruct Hrest as [-> ->].
        rewrite app_nil_r. unfold loop_post.
        rewrite (n_updates_check i sc Hsc).
        split; [lia|]. split; [by apply check_events_from|].
        split; [lia|]. intros lv' [= <-]. done.
      * (* a completed iteration, then the rest of the loop *)
        injection Ho as ->.
        destruct Hrest as (Hn & Hfrom & _ & Hit).
        unfold loop_post.
        rewrite !n_updates_app, (n_updates_check i sc Hsc), n_updates_update. simpl.
        split; [lia|].
        split.
        { rewrite !Forall_app. split_and!.
          - by apply check_events_from.
          - repeat constructor; simpl; lia.
          - eapply Forall_impl; [|exact Hfrom]. intros ev. apply ev_from_le. lia. }
        split.
        { intros ->. right. destruct Hsc as [->|[Hlt _]]; [|lia]. simpl. eauto. }
        intros lv' ->.
        simpl. rewrite Hup, Hrec. by apply Hit.
    + (* an exception in the body *)
      destruct Hbody as [(Hi & -> & _)|(-> & _)]; unfold loop_post.
      * rewrite (n_updates_check i sc Hsc).
        split; [lia|]. split; [by apply check_events_from|].
        split; [lia|]. intros lv' [=].
      * rewrite n_updates_app, (n_updates_check i sc Hsc), n_updates_update.
        split; [lia|].
        split.
        { rewrite Forall_app. split; [by apply check_events_from|].
          repeat constructor; simpl; lia. }
        split.
        { intros ->. right. destruct Hsc as [->|[Hlt _]]; [|lia]. simpl. eauto. }
        intros lv' [=].
Qed.

(** *** The series that the loop records *)

Lemma series_is_empty k : series_is ∅ k [].
Proof. left. by rewrite lookup_empty. Qed.

Lemma record_series r k v l :
  series_is r k l -> series_is (record k v r) k (l ++ [v]).
Proof.
  intros [[-> Hk]|[Hl Hk]]; unfold record; rewrite Hk; right.
  - split; [done|]. by rewrite lookup_insert_eq.
  - split; [by destruct l|]. by rewrite lookup_insert_eq.
Qed.

Lemma record_lookup_ne r k k' v : k <> k' -> record k v r !! k' = r !! k'.
Proof.
  intros Hne. unfold record. destruct (r !! k); by rewrite lookup_insert_ne.
Qed.

Lemma record_series_ne r k k' v l :
  k <> k' -> series_is r k' l -> series_is (record k v r) k' l.
Proof. intros Hne. unfold series_is. by rewrite record_lookup_ne. Qed.

Lemma record_nit_lookup_ne r r' k :
  record_nit r = Ok r' -> k <> "nit" -> r' !! k = r !! k.
Proof.
  unfold record_nit. intros H Hne.
  destruct (r !! "nit") as [[|v tl]|].
  - discriminate.
  - destruct (py_incr v); simplify_eq. by rewrite lookup_insert_ne.
  - simplify_eq. by rewrite lookup_insert_ne.
Qed.

Lemma record_nit_count r r' c :
  nit_is r c -> record_nit r = Ok r' -> nit_is r' (S c).
Proof.
  unfold record_nit. intros [[-> Hk]|[Hc Hk]] H; rewrite Hk in H; simpl in H; simplify_eq.
  - right. split; [lia|]. by rewrite lookup_insert_eq.
  - right. split; [lia|]. rewrite lookup_insert_eq. do 3 f_equal. lia.
Qed.

(** One recording, when both histories are requested. *)
Lemma record_metrics_history problem metrics sol state r r' xs fs :
  in_list "history_x" metrics = true ->
  in_list "history_f" metrics = true ->
  record_metrics problem metrics sol state r = Ok r' ->
  series_is r "history_x" xs ->
  series_is r "history_f" fs ->
  exists y, f problem sol = Ok y /\
    series_is r' "history_x" (xs ++ [sol]) /\
    series_is r' "history_f" (fs ++ [y]) /\
    (forall c, in_list "nit" metrics = true -> nit_is r c -> nit_is r' (S c)) /\
    (in_list "nit" metrics = false -> r' !! "nit" = r !! "nit").
Proof.
  intros Hx Hf Hrec Hxs Hfs. unfold record_metrics in Hrec. rewrite Hx, Hf in Hrec.
  destruct (f problem sol) as [y|e]; [|discriminate].
  exists y. split; [done|].
  set (r2 := record "history_f" y (record "history_x" sol r)) in *.
  assert (H2x : series_is r2 "history_x" (xs ++ [sol])).
  { apply record_series_ne; [done|]. by apply record_series. }
  assert (H2f : series_is r2 "history_f" (fs ++ [y])).
  { apply record_series. by apply record_series_ne. }
  assert (H2n : r2 !! "nit" = r !! "nit").
  { unfold r2. by rewrite !record_lookup_ne. }
  destruct (in_list "nit" metrics) eqn:Hn.
  - destruct (record_nit r2) as [r3|e] eqn:Hr3; [|discriminate].
    assert (H3 : forall k, k <> "nit" -> r3 !! k = r2 !! k).
    { intros k. by apply record_nit_lookup_ne. }
    assert (H3n : forall c, nit_is r c -> nit_is r3 (S c)).
    { intros c Hc. eapply record_nit_count; [|exact Hr3].
      unfold nit_is. by rewrite H2n. }
    destruct (in_list "errors" metrics).
    + destruct (error state) as [err|]; [|discriminate]. simplify_eq.
      split_and!.
      * apply record_series_ne; [done|]. unfold series_is. by rewrite H3.
      * apply record_series_ne; [done|]. unfold series_is. by rewrite H3.
      * intros c _ Hc. specialize (H3n c Hc). unfold nit_is in *.
        by rewrite record_lookup_ne.
      * done.
    + simplify_eq. split_and!.
      * unfold series_is. by rewrite H3.
      * unfold series_is. by rewrite H3.
      * auto.
      * done.
  - destruct (in_list "errors" metrics).
    + destruct (error state) as [err|]; [|discriminate]. simplify_eq.
      split_and!.
      * by apply record_series_ne.
      * by apply record_series_ne.
      * done.
      * intros _. by rewrite record_lookup_ne.
    + simplify_eq. by split_and!.
Qed.

(** [m] completed iterations, when both histories are requested: the
    series grow by the [m] solutions and their objective values. *)
Lemma iterations_history problem solver metrics kwargs m :
  in_list "history_x" metrics = true ->
  in_list "history_f" metrics = true ->
  forall sol state r sol' state' r' xs0 fs0 c0,
  iterations problem solver metrics kwargs m sol state r = Ok (sol', state', r') ->
  series_is r "history_x" xs0 ->
  series_is r "history_f" fs0 ->
  (in_list "nit" metrics = true -> nit_is r c0) ->
  exists xs fs,
    length xs = m /\ length fs = m /\
    series_is r' "history_x" (xs0 ++ xs) /\
    series_is r' "history_f" (fs0 ++ fs) /\
    (in_list "nit" metrics = true -> nit_is r' (c0 + m)) /\
    (in_list "nit" metrics = false -> r' !! "nit" = r !! "nit") /\
    (forall k, k < m ->
       exists sol_k state_k y,
         after_steps solver kwargs (S k) sol state = Ok (sol_k, state_k) /\
         xs !! k = Some sol_k /\
         f problem sol_k = Ok y /\
         fs !! k = Some y).
Proof.
  intros Hx Hf. induction m as [|m IH]; intros sol state r sol' state' r' xs0 fs0 c0 Hit Hxs Hfs Hn.
  - simpl in Hit. simplify_eq. exists [], []. rewrite !app_nil_r, Nat.add_0_r.
    split_and!; try done. intros k Hk. lia.
  - simpl in Hit.
    destruct (update solver sol state kwargs) as [[sol1 state1]|e] eqn:Hup; [|discriminate].
    destruct (record_metrics problem metrics sol1 state1 r) as [r1|e] eqn:Hrec; [|discriminate].
    destruct (record_metrics_history _ _ _ _ _ _ _ _ Hx Hf Hrec Hxs Hfs)
      as (y & Hy & H1x & H1f & H1n & H1n').
    destruct (IH sol1 state1 r1 sol' state' r' (xs0 ++ [sol1])%list (fs0 ++ [y])%list (S c0)
                Hit H1x H1f) as (xs & fs & Hlx & Hlf & Hrx & Hrf & Hrn & Hrn' & Hk).
    { intros Hnit. apply H1n; auto. }
    exists (sol1 :: xs), (y :: fs). simpl.
    split_and!.
    + by rewrite Hlx.
    + by rewrite Hlf.
    + by rewrite <- app_assoc in Hrx.
    + by rewrite <- app_assoc in Hrf.
    + intros Hnit. replace (c0 + S m) with (S c0 + m) by lia. auto.
    + intros Hnit. rewrite Hrn', H1n'; auto.
    + intros [|k] Hlt.
      * exists sol1, state1, y. by rewrite Hup.
      * destruct (Hk k) as (sol_k & state_k & y_k & Hsteps & ? & ? & ?); [lia|].
        exists sol_k, state_k, y_k. rewrite Hup. by split_and!.
Qed.

(** The tolerance never comes from the keyword parameters. *)
Lemma tolerance_default kwargs : tolerance kwargs = Ok (PyNum (1 # 1000)).
Proof. reflexivity. Qed.

Lemma run_solver_emits problem solver x_init metrics kwargs :
  emits (run_solver problem solver x_init metrics kwargs)
        (run_solver_post problem solver x_init metrics kwargs).
Proof.
  intros w. unfold run_solver, run_solver_post.
  unfold bind at 1. unfold time_ at 1.
  unfold bind at 1. unfold emit at 1.
  unfold bind at 1. unfold lift at 1.
  destruct (init_state solver x_init kwargs) as [st0|e]; simpl.
  - set (w1 := {| w_log := (w_log w ++ [EvInit]) ++ [EvPrint (PyNum (1 # 1000))];
                  w_clock := S (w_clock w) |}).
    set (lv0 := mkLoopVars (initial_sol solver x_init) st0 (initial_sol solver x_init) ∅).
    destruct (for_range_emits problem solver metrics kwargs (PyNum (1 # 1000))
                (maxiter solver) 0 lv0 w1) as (loop_evs & Hlog & Hpost).
    unfold bind, lift, emit, ret, time_. simpl. fold w1. fold lv0.
    destruct (for_range problem solver metrics kwargs (PyNum (1 # 1000))
                (maxiter solver) 0 lv0 w1) as [[lv|e] w2]; simpl in *.
    + exists (EvInit :: EvPrint (PyNum (1 # 1000)) :: loop_evs). split.
      { rewrite Hlog. by rewrite <- !app_assoc. }
      right. exists st0, loop_evs, (Ok lv). split_and!; [done..|]. eauto.
    + exists (EvInit :: EvPrint (PyNum (1 # 1000)) :: loop_evs). split.
      { rewrite Hlog. by rewrite <- !app_assoc. }
      right. exists st0, loop_evs, (Raise e). by split_and!.
  - exists [EvInit]. split; [done|]. left. by exists e.
Qed.

(** C3: in every run of [__run_solver], whatever the solver, the stop
    predicate and the outcome, the number of update steps performed is at
    most [solver.maxiter]. *)
Theorem run_solver_updates_le_maxiter problem solver x_init metrics kwargs w :
  n_updates (events_of (run_solver problem solver x_init metrics kwargs) w) <= maxiter solver.
Proof.
  pose proof (emits_events_of _ _ w (run_solver_emits problem solver x_init metrics kwargs))
    as [(e & _ & -> & _)|(st0 & loop_evs & o_loop & _ & -> & (Hle & _) & _)].
  - change (n_updates [EvInit]) with 0. lia.
  - change (EvInit :: EvPrint (PyNum (1 # 1000)) :: loop_evs)
      with ([EvInit; EvPrint (PyNum (1 # 1000))] ++ loop_evs)%list.
    rewrite n_updates_app.
    change (n_updates [EvInit; EvPrint (PyNum (1 # 1000))]) with 0. lia.
Qed.

(** C2: in every run of [__run_solver], no stop condition (neither the
    comparison of [state.error] with the tolerance nor the solver's
    [stop_criterion]) is evaluated at iteration 0; every evaluation of a
    stop condition comes after the update step of iteration 0; and a run
    that returns with [maxiter > 0] has performed at least one update. *)
Theorem run_solver_no_stop_check_before_first_update problem solver x_init metrics kwargs w :
  let evs := events_of (run_solver problem solver x_init metrics kwargs) w in
  ((EvErrorCheck 0 ∉ evs) /\ (EvStopCriterion 0 ∉ evs)) /\
  (forall pre ev post,
     evs = (pre ++ ev :: post)%list -> is_stop_check ev = true -> EvUpdate 0 ∈ pre) /\
  (is_Ok (fst (run_solver problem solver x_init metrics kwargs w)) = true ->
   0 < maxiter solver -> 1 <= n_updates evs).
Proof.
  frame.
  intros evs. subst evs.
  pose proof (emits_events_of _ _ w (run_solver_emits problem solver x_init metrics kwargs))
    as [(e & _ & -> & Ho)|(st0 & loop_evs & o_loop & _ & -> & (_ & Hfrom & Hfirst & _) & Ho)].
  - split_and!.
    + set_solver.
    + set_solver.
    + intros [|a pre] ev post Heq Hev; simplify_eq/=.
      by destruct pre.
    + rewrite Ho. discriminate.
  - assert (Hno : forall ev, ev ∈ loop_evs -> ev <> EvErrorCheck 0 /\ ev <> EvStopCriterion 0).
    { intros ev Hin. rewrite Forall_forall in Hfrom.
      apply list_elem_of_In, Hfrom in Hin.
      split; intros ->; simpl in Hin; lia. }
    split_and!.
    + intros Hin. apply elem_of_cons in Hin as [?|Hin]; [done|].
      apply elem_of_cons in Hin as [?|Hin]; [done|].
      by destruct (Hno _ Hin).
    + intros Hin. apply elem_of_cons in Hin as [?|Hin]; [done|].
      apply elem_of_cons in Hin as [?|Hin]; [done|].
      by destruct (Hno _ Hin).
    + intros pre ev post Heq Hev.
      destruct (Hfirst eq_refl) as [[_ ->]|[rest ->]].
      * destruct pre as [|a [|b [|c pre]]]; simplify_eq/=.
      * destruct pre as [|a [|b [|c pre]]]; simplify_eq/=. set_solver.
    + intros _ Hmax.
      destruct (Hfirst eq_refl) as [[Hz _]|[rest ->]]; [lia|].
      change (EvInit :: EvPrint (PyNum (1 # 1000)) :: EvUpdate 0 :: rest)
        with ([EvInit; EvPrint (PyNum (1 # 1000))] ++ [EvUpdate 0] ++ rest)%list.
      rewrite !n_updates_app, n_updates_update. lia.
Qed.

Lemma in_list_true k l : k ∈ l -> in_list k l = true.
Proof. intros H. unfold in_list. by apply bool_decide_eq_true. Qed.

Lemma series_is_length r k l :
  series_is r k l ->
  (length l = 0 -> r !! k = None) /\ (0 < length l -> r !! k = Some l).
Proof.
  intros [[-> Hk]|[Hl Hk]]; split; intros Hlen; try done.
  - simpl in Hlen. lia.
  - destruct l; [done|]. simpl in Hlen. lia.
Qed.

(** C4 (as amended): when [__run_solver] returns and both "history_x" and
    "history_f" are requested, let [n] be the number of completed loop
    iterations ([n] updates were made, each followed by its recording).  If
    [n = 0] the result has no "history_x", "history_f" or
    "nit" entry.  If [n > 0] the two series are present with length [n],
    "nit" (when requested) is [[n]], and for every [k < n] entry [k] of
    "history_x" is the solution after step [k + 1] and entry [k] of
    "history_f" is the objective at that solution. *)
Theorem run_solver_history problem solver x_init metrics kwargs w result :
  fst (run_solver problem solver x_init metrics kwargs w) = Ok result ->
  "history_x" ∈ metrics ->
  "history_f" ∈ metrics ->
  let n := n_updates (events_of (run_solver problem solver x_init metrics kwargs) w) in
  exists st0 xs fs,
    init_state solver x_init kwargs = Ok st0 /\
    is_Ok (iterations problem solver metrics kwargs n (initial_sol solver x_init) st0 ∅) = true /\
    length xs = n /\ length fs = n /\
    (n = 0 ->
       result !! "history_x" = None /\ result !! "history_f" = None /\
       result !! "nit" = None) /\
    (0 < n ->
       result !! "history_x" = Some xs /\ result !! "history_f" = Some fs /\
       ("nit" ∈ metrics -> result !! "nit" = Some [PyInt (Z.of_nat n)])) /\
    (forall k, k < n ->
       exists sol_k state_k y,
         after_steps solver kwargs (S k) (initial_sol solver x_init) st0 = Ok (sol_k, state_k) /\
         xs !! k = Some sol_k /\
         f problem sol_k = Ok y /\
         fs !! k = Some y).
Proof.
  intros Hres Hx Hf n. subst n.
  apply in_list_true in Hx, Hf.
  pose proof (emits_events_of _ _ w (run_solver_emits problem solver x_init metrics kwargs))
    as [(e & _ & _ & Ho)|(st0 & loop_evs & o_loop & Hinit & -> & (_ & _ & _ & Hit) & Ho)].
  { rewrite Hres in Ho. discriminate. }
  rewrite Hres in Ho.
  destruct o_loop as [lv|e]; [|discriminate].
  destruct Ho as (duration & Ho).
  change (EvInit :: EvPrint (PyNum (1 # 1000)) :: loop_evs)
    with ([EvInit; EvPrint (PyNum (1 # 1000))] ++ loop_evs)%list.
  rewrite n_updates_app.
  change (n_updates [EvInit; EvPrint (PyNum (1 # 1000))]) with 0.
  rewrite Nat.add_0_l.
  specialize (Hit lv eq_refl). simpl in Hit.
  destruct (iterations_history problem solver metrics kwargs (n_updates loop_evs) Hx Hf
              _ _ _ _ _ _ [] [] 0 Hit (series_is_empty _) (series_is_empty _))
    as (xs & fs & Hlx & Hlf & Hsx & Hsf & Hn & Hn' & Hk).
  { intros _. left. by rewrite lookup_empty. }
  simpl in Hsx, Hsf, Hn.
  assert (Hlook : forall k, k <> "time" -> result !! k = lv_result lv !! k).
  { intros k Hne. injection Ho as ->.
    destruct (in_list "time" metrics); [|done]. by rewrite lookup_insert_ne. }
  exists st0, xs, fs. split_and!; try done.
  - by rewrite Hit.
  - intros Hz.
    destruct (series_is_length _ _ _ Hsx) as [Hx0 _].
    destruct (series_is_length _ _ _ Hsf) as [Hf0 _].
    rewrite !Hlook by done. split_and!.
    + apply Hx0. lia.
    + apply Hf0. lia.
    + destruct (in_list "nit" metrics) eqn:Hnit.
      * destruct (Hn eq_refl) as [[_ ?]|[? _]]; [done|lia].
      * rewrite Hn' by done. by rewrite lookup_empty.
  - intros Hpos.
    destruct (series_is_length _ _ _ Hsx) as [_ Hx1].
    destruct (series_is_length _ _ _ Hsf) as [_ Hf1].
    rewrite !Hlook by done. split_and!.
    + apply Hx1. lia.
    + apply Hf1. lia.
    + intros Hnit. apply in_list_true in Hnit.
      destruct (Hn Hnit) as [[? _]|[_ ?]]; [lia|done].
Qed.

(** ** Properties of [run] *)

Lemma pop_x_init_same l (store : Store) :
  pop_x_init l store l = delete "x_init" (store l).
Proof.
  unfold pop_x_init. destruct (store l !! "x_init") eqn:Hx.
  - by rewrite fn_lookup_insert.
  - by rewrite delete_id.
Qed.

Lemma pop_x_init_other l l' (store : Store) :
  l' <> l -> pop_x_init l store l' = store l'.
Proof.
  intros Hne. unfold pop_x_init. destruct (store l !! "x_init"); [|done].
  by rewrite fn_lookup_insert_ne.
Qed.

Lemma run_and_store_post bm method solver x_init params rs o rs' :
  run_and_store bm method solver x_init params rs = (o, rs') ->
  rs_methods rs' = rs_methods rs /\ rs_store rs' = rs_store rs /\
  match o with
  | Ok _ => exists sub, rs_data rs' = <[method := sub]> (rs_data rs)
  | Raise _ => rs_data rs' = rs_data rs
  end.
Proof.
  unfold run_and_store.
  destruct (call_run_solver _ _ _ _ _ _) as [[sub|e] w']; intros [= <- <-]; simpl; eauto.
Qed.

Lemma run_method_spec bm user_method method l rs o rs' :
  run_method bm user_method method l rs = (o, rs') ->
  run_method_post user_method method l rs o rs'.
Proof.
  unfold run_method, run_method_post, runs_method.
  destruct (String.prefix "GRADIENT_DESCENT" method); simpl.
  - destruct (GradientDescent _ _) as [solver|e].
    + intros H. apply run_and_store_post in H as (Hm & Hs & Hd). simpl in *.
      rewrite Hm, Hs. split_and!; [done|..].
      * intros l' Hne. by apply pop_x_init_other.
      * right. apply pop_x_init_same.
      * destruct o; [|done]. split; [apply pop_x_init_same|done].
    + intros [= <- <-]. simpl. split_and!; [done|..|done].
      * intros l' Hne. by apply pop_x_init_other.
      * right. apply pop_x_init_same.
  - destruct user_method as [solver|]; [|by intros [= <- <-]].
    destruct (rs_store rs l !! "x_init") as [v|] eqn:Hx.
    + destruct (jnp_array v) as [x_init|e].
      * intros H. apply run_and_store_post in H as (Hm & Hs & Hd). simpl in *.
        rewrite Hm, Hs. split_and!; [done|..].
        -- intros l' Hne. by apply pop_x_init_other.
        -- right. apply pop_x_init_same.
        -- destruct o; [|done]. split; [apply pop_x_init_same|done].
      * intros [= <- <-]. simpl. split_and!; auto.
    + intros H. apply run_and_store_post in H as (Hm & Hs & Hd). simpl in *.
      rewrite Hm, Hs. split_and!; [done|done|by left|].
      destruct o; [|done]. split; [|done]. by rewrite delete_id.
Qed.

Lemma run_pairs_cons user_method method l pairs :
  run_pairs user_method ((method, l) :: pairs) =
  if runs_method user_method method
  then (method, l) :: run_pairs user_method pairs
  else run_pairs user_method pairs.
Proof.
  unfold run_pairs. rewrite filter_cons. simpl.
  destruct (runs_method user_method method); by case_decide.
Qed.

(** A completed pass over [pairs] has recorded and stored exactly the
    methods it runs. *)
Lemma run_methods_ok bm user_method pairs : forall rs u rs',
  run_methods bm user_method pairs rs = (Ok u, rs') ->
  rs_methods rs' = (rs_methods rs ++ map fst (run_pairs user_method pairs))%list /\
  dom (rs_data rs') = dom (rs_data rs) ∪ list_to_set (map fst (run_pairs user_method pairs)).
Proof.
  frame.
  induction pairs as [|[method l] pairs IH]; intros rs u rs' H; simpl in H.
  - simplify_eq. rewrite app_nil_r. split; [done|]. set_solver.
  - destruct (run_method bm user_method method l rs) as [[u1|e] rs1] eqn:H1; [|discriminate].
    apply run_method_spec in H1. unfold run_method_post in H1.
    apply IH in H as [Hm Hd]. rewrite run_pairs_cons.
    destruct (runs_method user_method method).
    + destruct H1 as (Hm1 & _ & _ & _ & sub & Hd1).
      rewrite Hm, Hm1, Hd, Hd1, dom_insert_L, <- app_assoc. simpl.
      split; [done|]. set_solver.
    + destruct H1 as [_ ->]. done.
Qed.

(** A pass over [pairs] that raises has completed the pairs before some
    pair, and ends in the state in which the run of that pair raised. *)
Lemma run_methods_raise bm user_method pairs : forall rs e rs',
  run_methods bm user_method pairs rs = (Raise e, rs') ->
  exists pre method l post rs_mid,
    pairs = (pre ++ (method, l) :: post)%list /\
    run_methods bm user_method pre rs = (Ok tt, rs_mid) /\
    run_method bm user_method method l rs_mid = (Raise e, rs').
Proof.
  induction pairs as [|[method l] pairs IH]; intros rs e rs' H; simpl in H.
  - discriminate.
  - destruct (run_method bm user_method method l rs) as [[[]|e1] rs1] eqn:H1.
    + apply IH in H as (pre & m & l0 & post & rs_mid & -> & Hpre & Hm).
      exists ((method, l) :: pre), m, l0, post, rs_mid. simpl. by rewrite H1.
    + simplify_eq. by exists [], method, l, pairs, rs.
Qed.

(** The parameter dicts after a pass over [pairs]. *)
Lemma run_methods_store bm user_method pairs : forall rs o rs',
  run_methods bm user_method pairs rs = (o, rs') ->
  (forall l, rs_store rs' l = rs_store rs l \/
             rs_store rs' l = delete "x_init" (rs_store rs l)) /\
  (forall l, (forall method, (method, l) ∈ pairs -> runs_method user_method method = false) ->
             rs_store rs' l = rs_store rs l) /\
  (is_Ok o = true ->
   forall method l, (method, l) ∈ pairs -> runs_method user_method method = true ->
                    rs_store rs' l = delete "x_init" (rs_store rs l)).
Proof.
  induction pairs as [|[method l] pairs IH]; intros rs o rs' H; simpl in H.
  - simplify_eq. split_and!; [by left|done|]. intros _ m l Hin. by apply elem_of_nil in Hin.
  - destruct (run_method bm user_method method l rs) as [[u1|e] rs1] eqn:H1.
    + apply run_method_spec in H1. unfold run_method_post in H1.
      apply IH in H as (Hany & Hskip & Hrun).
      destruct (runs_method user_method method) eqn:Hr.
      * destruct H1 as (_ & Hother & _ & Hl & _).
        assert (Hany1 : forall l0, rs_store rs' l0 = rs_store rs l0 \/
                                   rs_store rs' l0 = delete "x_init" (rs_store rs l0)).
        { intros l0. destruct (decide (l0 = l)) as [->|Hne].
          - right. destruct (Hany l) as [->| ->]; rewrite Hl; [done|].
            by rewrite delete_delete_eq.
          - rewrite <- (Hother l0 Hne). apply Hany. }
        split_and!; [done|..].
        -- intros l0 Hl0. destruct (decide (l0 = l)) as [->|Hne].
           ++ specialize (Hl0 method). rewrite Hr in Hl0.
              discriminate Hl0. left.
           ++ rewrite <- (Hother l0 Hne). apply Hskip.
              intros m Hin. apply Hl0. by right.
        -- intros Ho m l0 Hin Hm. apply elem_of_cons in Hin as [[= -> ->]|Hin].
           ++ destruct (Hany l) as [->| ->]; rewrite Hl; [done|].
              by rewrite delete_delete_eq.
           ++ destruct (decide (l0 = l)) as [->|Hne].
              ** rewrite (Hrun Ho m l Hin Hm), Hl. by rewrite delete_delete_eq.
              ** rewrite <- (Hother l0 Hne). by apply (Hrun Ho m).
      * destruct H1 as [_ ->]. split_and!; [done|..].
        -- intros l0 Hl0. apply Hskip. intros m Hin. apply Hl0. by right.
        -- intros Ho m l0 Hin Hm. apply elem_of_cons in Hin as [[= -> ->]|Hin].
           ++ congruence.
           ++ by apply (Hrun Ho m).
    + simplify_eq. apply run_method_spec in H1. unfold run_method_post in H1.
      destruct (runs_method user_method method) eqn:Hr; [|by destruct H1].
      destruct H1 as (_ & Hother & Hl & _).
      split_and!.
      * intros l0. destruct (decide (l0 = l)) as [->|Hne]; [done|]. left. by apply Hother.
      * intros l0 Hl0. destruct (decide (l0 = l)) as [->|Hne]; [|by apply Hother].
        specialize (Hl0 method). rewrite Hr in Hl0. discriminate Hl0. left.
      * discriminate.
Qed.

(** Without a user method, the pairs that are not run can be left out. *)
Lemma run_methods_filter bm pairs : forall rs,
  run_methods bm None pairs rs = run_methods bm None (run_pairs None pairs) rs.
Proof.
  induction pairs as [|[method l] pairs IH]; intros rs; [done|].
  rewrite run_pairs_cons. simpl.
  destruct (runs_method None method) eqn:Hr.
  - simpl. destruct (run_method bm None method l rs) as [[u|e] rs1]; [apply IH|done].
  - unfold run_method. unfold runs_method in Hr. rewrite orb_false_r in Hr. rewrite Hr.
    apply IH.
Qed.

Lemma run_methods_bm bm bm' user_method pairs rs :
  bm_problem bm' = bm_problem bm -> bm_metrics bm' = bm_metrics bm ->
  run_methods bm' user_method pairs rs = run_methods bm user_method pairs rs.
Proof.
  intros Hp Hm. revert rs. induction pairs as [|[method l] pairs IH]; intros rs; [done|].
  simpl. unfold run_method, run_and_store. rewrite Hp, Hm.
  by repeat (case_match; simplify_eq; try rewrite IH).
Qed.

Lemma run_pairs_None pairs :
  run_pairs None pairs
  = filter (fun p => String.prefix "GRADIENT_DESCENT" (fst p) = true) pairs.
Proof.
  induction pairs as [|[method l] pairs IH]; [done|].
  rewrite run_pairs_cons, filter_cons, IH. unfold runs_method. simpl.
  rewrite orb_false_r. destruct (String.prefix "GRADIENT_DESCENT" method); by case_decide.
Qed.

Lemma all_pairs_only_gradient_descent bm :
  all_pairs (only_gradient_descent bm) = run_pairs None (all_pairs bm).
Proof.
  rewrite run_pairs_None. unfold all_pairs, only_gradient_descent. simpl.
  induction (bm_methods bm) as [|item items IH]; [done|].
  simpl. by rewrite list.filter_app, IH.
Qed.

Lemma run_inv bm user_method w store o rs :
  run bm user_method w store = (o, rs) ->
  exists o', run_methods bm user_method (all_pairs bm) (run_start w store) = (o', rs) /\
    match o' with
    | Ok _ => o = Ok (mkBenchmarkResult (bm_problem bm) (rs_methods rs) (bm_metrics bm)
                        (rs_data rs))
    | Raise e => o = Raise e
    end.
Proof.
  unfold run.
  destruct (run_methods bm user_method (all_pairs bm) (run_start w store)) as [[u|e] rs1];
    intros [= <- <-]; [by exists (Ok u)|by exists (Raise e)].
Qed.

(** The method list and the data of a returned result. *)
Lemma run_ok_methods bm user_method w store res rs :
  run bm user_method w store = (Ok res, rs) ->
  list_to_set (br_methods res) = dom (br_data res) /\
  br_methods res = map fst (run_pairs user_method (all_pairs bm)).
Proof.
  frame.
  intros H. apply run_inv in H as (o' & Hrun & Ho).
  destruct o' as [u|e]; [|discriminate]. injection Ho as ->. simpl.
  apply run_methods_ok in Hrun as [Hm Hd]. simpl in Hm, Hd.
  rewrite Hm, Hd, dom_empty_L. split; [|done]. set_solver.
Qed.

(** C5: when [run] completes, the set of the method names in [res.methods]
    is the key set of the per-problem data mapping, and [res.methods] lists
    exactly the methods that were run, in order. *)
Theorem run_methods_recorded bm user_method w store res rs :
  run bm user_method w store = (Ok res, rs) ->
  list_to_set (br_methods res) = dom (br_data res) /\
  br_methods res = map fst (run_pairs user_method (all_pairs bm)).
Proof. apply run_ok_methods. Qed.

(** Where an exception of [run] comes from: the turn of one method, after
    the turns of the methods before it have completed. *)
Lemma run_raise_first_failure bm user_method w store e rs :
  run bm user_method w store = (Raise e, rs) ->
  exists pre method l post rs_mid,
    all_pairs bm = (pre ++ (method, l) :: post)%list /\
    run_methods bm user_method pre (run_start w store) = (Ok tt, rs_mid) /\
    run_method bm user_method method l rs_mid = (Raise e, rs) /\
    runs_method user_method method = true /\
    rs_data rs = rs_data rs_mid /\
    dom (rs_data rs) = list_to_set (map fst (run_pairs user_method pre)) /\
    (forall l', l' <> l -> rs_store rs l' = rs_store rs_mid l').
Proof.
  frame.
  intros H. apply run_inv in H as (o' & Hrun & Ho).
  destruct o' as [u|e']; [discriminate|]. injection Ho as ->.
  apply run_methods_raise in Hrun as (pre & method & l & post & rs_mid & Hpairs & Hpre & Hm).
  exists pre, method, l, post, rs_mid. split_and!; try done.
  - apply run_method_spec in Hm. unfold run_method_post in Hm.
    destruct (runs_method user_method method); [done|]. by destruct Hm.
  - apply run_method_spec in Hm. unfold run_method_post in Hm.
    destruct (runs_method user_method method); [|by destruct Hm].
    by destruct Hm as (_ & _ & _ & ?).
  - apply run_method_spec in Hm. unfold run_method_post in Hm.
    apply run_methods_ok in Hpre as [_ Hd]. simpl in Hd.
    rewrite dom_empty_L in Hd.
    assert (Hdata : rs_data rs = rs_data rs_mid).
    { destruct (runs_method user_method method).
      - by destruct Hm as (_ & _ & _ & ?).
      - by destruct Hm as [_ ->]. }
    rewrite Hdata, Hd. set_solver.
  - apply run_method_spec in Hm. unfold run_method_post in Hm.
    destruct (runs_method user_method method); [by destruct Hm as (_ & ? & _)|].
    by destruct Hm.
Qed.

(** The turn of a method that is run, given the solver and the initial
    point of its call. *)
Lemma run_method_of_call bm user_method method l rs solver x_init :
  method_call bm user_method method (rs_store rs l) = Some (Ok (solver, x_init)) ->
  run_method bm user_method method l rs
  = run_and_store bm method solver x_init (delete "x_init" (rs_store rs l))
      (mkRunState (rs_world rs) (pop_x_init l (rs_store rs))
         (rs_methods rs ++ [method])%list (rs_data rs)).
Proof.
  unfold method_call, run_method.
  destruct (String.prefix "GRADIENT_DESCENT" method); simpl.
  - rewrite pop_x_init_same.
    destruct (GradientDescent _ _) as [s|e]; [|discriminate]. by intros [= -> ->].
  - destruct user_method as [s|]; [|discriminate].
    unfold pop_x_init.
    destruct (rs_store rs l !! "x_init") as [v|] eqn:Hx.
    + destruct (jnp_array v) as [x|e]; [|discriminate]. intros [= -> ->].
      simpl. by rewrite fn_lookup_insert.
    + intros [= -> ->]. by rewrite delete_id.
Qed.

Lemma method_call_runs bm user_method method params c :
  method_call bm user_method method params = Some c -> runs_method user_method method = true.
Proof.
  unfold method_call, runs_method.
  destruct (String.prefix "GRADIENT_DESCENT" method); [done|].
  by destruct user_method.
Qed.

(** The loop over the pairs stops at the first turn that raises. *)
Lemma run_methods_app_raise bm user_method method l post e rs' pre : forall rs u rs_mid,
  run_methods bm user_method pre rs = (Ok u, rs_mid) ->
  run_method bm user_method method l rs_mid = (Raise e, rs') ->
  run_methods bm user_method (pre ++ (method, l) :: post) rs = (Raise e, rs').
Proof.
  induction pre as [|[m l0] pre IH]; intros rs u rs_mid Hpre Hm;
    cbn [run_methods app] in Hpre |- *.
  - injection Hpre as <- <-. by rewrite Hm.
  - destruct (run_method bm user_method m l0 rs) as [[u1|e1] rs1]; [|discriminate].
    by apply (IH rs1 u rs_mid).
Qed.

(** C6 (as amended): when the methods configured before some method have
    been run to completion and the call of [__run_solver] for that method
    raises, [run] itself ends with that exception and returns no result.
    It ends in the world in which the failing call ended, so nothing is done
    for a later method.  The data mapping holds exactly the series of the
    methods run before; the failing run stores nothing (there is no entry
    under its name unless an earlier method had that name).  A parameter
    dict has lost at most its "x_init" entry, and a dict that is neither the
    failing method's nor that of a method run before is as it was when [run]
    was called. *)
Theorem run_raise_aborts bm user_method w store pre method l post rs_mid solver x_init e :
  all_pairs bm = (pre ++ (method, l) :: post)%list ->
  run_methods bm user_method pre (run_start w store) = (Ok tt, rs_mid) ->
  method_call bm user_method method (rs_store rs_mid l) = Some (Ok (solver, x_init)) ->
  fst (call_run_solver (bm_problem bm) solver x_init (bm_metrics bm)
         (delete "x_init" (rs_store rs_mid l)) (rs_world rs_mid)) = Raise e ->
  exists rs,
    run bm user_method w store = (Raise e, rs) /\
    rs_world rs = snd (call_run_solver (bm_problem bm) solver x_init (bm_metrics bm)
                         (delete "x_init" (rs_store rs_mid l)) (rs_world rs_mid)) /\
    rs_methods rs = (map fst (run_pairs user_method pre) ++ [method])%list /\
    rs_data rs = rs_data rs_mid /\
    dom (rs_data rs) = list_to_set (map fst (run_pairs user_method pre)) /\
    (method ∉ map fst (run_pairs user_method pre) -> rs_data rs !! method = None) /\
    (forall l', rs_store rs l' = store l' \/ rs_store rs l' = delete "x_init" (store l')) /\
    (forall l', l' <> l ->
       (forall m, (m, l') ∈ pre -> runs_method user_method m = false) ->
       rs_store rs l' = store l').
Proof.
  frame.
  intros Hpairs Hpre Hcall Hraise.
  pose proof (run_method_of_call _ _ _ _ _ _ _ Hcall) as Hturn.
  unfold run_and_store in Hturn. simpl in Hturn.
  destruct (call_run_solver (bm_problem bm) solver x_init (bm_metrics bm)
              (delete "x_init" (rs_store rs_mid l)) (rs_world rs_mid)) as [o w'] eqn:Hsolver.
  simpl in Hraise. subst o.
  pose proof (run_methods_app_raise _ _ _ _ post _ _ _ _ _ _ Hpre Hturn) as Hrun.
  pose proof (run_methods_ok _ _ _ _ _ _ Hpre) as [Hmethods Hdom].
  pose proof (run_methods_store _ _ _ _ _ _ Hpre) as (Hany & Hskip & _).
  simpl in Hmethods, Hdom, Hany, Hskip. rewrite dom_empty_L in Hdom.
  eexists. split.
  { unfold run. rewrite Hpairs, Hrun. reflexivity. }
  simpl. split_and!.
  - done.
  - by rewrite Hmethods.
  - done.
  - rewrite Hdom. set_solver.
  - intros Hnot. apply not_elem_of_dom. rewrite Hdom. set_solver.
  - intros l'. destruct (decide (l' = l)) as [->|Hne].
    + rewrite pop_x_init_same. destruct (Hany l) as [->| ->]; [by right|].
      right. by rewrite delete_delete_eq.
    + rewrite pop_x_init_other by done. apply Hany.
  - intros l' Hne Hnone. rewrite pop_x_init_other by done. by apply Hskip.
Qed.

(** C8 (as amended): [run] changes a parameter dict only by removing its
    "x_init" entry.  Every other entry of every dict is unchanged; the dict
    of a method that is not run (and that no method that is run shares) is
    unchanged; and when [run] completes, the dict of every method that was
    run is the dict it was constructed with, without "x_init". *)
Theorem run_store bm user_method w store o rs :
  run bm user_method w store = (o, rs) ->
  (forall l k, k <> "x_init" -> rs_store rs l !! k = store l !! k) /\
  (forall l,
     (forall method, (method, l) ∈ all_pairs bm -> runs_method user_method method = false) ->
     rs_store rs l = store l) /\
  (is_Ok o = true ->
   forall method l, (method, l) ∈ all_pairs bm -> runs_method user_method method = true ->
                    rs_store rs l = delete "x_init" (store l)).
Proof.
  intros H. apply run_inv in H as (o' & Hrun & Ho).
  apply run_methods_store in Hrun as (Hany & Hskip & Hrun). simpl in *.
  split_and!; [|done|].
  - intros l k Hk. destruct (Hany l) as [->| ->]; [done|]. by rewrite lookup_delete_ne.
  - intros Hok. apply Hrun. destruct o'; [done|]. by subst o.
Qed.

(** C10: without a user method, [run] skips every method whose name does
    not start with "GRADIENT_DESCENT": the run goes as if these methods were
    not configured (same result or exception, same final state), and a
    returned result has no such method in its method list or in its data. *)
Theorem run_skips_other_methods bm w store :
  run bm None w store = run (only_gradient_descent bm) None w store /\
  (forall res rs, run bm None w store = (Ok res, rs) ->
     forall method, String.prefix "GRADIENT_DESCENT" method = false ->
                    (method ∉ br_methods res) /\ br_data res !! method = None).
Proof.
  split.
  - unfold run. rewrite all_pairs_only_gradient_descent.
    rewrite (run_methods_bm bm (only_gradient_descent bm)) by done.
    by rewrite <- run_methods_filter.
  - intros res rs H method Hp.
    destruct (run_ok_methods _ _ _ _ _ _ H) as [Hset Hm].
    assert (Hnot : method ∉ br_methods res).
    { rewrite Hm. intros Hin. apply list_elem_of_fmap in Hin as ([m l] & -> & Hin).
      apply list_elem_of_filter in Hin as [Hr _]. simpl in Hr, Hp.
      unfold runs_method in Hr. rewrite Hp in Hr. discriminate. }
    split; [done|].
    apply not_elem_of_dom. rewrite <- Hset. by rewrite elem_of_list_to_set.
Qed.

(** ** Properties of [check_metric] and of the constructor *)

Lemma check_metric_true names :
  check_metric names = true <-> (forall name, name ∈ names -> name ∈ known_metrics).
Proof.
  unfold check_metric. rewrite forallb_forall. unfold in_list. split.
  - intros H name Hin. apply list_elem_of_In in Hin.
    by apply H, bool_decide_eq_true in Hin.
  - intros H name Hin. apply bool_decide_eq_true, H. by apply list_elem_of_In.
Qed.

(** C7: [check_metric] returns false for every list that contains a name
    outside the known set and true for every list of known names, whatever
    the order of the names and however often they occur; and when it returns
    false the constructor ends the process with exit code 1. *)
Theorem check_metric_fails_closed :
  (forall names name,
     name ∈ names -> name ∉ known_metrics -> check_metric names = false) /\
  (forall names,
     (forall name, name ∈ names -> name ∈ known_metrics) -> check_metric names = true) /\
  (forall names names',
     (forall name, name ∈ names <-> name ∈ names') ->
     check_metric names = check_metric names') /\
  (forall problem methods metrics,
     check_metric metrics = false -> init problem methods metrics = Exit 1).
Proof.
  split_and!.
  - intros names name Hin Hnot.
    destruct (check_metric names) eqn:Hc; [|done].
    rewrite check_metric_true in Hc. by apply Hc in Hin.
  - intros names. apply check_metric_true.
  - intros names names' Hsame.
    destruct (check_metric names) eqn:Hc, (check_metric names') eqn:Hc'; try done.
    + rewrite check_metric_true in Hc.
      assert (check_metric names' = true); [|congruence].
      apply check_metric_true. intros name Hin. by apply Hc, Hsame.
    + rewrite check_metric_true in Hc'.
      assert (check_metric names = true); [|congruence].
      apply check_metric_true. intros name Hin. by apply Hc', Hsame.
  - intros problem methods metrics Hc. unfold init. rewrite Hc. simpl.
    by destruct (check_method _).
Qed.

(** ** More on the loop: when it stops *)

Lemma emits_fst {A} (m : M A) Q (P : outcome A -> Prop) :
  emits m Q -> (forall w, P (fst (m w))) -> emits m (fun evs o => Q evs o /\ P o).
Proof.
  intros Hm HP w. destruct (Hm w) as (evs & Hlog & HQ). exists evs. auto.
Qed.

Lemma Qltb_lt x y : Qltb x y = true <-> (x < y)%Q.
Proof.
  unfold Qltb. rewrite negb_true_iff. split.
  - intros H. apply Qnot_le_lt. intros Hle. apply Qle_bool_iff in Hle. congruence.
  - intros H. destruct (Qle_bool y x) eqn:E; [|done].
    apply Qle_bool_iff in E. by apply Qlt_not_le in H.
Qed.

(** The answer of a stop check. *)
Lemma stop_check_fst solver tol i lv w :
  fst (stop_check solver tol i lv w)
  = if (0 <? i)%nat then stop_decision solver tol (lv_sol lv) (lv_state lv) else Ok false.
Proof.
  unfold stop_check, stop_decision. destruct (0 <? i)%nat; [|done].
  unfold bind, emit, lift, ret, raise.
  destruct (is_custom solver); simpl; [done|].
  destruct (error (lv_state lv)) as [err|]; simpl; [|done].
  by destruct (stop_criterion_err err tol) as [[|]|].
Qed.

(** The outcome of one pass through the body. *)
Lemma loop_body_fst problem solver metrics kwargs tol i lv w :
  match fst (loop_body problem solver metrics kwargs tol i lv w) with
  | Ok (Break lv') =>
      lv' = lv /\ 0 < i /\ stop_decision solver tol (lv_sol lv) (lv_state lv) = Ok true
  | Ok (Continue lv') =>
      (0 < i -> stop_decision solver tol (lv_sol lv) (lv_state lv) = Ok false) /\
      update solver (lv_sol lv) (lv_state lv) kwargs = Ok (lv_sol lv', lv_state lv')
  | Raise _ => True
  end.
Proof.
  pose proof (stop_check_fst solver tol i lv w) as Hs.
  unfold loop_body, bind, emit, lift, ret.
  destruct (stop_check solver tol i lv w) as [[stop|e] w1]; simpl in *; [|done].
  destruct stop; simpl.
  - destruct (0 <? i)%nat eqn:Hi; [|discriminate].
    apply Nat.ltb_lt in Hi. auto.
  - destruct (update solver (lv_sol lv) (lv_state lv) kwargs) as [[sol' st']|e]; simpl; [|done].
    destruct (record_metrics problem metrics sol' st' (lv_result lv)); simpl; [|done].
    split; [|done]. intros Hi. apply Nat.ltb_lt in Hi. by rewrite Hi in Hs.
Qed.

Lemma for_range_stop problem solver metrics kwargs tol n : forall i lv,
  emits (for_range problem solver metrics kwargs tol n i lv)
        (stop_post solver kwargs tol n i lv).
Proof.
  induction n as [|n IH]; intros i lv.
  - eapply emits_weaken; [apply emits_ret|].
    intros evs o [-> ->] lv' [= <-]. rewrite n_updates_nil. simpl.
    split_and!; [done|intros; lia|lia].
  - simpl. eapply emits_weaken.
    { apply emits_bind with
        (Q2 := fun c evs o =>
           match c with
           | Break lv' => evs = [] /\ o = Ok lv'
           | Continue lv' => stop_post solver kwargs tol n (S i) lv' evs o
           end).
      - apply emits_fst with
          (P := fun o =>
             match o with
             | Ok (Break lv') =>
                 lv' = lv /\ 0 < i /\
                 stop_decision solver tol (lv_sol lv) (lv_state lv) = Ok true
             | Ok (Continue lv') =>
                 (0 < i -> stop_decision solver tol (lv_sol lv) (lv_state lv) = Ok false) /\
                 update solver (lv_sol lv) (lv_state lv) kwargs = Ok (lv_sol lv', lv_state lv')
             | Raise _ => True
             end); [apply loop_body_emits|].
        apply (loop_body_fst problem solver metrics kwargs tol i lv).
      - intros [lv'|lv']; [apply IH|apply emits_ret]. }
    intros evs o [(e1 & c & e2 & -> & ((sc & Hsc & Hbody) & Hfst) & Hrest)|(e & _ & ->)];
      [|by intros lv' [=]].
    intros lv' ->.
    destruct Hbody as [(Hi & -> & [Ho|[e Ho]])|(-> & [[e Ho]|(sol' & st' & r' & Hup & Hrec & Ho)])];
      try discriminate; injection Ho as ->.
    + (* the loop breaks *)
      destruct Hrest as [-> [= <-]]. destruct Hfst as (_ & _ & Hstop).
      rewrite app_nil_r, (n_updates_check i sc Hsc). simpl.
      split_and!; [done|intros; lia|]. intros _. split; [lia|done].
    + (* a completed iteration, then the rest of the loop *)
      destruct Hfst as [Hnostop _].
      destruct (Hrest lv' eq_refl) as (Hsteps & Hbefore & Hend). simpl in *.
      rewrite !n_updates_app, (n_updates_check i sc Hsc), n_updates_update. simpl.
      rewrite Hup. split_and!; [done|..].
      * intros [|k] sol_k st_k Hk Hpos Hk_steps; simpl in Hk_steps.
        -- injection Hk_steps as <- <-. apply Hnostop. lia.
        -- rewrite Hup in Hk_steps. apply (Hbefore k); [lia|lia|done].
      * intros Hlt. destruct Hend as [_ Hstop]; [lia|]. split; [lia|done].
Qed.

Lemma stop_check_clock solver tol i lv w :
  w_clock (snd (stop_check solver tol i lv w)) = w_clock w.
Proof.
  unfold stop_check. destruct (0 <? i)%nat; [|done].
  unfold bind, emit, lift, ret, raise.
  destruct (is_custom solver); simpl.
  - by destruct (stop_criterion solver (lv_sol lv) (lv_state lv)).
  - destruct (error (lv_state lv)) as [err|]; simpl; [|done].
    by destruct (stop_criterion_err err tol) as [[|]|].
Qed.

Lemma loop_body_clock problem solver metrics kwargs tol i lv w :
  w_clock (snd (loop_body problem solver metrics kwargs tol i lv w)) = w_clock w.
Proof.
  pose proof (stop_check_clock solver tol i lv w) as Hc.
  unfold loop_body, bind, emit, lift, ret.
  destruct (stop_check solver tol i lv w) as [[stop|e] w1]; simpl in *; [|done].
  destruct stop; simpl; [done|].
  destruct (update solver (lv_sol lv) (lv_state lv) kwargs) as [[sol' st']|e]; simpl; [|done].
  by destruct (record_metrics problem metrics sol' st' (lv_result lv)).
Qed.

(** The loop does not read the clock. *)
Lemma for_range_clock problem solver metrics kwargs tol n : forall i lv w,
  w_clock (snd (for_range problem solver metrics kwargs tol n i lv w)) = w_clock w.
Proof.
  induction n as [|n IH]; intros i lv w; [done|].
  pose proof (loop_body_clock problem solver metrics kwargs tol i lv w) as Hc.
  simpl. unfold bind.
  destruct (loop_body problem solver metrics kwargs tol i lv w) as [[[lv'|lv']|e] w1];
    simpl in *; [|done..].
  by rewrite IH.
Qed.

(** A call of [__run_solver], given what is known of its loop: the events,
    the outcome, and the two readings of the clock. *)
Lemma run_solver_loop problem solver x_init metrics kwargs
    (Q : State -> list event -> outcome LoopVars -> Prop) :
  (forall st0,
     emits (for_range problem solver metrics kwargs (PyNum (1 # 1000)) (maxiter solver) 0
              (mkLoopVars (initial_sol solver x_init) st0 (initial_sol solver x_init) ∅))
           (Q st0)) ->
  forall w,
    let r := run_solver problem solver x_init metrics kwargs w in
    let evs := events_of (run_solver problem solver x_init metrics kwargs) w in
    (exists e, init_state solver x_init kwargs = Raise e /\ evs = [EvInit] /\ fst r = Raise e) \/
    (exists st0 loop_evs o_loop,
       init_state solver x_init kwargs = Ok st0 /\
       evs = EvInit :: EvPrint (PyNum (1 # 1000)) :: loop_evs /\
       Q st0 loop_evs o_loop /\
       match o_loop with
       | Raise e => fst r = Raise e
       | Ok lv =>
           let duration := (time_time (S (w_clock w)) - time_time (w_clock w))%Q in
           fst r = Ok (if in_list "time" metrics
                       then <["time" := [PyNum duration]]> (lv_result lv)
                       else lv_result lv) /\
           w_clock (snd r) = S (S (w_clock w))
       end).
Proof.
  intros HQ w r evs. subst r evs. unfold events_of, run_solver.
  unfold bind at 1 3. unfold time_ at 1 3.
  unfold bind at 1 3. unfold emit at 1 3.
  unfold bind at 1 3. unfold lift at 1 3.
  destruct (init_state solver x_init kwargs) as [st0|e]; simpl.
  - right.
    set (w1 := {| w_log := (w_log w ++ [EvInit]) ++ [EvPrint (PyNum (1 # 1000))];
                  w_clock := S (w_clock w) |}).
    set (lv0 := mkLoopVars (initial_sol solver x_init) st0 (initial_sol solver x_init) ∅).
    destruct (HQ st0 w1) as (loop_evs & Hlog & Hpost).
    pose proof (for_range_clock problem solver metrics kwargs (PyNum (1 # 1000))
                  (maxiter solver) 0 lv0 w1) as Hclock.
    fold lv0 in Hlog, Hpost.
    unfold bind, lift, emit, ret, time_. simpl. fold w1. fold lv0.
    destruct (for_range problem solver metrics kwargs (PyNum (1 # 1000))
                (maxiter solver) 0 lv0 w1) as [[lv|e] w2]; simpl in *.
    + exists st0, loop_evs, (Ok lv). split_and!; [done| |done|by rewrite Hclock|by rewrite Hclock].
      rewrite Hlog. unfold w1. simpl. rewrite <- !app_assoc. by rewrite drop_app_length.
    + exists st0, loop_evs, (Raise e). split_and!; [done| |done|done].
      rewrite Hlog. unfold w1. simpl. rewrite <- !app_assoc. by rewrite drop_app_length.
  - left. exists e. split_and!; [done| |done]. by rewrite drop_app_length.
Qed.

Lemma n_updates_run evs :
  n_updates (EvInit :: EvPrint (PyNum (1 # 1000)) :: evs) = n_updates evs.
Proof.
  change (EvInit :: EvPrint (PyNum (1 # 1000)) :: evs)
    with ([EvInit; EvPrint (PyNum (1 # 1000))] ++ evs)%list.
  by rewrite n_updates_app.
Qed.

(** X1: for a built-in (non-custom) solver, a run that returns after [n]
    updates has read [state.error] after each of the steps 1 .. n-1 and the
    comparison [stop_criterion(state.error, tol)] with the fixed tolerance
    0.001 gave [False] there; and, when it stopped before [maxiter], the
    error after step [n] is below 0.001 (with [n >= 1]).  So the loop stops
    at the first step at which the comparison [state.error < 0.001] holds.
    (The steps before are described by the answer of the comparison, which
    is [False] also for an error that is not a number.) *)
Theorem run_solver_builtin_stops_below_default_tolerance
    problem solver x_init metrics kwargs w result :
  is_custom solver = false ->
  fst (run_solver problem solver x_init metrics kwargs w) = Ok result ->
  let n := n_updates (events_of (run_solver problem solver x_init metrics kwargs) w) in
  exists st0,
    init_state solver x_init kwargs = Ok st0 /\
    (forall k sol_k st_k,
       0 < k < n ->
       after_steps solver kwargs k (initial_sol solver x_init) st0 = Ok (sol_k, st_k) ->
       exists err, error st_k = Some err /\
                   stop_criterion_err err (PyNum (1 # 1000)) = Ok false) /\
    (n < maxiter solver ->
       0 < n /\
       exists sol_n st_n err,
         after_steps solver kwargs n (initial_sol solver x_init) st0 = Ok (sol_n, st_n) /\
         error st_n = Some err /\ (err < 1 # 1000)%Q).
Proof.
  frame.
  intros Hb Hres n. subst n.
  destruct (run_solver_loop problem solver x_init metrics kwargs _
              (fun st0 => for_range_stop problem solver metrics kwargs (PyNum (1 # 1000))
                            (maxiter solver) 0 _) w)
    as [(e & _ & _ & Hr)|(st0 & loop_evs & o_loop & Hinit & -> & Hpost & Hr)].
  { rewrite Hres in Hr. discriminate. }
  destruct o_loop as [lv|e]; [|rewrite Hres in Hr; discriminate].
  rewrite n_updates_run.
  destruct (Hpost lv eq_refl) as (Hsteps & Hbefore & Hend). simpl in *.
  exists st0. split_and!; [done|..].
  - intros k sol_k st_k Hk Hk_steps.
    assert (Hd : stop_decision solver (PyNum (1 # 1000)) sol_k st_k = Ok false)
      by (apply (Hbefore k); [lia|lia|done]).
    unfold stop_decision in Hd. rewrite Hb in Hd.
    destruct (error st_k) as [err|]; [|discriminate].
    by exists err.
  - intros Hlt. destruct (Hend Hlt) as [Hpos Hstop]. split; [lia|].
    unfold stop_decision in Hstop. rewrite Hb in Hstop.
    destruct (error (lv_state lv)) as [err|] eqn:Herr; [|discriminate].
    exists (lv_sol lv), (lv_state lv), err. split_and!; [done|done|].
    apply Qltb_lt. by injection Hstop.
Qed.

(** X2: for a custom optimizer, a run that returns after [n] updates has
    asked [solver.stop_criterion] after each of the steps 1 .. n-1 and was
    told not to stop, and, when it stopped before [maxiter], was told to
    stop after step [n] (with [n >= 1]). *)
Theorem run_solver_custom_stops_at_stop_criterion
    problem solver x_init metrics kwargs w result :
  is_custom solver = true ->
  fst (run_solver problem solver x_init metrics kwargs w) = Ok result ->
  let n := n_updates (events_of (run_solver problem solver x_init metrics kwargs) w) in
  exists st0,
    init_state solver x_init kwargs = Ok st0 /\
    (forall k sol_k st_k,
       0 < k < n ->
       after_steps solver kwargs k (initial_sol solver x_init) st0 = Ok (sol_k, st_k) ->
       stop_criterion solver sol_k st_k = Ok false) /\
    (n < maxiter solver ->
       0 < n /\
       exists sol_n st_n,
         after_steps solver kwargs n (initial_sol solver x_init) st0 = Ok (sol_n, st_n) /\
         stop_criterion solver sol_n st_n = Ok true).
Proof.
  frame.
  intros Hc Hres n. subst n.
  destruct (run_solver_loop problem solver x_init metrics kwargs _
              (fun st0 => for_range_stop problem solver metrics kwargs (PyNum (1 # 1000))
                            (maxiter solver) 0 _) w)
    as [(e & _ & _ & Hr)|(st0 & loop_evs & o_loop & Hinit & -> & Hpost & Hr)].
  { rewrite Hres in Hr. discriminate. }
  destruct o_loop as [lv|e]; [|rewrite Hres in Hr; discriminate].
  rewrite n_updates_run.
  destruct (Hpost lv eq_refl) as (Hsteps & Hbefore & Hend). simpl in *.
  exists st0. split_and!; [done|..].
  - intros k sol_k st_k Hk Hk_steps.
    specialize (Hbefore k sol_k st_k). unfold stop_decision in Hbefore. rewrite Hc in Hbefore.
    apply Hbefore; [lia|lia|done].
  - intros Hlt. destruct (Hend Hlt) as [Hpos Hstop]. split; [lia|].
    unfold stop_decision in Hstop. rewrite Hc in Hstop.
    by exists (lv_sol lv), (lv_state lv).
Qed.

(** X3: a custom optimizer whose [stop_criterion] never says stop (like
    one that always returns [False]) is run for exactly [maxiter] updates
    whenever the run returns. *)
Theorem run_solver_custom_never_stopping_runs_maxiter
    problem solver x_init metrics kwargs w result :
  is_custom solver = true ->
  (forall sol st, stop_criterion solver sol st <> Ok true) ->
  fst (run_solver problem solver x_init metrics kwargs w) = Ok result ->
  n_updates (events_of (run_solver problem solver x_init metrics kwargs) w) = maxiter solver.
Proof.
  frame.
  intros Hc Hnever Hres.
  pose proof (emits_events_of _ _ w (run_solver_emits problem solver x_init metrics kwargs))
    as Hpost.
  destruct (run_solver_loop problem solver x_init metrics kwargs _
              (fun st0 => for_range_stop problem solver metrics kwargs (PyNum (1 # 1000))
                            (maxiter solver) 0 _) w)
    as [(e & _ & _ & Hr)|(st0 & loop_evs & o_loop & Hinit & Hevs & Hstop & Hr)].
  { rewrite Hres in Hr. discriminate. }
  destruct o_loop as [lv|e]; [|rewrite Hres in Hr; discriminate].
  destruct Hpost as [(e & _ & _ & Ho)|(st0' & loop_evs' & o_loop' & _ & Hevs' & (Hle & _) & _)].
  { rewrite Hres in Ho. discriminate. }
  rewrite Hevs in Hevs'. injection Hevs' as <-.
  rewrite Hevs, n_updates_run.
  destruct (Hstop lv eq_refl) as (_ & _ & Hend).
  destruct (decide (n_updates loop_evs < maxiter solver)) as [Hlt|Hge]; [|lia].
  destruct (Hend Hlt) as [_ Hd]. unfold stop_decision in Hd. rewrite Hc in Hd.
  by apply Hnever in Hd.
Qed.

(** The clock readings of a call: one when the call raises, two when it
    returns. *)
Lemma run_solver_clock problem solver x_init metrics kwargs w :
  w_clock (snd (run_solver problem solver x_init metrics kwargs w))
  = if is_Ok (fst (run_solver problem solver x_init metrics kwargs w))
    then S (S (w_clock w)) else S (w_clock w).
Proof.
  unfold run_solver, bind, time_, emit, lift, ret. simpl.
  destruct (init_state solver x_init kwargs) as [st0|e]; simpl; [|done].
  set (w1 := {| w_log := (w_log w ++ [EvInit]) ++ [EvPrint (PyNum (1 # 1000))];
                w_clock := S (w_clock w) |}).
  set (lv0 := mkLoopVars (initial_sol solver x_init) st0 (initial_sol solver x_init) ∅).
  pose proof (for_range_clock problem solver metrics kwargs (PyNum (1 # 1000))
                (maxiter solver) 0 lv0 w1) as Hclock.
  destruct (for_range problem solver metrics kwargs (PyNum (1 # 1000))
              (maxiter solver) 0 lv0 w1) as [[lv|e] w2]; simpl in *; by rewrite Hclock.
Qed.

(** X4: [__run_solver] reads the clock once before it calls [init_state]
    (the reading is taken also when [init_state] raises, and nothing else
    is done then) and once more only after the loop has completed: a call
    that raises, in [init_state] or anywhere in the loop, has read the clock
    just once, a call that returns has read it twice.  When "time" is
    requested, the result holds under "time" a one-element list with the
    second reading minus the first; this holds also when no iteration was
    run. *)
Theorem run_solver_time problem solver x_init metrics kwargs w :
  let r := run_solver problem solver x_init metrics kwargs w in
  let c := w_clock w in
  (forall e, init_state solver x_init kwargs = Raise e ->
     fst r = Raise e /\ w_clock (snd r) = S c /\
     events_of (run_solver problem solver x_init metrics kwargs) w = [EvInit]) /\
  (forall e, fst r = Raise e -> w_clock (snd r) = S c) /\
  (forall result, fst r = Ok result ->
     w_clock (snd r) = S (S c) /\
     ("time" ∈ metrics ->
      result !! "time" = Some [PyNum (time_time (S c) - time_time c)%Q])).
Proof.
  intros r c. subst r c.
  pose proof (run_solver_clock problem solver x_init metrics kwargs w) as Hclock.
  destruct (run_solver_loop problem solver x_init metrics kwargs _
              (fun st0 => for_range_stop problem solver metrics kwargs (PyNum (1 # 1000))
                            (maxiter solver) 0 _) w)
    as [(e & Hinit & Hevs & Hr)|(st0 & loop_evs & o_loop & Hinit & _ & _ & Hr)].
  - rewrite Hr in Hclock. simpl in Hclock. split_and!.
    + intros e' He'. rewrite Hinit in He'. injection He' as <-. done.
    + done.
    + intros result Hres. rewrite Hr in Hres. discriminate.
  - split_and!.
    + intros e He. rewrite Hinit in He. discriminate.
    + intros e He. rewrite He in Hclock. done.
    + intros result Hres. rewrite Hres in Hclock. split; [done|].
      destruct o_loop as [lv|e]; [|rewrite Hres in Hr; discriminate].
      destruct Hr as [Hr _].
      intros Htime. apply in_list_true in Htime.
      rewrite Hres in Hr. injection Hr as ->. rewrite Htime. by rewrite lookup_insert_eq.
Qed.

(** ** More on the series *)

Lemma record_nit_series r r' k l :
  record_nit r = Ok r' -> k <> "nit" -> series_is r k l -> series_is r' k l.
Proof.
  intros H Hne. unfold series_is. by rewrite (record_nit_lookup_ne r r' k H Hne).
Qed.

(** Split a successful recording into its four steps. *)
Ltac record_cases H :=
  unfold record_metrics in H;
  repeat match type of H with
         | context [in_list ?k ?m] => destruct (in_list k m) eqn:?
         end;
  repeat match type of H with
         | context [f ?p ?s] => destruct (f p s) eqn:?
         | context [record_nit ?r] => destruct (record_nit r) eqn:?
         | context [error ?st] => destruct (error st) eqn:?
         end;
  simplify_eq.

Ltac solve_series :=
  rewrite ?app_nil_r;
  repeat first
    [ assumption
    | apply record_series_ne; [done|]
    | eapply record_nit_series; [eassumption|done|]
    | apply record_series ].

Lemma record_metrics_history_x problem metrics sol state r r' l :
  record_metrics problem metrics sol state r = Ok r' ->
  series_is r "history_x" l ->
  series_is r' "history_x" (l ++ history_x_entry metrics sol).
Proof.
  intros H Hl. unfold history_x_entry. record_cases H; solve_series.
Qed.

Lemma record_metrics_history_f problem metrics sol state r r' l :
  record_metrics problem metrics sol state r = Ok r' ->
  series_is r "history_f" l ->
  series_is r' "history_f" (l ++ history_f_entry problem metrics sol) /\
  (in_list "history_f" metrics = true -> is_Ok (f problem sol) = true).
Proof.
  intros H Hl. unfold history_f_entry.
  record_cases H; (split; [|done]);
    repeat match goal with E : f problem sol = _ |- _ => rewrite E; clear E end;
    solve_series.
Qed.

Lemma record_metrics_errors problem metrics sol state r r' l :
  record_metrics problem metrics sol state r = Ok r' ->
  series_is r "errors" l ->
  series_is r' "errors" (l ++ errors_entry metrics state) /\
  (in_list "errors" metrics = true -> is_Some (error state)).
Proof.
  intros H Hl. unfold errors_entry.
  record_cases H; (split; [|by eauto]);
    repeat match goal with E : error state = _ |- _ => rewrite E; clear E end;
    solve_series.
Qed.

Lemma record_metrics_nit problem metrics sol state r r' c :
  record_metrics problem metrics sol state r = Ok r' ->
  nit_is r c ->
  nit_is r' (if in_list "nit" metrics then S c else c).
Proof.
  intros H Hc.
  assert (Hkeep : forall r1 r2 c', (r2 !! "nit" = r1 !! "nit") -> nit_is r1 c' -> nit_is r2 c').
  { intros r1 r2 c' Heq. unfold nit_is. by rewrite Heq. }
  record_cases H;
    repeat first
      [ assumption
      | (eapply Hkeep; [by rewrite record_lookup_ne|])
      | (eapply record_nit_count; [|eassumption]) ].
Qed.

Lemma record_metrics_other problem metrics sol state r r' k :
  record_metrics problem metrics sol state r = Ok r' ->
  k <> "history_x" -> k <> "history_f" -> k <> "nit" -> k <> "errors" ->
  r' !! k = r !! k.
Proof.
  intros H Hx Hf Hn He.
  record_cases H;
    repeat first
      [ reflexivity
      | rewrite record_lookup_ne by done
      | match goal with
        | E : record_nit ?r1 = Ok ?r2 |- context [?r2 !! k] =>
            rewrite (record_nit_lookup_ne r1 r2 k E Hn)
        end ].
Qed.

Lemma trajectory_length problem solver metrics kwargs m : forall sol state r p,
  iterations problem solver metrics kwargs m sol state r = Ok p ->
  length (trajectory solver kwargs m sol state) = m.
Proof.
  induction m as [|m IH]; intros sol state r p H; [done|]. simpl in *.
  destruct (update solver sol state kwargs) as [[sol1 st1]|e]; [|discriminate].
  destruct (record_metrics problem metrics sol1 st1 r) as [r1|e]; [|discriminate].
  simpl. by rewrite (IH _ _ _ _ H).
Qed.

Lemma trajectory_lookup solver kwargs m : forall sol state k p,
  trajectory solver kwargs m sol state !! k = Some p ->
  after_steps solver kwargs (S k) sol state = Ok p.
Proof.
  induction m as [|m IH]; intros sol state k p H; [done|]. simpl in *.
  destruct (update solver sol state kwargs) as [[sol1 st1]|e]; [|done].
  destruct k as [|k]; simpl in *.
  - by injection H as <-.
  - apply IH in H. simpl in H. exact H.
Qed.

(** The series after [m] completed iterations. *)
Lemma iterations_series problem solver metrics kwargs m :
  forall sol state r sol' state' r' xs fs es c,
  iterations problem solver metrics kwargs m sol state r = Ok (sol', state', r') ->
  series_is r "history_x" xs ->
  series_is r "history_f" fs ->
  series_is r "errors" es ->
  nit_is r c ->
  let traj := trajectory solver kwargs m sol state in
  series_is r' "history_x" (xs ++ flat_map (fun p => history_x_entry metrics (fst p)) traj) /\
  series_is r' "history_f" (fs ++ flat_map (fun p => history_f_entry problem metrics (fst p)) traj) /\
  series_is r' "errors" (es ++ flat_map (fun p => errors_entry metrics (snd p)) traj) /\
  nit_is r' (if in_list "nit" metrics then c + m else c) /\
  (in_list "history_f" metrics = true ->
   Forall (fun p => is_Ok (f problem (fst p)) = true) traj) /\
  (in_list "errors" metrics = true -> Forall (fun p => is_Some (error (snd p))) traj) /\
  (forall k, k <> "history_x" -> k <> "history_f" -> k <> "nit" -> k <> "errors" ->
             r' !! k = r !! k).
Proof.
  induction m as [|m IH]; intros sol state r sol' state' r' xs fs es c H Hx Hf He Hc; simpl in *.
  - simplify_eq. rewrite !app_nil_r, Nat.add_0_r.
    split_and!; try done. by destruct (in_list "nit" metrics).
  - destruct (update solver sol state kwargs) as [[sol1 st1]|e]; [|discriminate].
    destruct (record_metrics problem metrics sol1 st1 r) as [r1|e] eqn:Hrec; [|discriminate].
    pose proof (record_metrics_history_x _ _ _ _ _ _ _ Hrec Hx) as Hx1.
    destruct (record_metrics_history_f _ _ _ _ _ _ _ Hrec Hf) as [Hf1 Hfok].
    destruct (record_metrics_errors _ _ _ _ _ _ _ Hrec He) as [He1 Heok].
    pose proof (record_metrics_nit _ _ _ _ _ _ _ Hrec Hc) as Hc1.
    destruct (IH _ _ _ _ _ _ _ _ _ _ H Hx1 Hf1 He1 Hc1)
      as (Hx' & Hf' & He' & Hc' & Hfs & Hes & Hother).
    simpl. rewrite !app_assoc. split_and!; try done.
    + destruct (in_list "nit" metrics); [|done].
      by replace (c + S m) with (S c + m) by lia.
    + intros Hin. constructor; auto.
    + intros Hin. constructor; auto.
    + intros k ? ? ? ?. rewrite Hother by done.
      by apply (record_metrics_other _ _ _ _ _ _ _ Hrec).
Qed.

Lemma in_list_false k l : in_list k l = false -> k ∉ l.
Proof. unfold in_list. apply bool_decide_eq_false. Qed.

Lemma flat_map_history_x metrics (traj : list (pyval * State)) :
  flat_map (fun p => history_x_entry metrics (fst p)) traj
  = if in_list "history_x" metrics then map fst traj else [].
Proof.
  unfold history_x_entry. destruct (in_list "history_x" metrics).
  - induction traj as [|p traj IH]; simpl; [done|]. by rewrite IH.
  - by induction traj.
Qed.

Lemma flat_map_history_f problem metrics (traj : list (pyval * State)) :
  Forall (fun p => is_Ok (f problem (fst p)) = true) traj ->
  exists ys,
    flat_map (fun p => history_f_entry problem metrics (fst p)) traj
    = (if in_list "history_f" metrics then ys else []) /\
    Forall2 (fun p y => f problem (fst p) = Ok y) traj ys.
Proof.
  unfold history_f_entry. induction 1 as [|p traj Hp _ (ys & Heq & Hall)]; simpl.
  - exists []. split; [by destruct (in_list _ _)|constructor].
  - destruct (f problem (fst p)) as [y|e] eqn:Hy; [|discriminate].
    exists (y :: ys). split; [|by constructor].
    rewrite Heq. by destruct (in_list "history_f" metrics).
Qed.

Lemma flat_map_errors metrics (traj : list (pyval * State)) :
  Forall (fun p => is_Some (error (snd p))) traj ->
  exists es,
    flat_map (fun p => errors_entry metrics (snd p)) traj
    = (if in_list "errors" metrics then map PyNum es else []) /\
    Forall2 (fun p err => error (snd p) = Some err) traj es.
Proof.
  unfold errors_entry. induction 1 as [|p traj [err Hp] _ (es & Heq & Hall)]; simpl.
  - exists []. split; [by destruct (in_list _ _)|constructor].
  - exists (err :: es). split; [|by constructor].
    rewrite Hp, Heq. by destruct (in_list "errors" metrics).
Qed.

Lemma flat_map_history_f_off problem metrics (traj : list (pyval * State)) :
  in_list "history_f" metrics = false ->
  flat_map (fun p => history_f_entry problem metrics (fst p)) traj = [].
Proof.
  intros E. unfold history_f_entry. rewrite E. by induction traj.
Qed.

Lemma flat_map_errors_off metrics (traj : list (pyval * State)) :
  in_list "errors" metrics = false ->
  flat_map (fun p => errors_entry metrics (snd p)) traj = [].
Proof.
  intros E. unfold errors_entry. rewrite E. by induction traj.
Qed.

(** What a returned call has recorded, read off the loop. *)
Lemma run_solver_recorded problem solver x_init metrics kwargs w result :
  fst (run_solver problem solver x_init metrics kwargs w) = Ok result ->
  exists st0 sol' st' r',
    init_state solver x_init kwargs = Ok st0 /\
    iterations problem solver metrics kwargs
      (n_updates (events_of (run_solver problem solver x_init metrics kwargs) w))
      (initial_sol solver x_init) st0 ∅ = Ok (sol', st', r') /\
    (forall k, k <> "time" -> result !! k = r' !! k) /\
    (is_Some (result !! "time") -> "time" ∈ metrics).
Proof.
  intros Hres.
  pose proof (emits_events_of _ _ w (run_solver_emits problem solver x_init metrics kwargs))
    as [(e & _ & _ & Ho)|(st0 & loop_evs & o_loop & Hinit & -> & (_ & _ & _ & Hit) & Ho)].
  { rewrite Hres in Ho. discriminate. }
  rewrite Hres in Ho. destruct o_loop as [lv|e]; [|discriminate].
  destruct Ho as (duration & Ho). injection Ho as ->.
  rewrite n_updates_run. specialize (Hit lv eq_refl). simpl in Hit.
  exists st0, (lv_sol lv), (lv_state lv), (lv_result lv). split_and!; [done|done|..].
  - intros k Hk. destruct (in_list "time" metrics); [|done]. by rewrite lookup_insert_ne.
  - destruct (in_list "time" metrics) eqn:Ht.
    + intros _. unfold in_list in Ht. by apply bool_decide_eq_true in Ht.
    + intros Hsome.
      destruct (iterations_series _ _ _ _ _ _ _ _ _ _ _ [] [] [] 0 Hit
                  (series_is_empty _) (series_is_empty _) (series_is_empty _))
        as (_ & _ & _ & _ & _ & _ & Hother).
      { left. by rewrite lookup_empty. }
      rewrite Hother, lookup_empty in Hsome by done. by destruct Hsome.
Qed.

(** X5: when [__run_solver] returns after [n] completed iterations, each
    requested series on its own holds one entry per iteration, in order:
    "history_x" the solutions after the steps 1 .. n, "history_f" the
    objective at these solutions, "errors" the [error] of the states after
    these steps, and "nit" the count [n]; a series with no entry ([n = 0])
    is not in the result. *)
Theorem run_solver_series problem solver x_init metrics kwargs w result :
  fst (run_solver problem solver x_init metrics kwargs w) = Ok result ->
  let n := n_updates (events_of (run_solver problem solver x_init metrics kwargs) w) in
  exists st0,
    let traj := trajectory solver kwargs n (initial_sol solver x_init) st0 in
    init_state solver x_init kwargs = Ok st0 /\
    length traj = n /\
    (forall k p, traj !! k = Some p ->
                 after_steps solver kwargs (S k) (initial_sol solver x_init) st0 = Ok p) /\
    ("history_x" ∈ metrics -> series_is result "history_x" (map fst traj)) /\
    ("history_f" ∈ metrics ->
     exists ys, series_is result "history_f" ys /\
                Forall2 (fun p y => f problem (fst p) = Ok y) traj ys) /\
    ("errors" ∈ metrics ->
     exists es, series_is result "errors" (map PyNum es) /\
                Forall2 (fun p err => error (snd p) = Some err) traj es) /\
    ("nit" ∈ metrics -> nit_is result n).
Proof.
  intros Hres n. subst n.
  destruct (run_solver_recorded _ _ _ _ _ _ _ Hres) as (st0 & sol' & st' & r' & Hinit & Hit & Hsame & _).
  exists st0. simpl.
  destruct (iterations_series _ _ _ _ _ _ _ _ _ _ _ [] [] [] 0 Hit
              (series_is_empty _) (series_is_empty _) (series_is_empty _))
    as (Hx & Hf & He & Hn & Hfok & Heok & _).
  { left. by rewrite lookup_empty. }
  simpl in Hx, Hf, He, Hn.
  assert (Hser : forall k l, k <> "time" -> series_is r' k l -> series_is result k l).
  { intros k l Hk. unfold series_is. by rewrite Hsame. }
  split_and!.
  - done.
  - by apply (trajectory_length problem solver metrics kwargs _ _ _ _ _ Hit).
  - apply trajectory_lookup.
  - intros Hin. apply in_list_true in Hin. apply Hser; [done|].
    by rewrite flat_map_history_x, Hin in Hx.
  - intros Hin. apply in_list_true in Hin.
    destruct (flat_map_history_f problem metrics _ (Hfok Hin)) as (ys & Heq & Hall).
    exists ys. split; [|done]. apply Hser; [done|]. by rewrite Heq, Hin in Hf.
  - intros Hin. apply in_list_true in Hin.
    destruct (flat_map_errors metrics _ (Heok Hin)) as (es & Heq & Hall).
    exists es. split; [|done]. apply Hser; [done|]. by rewrite Heq, Hin in He.
  - intros Hin. apply in_list_true in Hin. rewrite Hin in Hn.
    unfold nit_is in *. by rewrite Hsame.
Qed.

(** X6: the result of [__run_solver] has entries only under names that
    were requested and that the loop serves: "history_x", "history_f",
    "nit", "errors" and "time".  A requested "nfev", "njev" or "nhev", or
    any other name, never gets an entry. *)
Theorem run_solver_stored_names problem solver x_init metrics kwargs w result name :
  fst (run_solver problem solver x_init metrics kwargs w) = Ok result ->
  is_Some (result !! name) ->
  name ∈ metrics /\ name ∈ stored_names.
Proof.
  frame.
  intros Hres Hsome.
  destruct (run_solver_recorded _ _ _ _ _ _ _ Hres)
    as (st0 & sol' & st' & r' & Hinit & Hit & Hsame & Htime).
  destruct (iterations_series _ _ _ _ _ _ _ _ _ _ _ [] [] [] 0 Hit
              (series_is_empty _) (series_is_empty _) (series_is_empty _))
    as (Hx & Hf & He & Hn & Hfok & Heok & Hother).
  { left. by rewrite lookup_empty. }
  simpl in Hx, Hf, He, Hn.
  assert (Hnone : forall k l, k <> "time" -> series_is r' k l -> l = [] -> result !! k = None).
  { intros k l Hk [[_ Hl]|[Hl _]] ->; [by rewrite Hsame|done]. }
  unfold stored_names.
  destruct (decide (name = "time")) as [->|Ht].
  { split; [by apply Htime|]. set_solver. }
  destruct (decide (name = "history_x")) as [->|Hnx].
  { split; [|set_solver].
    destruct (in_list "history_x" metrics) eqn:E;
      [unfold in_list in E; by apply bool_decide_eq_true in E|].
    rewrite flat_map_history_x, E in Hx.
    rewrite (Hnone _ _ Ht Hx eq_refl) in Hsome. by destruct Hsome. }
  destruct (decide (name = "history_f")) as [->|Hnf].
  { split; [|set_solver].
    destruct (in_list "history_f" metrics) eqn:E;
      [unfold in_list in E; by apply bool_decide_eq_true in E|].
    rewrite (flat_map_history_f_off problem metrics _ E) in Hf.
    rewrite (Hnone _ _ Ht Hf eq_refl) in Hsome. by destruct Hsome. }
  destruct (decide (name = "errors")) as [->|Hne].
  { split; [|set_solver].
    destruct (in_list "errors" metrics) eqn:E;
      [unfold in_list in E; by apply bool_decide_eq_true in E|].
    rewrite (flat_map_errors_off metrics _ E) in He.
    rewrite (Hnone _ _ Ht He eq_refl) in Hsome. by destruct Hsome. }
  destruct (decide (name = "nit")) as [->|Hnn].
  { split; [|set_solver].
    destruct (in_list "nit" metrics) eqn:E;
      [unfold in_list in E; by apply bool_decide_eq_true in E|].
    destruct Hn as [[_ Hn]|[Hn _]]; [|lia].
    rewrite Hsame, Hn in Hsome by done. by destruct Hsome. }
  rewrite Hsame, Hother, lookup_empty in Hsome by done. by destruct Hsome.
Qed.

(** X7: when "errors" is requested and the state after the first update
    has no [error] attribute (as the state of a custom optimizer may), the
    run raises [AttributeError] in its first iteration, provided the steps
    before that recording succeed. *)
Theorem run_solver_errors_without_error_attribute
    problem solver x_init metrics kwargs w st0 sol1 st1 :
  0 < maxiter solver ->
  init_state solver x_init kwargs = Ok st0 ->
  update solver (initial_sol solver x_init) st0 kwargs = Ok (sol1, st1) ->
  ("history_f" ∈ metrics -> is_Ok (f problem sol1) = true) ->
  "errors" ∈ metrics ->
  error st1 = None ->
  fst (run_solver problem solver x_init metrics kwargs w) = Raise AttributeError /\
  events_of (run_solver problem solver x_init metrics kwargs) w
  = [EvInit; EvPrint (PyNum (1 # 1000)); EvUpdate 0].
Proof.
  intros Hmax Hinit Hup Hf He Herr.
  apply in_list_true in He.
  assert (Hrec : record_metrics problem metrics sol1 st1 ∅ = Raise AttributeError).
  { unfold record_metrics. rewrite He, Herr.
    destruct (in_list "history_f" metrics) eqn:Ehf.
    - unfold in_list in Ehf. apply bool_decide_eq_true in Ehf. specialize (Hf Ehf).
      destruct (f problem sol1) as [y|e]; [|discriminate].
      destruct (in_list "nit" metrics); [|done].
      unfold record_nit. rewrite record_lookup_ne by done.
      destruct (in_list "history_x" metrics);
        [rewrite record_lookup_ne by done|]; by rewrite lookup_empty.
    - destruct (in_list "nit" metrics); [|done].
      unfold record_nit.
      destruct (in_list "history_x" metrics);
        [rewrite record_lookup_ne by done|]; by rewrite lookup_empty. }
  unfold events_of, run_solver, bind, time_, emit, lift, ret. simpl.
  rewrite Hinit. simpl.
  destruct (maxiter solver) as [|n]; [lia|]. simpl.
  unfold loop_body, stop_check, bind, emit, lift, ret. simpl.
  rewrite Hup. simpl. rewrite Hrec. simpl.
  split; [done|]. rewrite <- !app_assoc. by rewrite drop_app_length.
Qed.

(** ** More on [run] *)

Lemma size_list_to_set_le (l : list string) :
  size (list_to_set l : gset string) <= length l.
Proof.
  frame.
  induction l as [|x l IH].
  - rewrite list_to_set_nil, size_empty. simpl. lia.
  - rewrite list_to_set_cons. simpl length.
    destruct (decide (x ∈ l)) as [Hin|Hnot].
    + replace ({[x]} ∪ list_to_set l : gset string) with (list_to_set l : gset string)
        by set_solver.
      lia.
    + rewrite size_union by set_solver. rewrite size_singleton. lia.
Qed.

Lemma size_list_to_set_NoDup (l : list string) :
  size (list_to_set l : gset string) = length l <-> NoDup l.
Proof.
  frame.
  split; [|apply size_list_to_set].
  induction l as [|x l IH]; intros Hsize; [apply NoDup_nil_2|].
  rewrite list_to_set_cons in Hsize. simpl length in Hsize.
  destruct (decide (x ∈ l)) as [Hin|Hnot].
  - replace ({[x]} ∪ list_to_set l : gset string) with (list_to_set l : gset string) in Hsize
      by set_solver.
    pose proof (size_list_to_set_le l). lia.
  - rewrite size_union, size_singleton in Hsize by set_solver.
    apply NoDup_cons_2; [done|]. apply IH. lia.
Qed.

(** X8: a returned result never holds more data entries than it lists
    methods, and holds as many exactly when the names of the methods that
    were run are pairwise distinct: a method configured under a name already
    used is listed again, and its series replace those stored before. *)
Theorem run_duplicate_method_names bm user_method w store res rs :
  run bm user_method w store = (Ok res, rs) ->
  size (br_data res) <= length (br_methods res) /\
  (size (br_data res) = length (br_methods res) <-> NoDup (br_methods res)).
Proof.
  frame.
  intros H. destruct (run_ok_methods _ _ _ _ _ _ H) as [Hset _].
  rewrite <- (size_dom (D := gset string)), <- Hset.
  split; [apply size_list_to_set_le|apply size_list_to_set_NoDup].
Qed.

(** X9: after a completed run the parameter dict of every method that
    was run has no "x_init" entry left, so a later [run] on the same
    benchmark reads no initial point ([x_init = None]) for these methods.
    A later [run], with any user method and whether it returns or raises,
    leaves a dict as it is when every method configured on that dict that
    it runs was run by the first run already; so a second [run] with the
    same user method, or without one, changes no dict.  (A [run] with a
    user method after a [run] without one still removes "x_init" from the
    dicts of the methods that the first run skipped.) *)
Theorem run_consumes_x_init bm user_method w store res rs :
  run bm user_method w store = (Ok res, rs) ->
  (forall method l,
     (method, l) ∈ all_pairs bm -> runs_method user_method method = true ->
     get_x_init (rs_store rs l) = PyNone) /\
  (forall user_method2 w2 o2 rs2,
     run bm user_method2 w2 (rs_store rs) = (o2, rs2) ->
     forall l,
       (forall method, (method, l) ∈ all_pairs bm ->
                       runs_method user_method2 method = true ->
                       runs_method user_method method = true) ->
       rs_store rs2 l = rs_store rs l) /\
  (forall w2 o2 rs2,
     run bm user_method w2 (rs_store rs) = (o2, rs2) \/
     run bm None w2 (rs_store rs) = (o2, rs2) ->
     forall l, rs_store rs2 l = rs_store rs l).
Proof.
  frame.
  intros H. apply run_inv in H as (o' & Hrun & Ho).
  destruct o' as [u|e]; [|discriminate].
  apply run_methods_store in Hrun as (_ & _ & Hdel). simpl in Hdel.
  assert (Hgone : forall method l,
            (method, l) ∈ all_pairs bm -> runs_method user_method method = true ->
            rs_store rs l !! "x_init" = None).
  { intros method l Hin Hr. rewrite (Hdel eq_refl method l Hin Hr).
    apply lookup_delete_eq. }
  assert (Hsecond : forall user_method2 w2 o2 rs2,
            run bm user_method2 w2 (rs_store rs) = (o2, rs2) ->
            forall l,
              (forall method, (method, l) ∈ all_pairs bm ->
                              runs_method user_method2 method = true ->
                              runs_method user_method method = true) ->
              rs_store rs2 l = rs_store rs l).
  { intros user_method2 w2 o2 rs2 H2 l Hsub. apply run_inv in H2 as (o2' & Hrun2 & _).
    apply run_methods_store in Hrun2 as (Hany & Hskip & _). simpl in Hany, Hskip.
    destruct (decide (Exists (fun p => snd p = l /\ runs_method user_method2 (fst p) = true)
                             (all_pairs bm))) as [Hex|Hnex].
    - apply Exists_exists in Hex as ([method l'] & Hin & Hl & Hr). simpl in Hl, Hr. subst l'.
      apply list_elem_of_In in Hin.
      destruct (Hany l) as [->| ->]; [done|].
      apply delete_id. apply (Hgone method); [done|]. by apply Hsub.
    - apply Hskip. intros method Hin.
      destruct (runs_method user_method2 method) eqn:Hr; [|done].
      exfalso. apply Hnex. apply Exists_exists. exists (method, l).
      split; [by apply list_elem_of_In|done]. }
  split_and!.
  - intros method l Hin Hr. unfold get_x_init. by rewrite (Hgone method l Hin Hr).
  - exact Hsecond.
  - intros w2 o2 rs2 [H2|H2] l.
    + by apply (Hsecond user_method w2 o2 rs2 H2).
    + apply (Hsecond None w2 o2 rs2 H2). intros method _.
      unfold runs_method. destruct (String.prefix "GRADIENT_DESCENT" method); [done|].
      discriminate.
Qed.

(** X10: a method whose name starts with "GRADIENT_DESCENT" is always run
    with the built-in solver: when every configured method has such a name,
    [run] does the same with and without a user method. *)
Theorem run_ignores_user_method_for_built_in bm solver w store :
  Forall (fun p => String.prefix "GRADIENT_DESCENT" (fst p) = true) (all_pairs bm) ->
  run bm (Some solver) w store = run bm None w store.
Proof.
  intros Hall. unfold run.
  assert (Heq : forall rs,
            run_methods bm (Some solver) (all_pairs bm) rs
            = run_methods bm None (all_pairs bm) rs); [|by rewrite Heq].
  induction Hall as [|[method l] pairs Hp _ IH]; intros rs; [done|].
  simpl in *. unfold run_method. rewrite Hp.
  destruct (GradientDescent (bm_problem bm) _) as [s|e]; [|done].
  by destruct (run_and_store bm method s _ _ _) as [[u|e] rs1].
Qed.

(** ** From [run] to [__run_solver] *)

Lemma call_run_solver_ok problem solver x_init metrics params w sub w' :
  call_run_solver problem solver x_init metrics params w = (Ok sub, w') ->
  (params !! "self" = None /\ params !! "solver" = None /\ params !! "metrics" = None) /\
  run_solver problem solver x_init metrics params w = (Ok sub, w').
Proof.
  unfold call_run_solver.
  destruct (params !! "self") as [v|]; [by intros [=]|].
  destruct (params !! "solver") as [v|]; [by intros [=]|].
  destruct (params !! "x_init") as [v|]; [by intros [=]|].
  destruct (params !! "metrics") as [v|]; [by intros [=]|].
  rewrite !bool_decide_eq_false_2 by (by intros [? ?]). simpl. done.
Qed.

(** One completed turn of the inner loop of [run]. *)
Lemma run_method_call bm user_method method l rs u rs' :
  run_method bm user_method method l rs = (Ok u, rs') ->
  runs_method user_method method = true ->
  exists solver x_init sub,
    method_call bm user_method method (rs_store rs l) = Some (Ok (solver, x_init)) /\
    call_run_solver (bm_problem bm) solver x_init (bm_metrics bm)
      (delete "x_init" (rs_store rs l)) (rs_world rs) = (Ok sub, rs_world rs') /\
    rs_data rs' = <[method := sub]> (rs_data rs).
Proof.
  unfold run_method, method_call, runs_method.
  destruct (String.prefix "GRADIENT_DESCENT" method); simpl.
  - rewrite pop_x_init_same.
    destruct (GradientDescent _ _) as [solver|e]; [|discriminate].
    unfold run_and_store. simpl.
    destruct (call_run_solver _ _ _ _ _ _) as [[sub|e] w'] eqn:Hcall; [|discriminate].
    intros [= <- <-] _. by exists solver, (get_x_init (rs_store rs l)), sub.
  - destruct user_method as [solver|]; [|discriminate].
    destruct (rs_store rs l !! "x_init") as [v|] eqn:Hx.
    + destruct (jnp_array v) as [x_init|e]; [|discriminate].
      simpl. rewrite pop_x_init_same. unfold run_and_store. simpl.
      destruct (call_run_solver _ _ _ _ _ _) as [[sub|e] w'] eqn:Hcall; [|discriminate].
      intros [= <- <-] _. by exists solver, x_init, sub.
    + rewrite delete_id by done. unfold run_and_store. simpl.
      destruct (call_run_solver _ _ _ _ _ _) as [[sub|e] w'] eqn:Hcall; [|discriminate].
      intros [= <- <-] _. by exists solver, PyNone, sub.
Qed.

(** Where the data after a completed pass over [pairs] come from. *)
Lemma run_methods_data bm user_method pairs : forall rs u rs',
  run_methods bm user_method pairs rs = (Ok u, rs') ->
  forall method sub,
    rs_data rs' !! method = Some sub ->
    rs_data rs !! method = Some sub \/
    exists l params solver x_init w1 w2,
      (method, l) ∈ pairs /\
      (params = rs_store rs l \/ params = delete "x_init" (rs_store rs l)) /\
      method_call bm user_method method params = Some (Ok (solver, x_init)) /\
      call_run_solver (bm_problem bm) solver x_init (bm_metrics bm)
        (delete "x_init" (rs_store rs l)) w1 = (Ok sub, w2).
Proof.
  induction pairs as [|[m l] pairs IH]; intros rs u rs' H method sub Hsub; simpl in H.
  - simplify_eq. by left.
  - destruct (run_method bm user_method m l rs) as [[u1|e] rs1] eqn:H1; [|discriminate].
    pose proof (run_method_spec _ _ _ _ _ _ _ H1) as Hspec. unfold run_method_post in Hspec.
    destruct (runs_method user_method m) eqn:Hr.
    + destruct Hspec as (_ & Hother & _ & Hl & _).
      destruct (run_method_call _ _ _ _ _ _ _ H1 Hr)
        as (solver1 & x1 & sub1 & Hcall1 & Hrun1 & Hdata1).
      destruct (IH rs1 u rs' H method sub Hsub)
        as [Hold|(l0 & params & solver & x_init & w1 & w2 & Hin & Hp & Hcall & Hrun)].
      * rewrite Hdata1 in Hold. destruct (decide (method = m)) as [->|Hne].
        -- rewrite lookup_insert_eq in Hold. injection Hold as ->.
           right. exists l, (rs_store rs l), solver1, x1, (rs_world rs), (rs_world rs1).
           split_and!; [left|by left|done|done].
        -- rewrite lookup_insert_ne in Hold by done. by left.
      * right. exists l0, params, solver, x_init, w1, w2.
        destruct (decide (l0 = l)) as [->|Hne].
        -- rewrite Hl in Hp, Hrun. rewrite delete_delete_eq in Hp, Hrun.
           split_and!; [by right| |done|done]. right. by destruct Hp.
        -- rewrite (Hother l0 Hne) in Hp, Hrun. split_and!; [by right|done..].
    + destruct Hspec as [_ ->].
      destruct (IH rs u rs' H method sub Hsub)
        as [Hold|(l0 & params & solver & x_init & w1 & w2 & Hin & Hp & Hcall & Hrun)];
        [by left|].
      right. exists l0, params, solver, x_init, w1, w2. split_and!; [by right|done..].
Qed.

(** X11: every series that a returned result holds for a method is what
    one call of [__run_solver] returned: a call for a configuration of that
    name, with the benchmark's metrics, with the configured parameters
    without "x_init" as keyword arguments (among them no "self", "solver" or
    "metrics"), and with the solver and the initial point taken from the
    parameter dict as it was then: as configured, or without "x_init" when
    an earlier turn on the same dict had removed it. *)
Theorem run_data_from_run_solver bm user_method w store res rs method sub :
  run bm user_method w store = (Ok res, rs) ->
  br_data res !! method = Some sub ->
  exists l params solver x_init w1,
    (method, l) ∈ all_pairs bm /\
    (params = store l \/ params = delete "x_init" (store l)) /\
    method_call bm user_method method params = Some (Ok (solver, x_init)) /\
    (let kwargs := delete "x_init" (store l) in
     kwargs !! "self" = None /\ kwargs !! "solver" = None /\ kwargs !! "metrics" = None /\
     fst (run_solver (bm_problem bm) solver x_init (bm_metrics bm) kwargs w1) = Ok sub).
Proof.
  intros H Hsub. apply run_inv in H as (o' & Hrun & Ho).
  destruct o' as [u|e]; [|discriminate]. injection Ho as ->. simpl in Hsub.
  destruct (run_methods_data _ _ _ _ _ _ Hrun method sub Hsub)
    as [Hold|(l & params & solver & x_init & w1 & w2 & Hin & Hp & Hcall & Hcalled)].
  { simpl in Hold. by rewrite lookup_empty in Hold. }
  simpl in Hp, Hcalled.
  apply call_run_solver_ok in Hcalled as [(Hself & Hsolver & Hmetrics) Hrs].
  exists l, params, solver, x_init, w1.
  split; [done|]. split; [done|]. split; [done|].
  cbv zeta. by rewrite Hrs.
Qed.

End Runner.


Arguments time_ time_time _ : assert.
Arguments tolerance kwargs : assert.
Arguments stop_check {State} error solver tol i lv _.
Arguments loop_body {State} error problem solver metrics kwargs tol i lv _.
Arguments for_range {State} error problem solver metrics kwargs tol n i lv _.
Arguments initial_sol {State} solver x_init.
Arguments run_solver {State} error time_time problem solver x_init metrics kwargs _.
Arguments after_steps {State} solver kwargs k sol state.
Arguments iterations {State} error problem solver metrics kwargs m sol state result.
Arguments call_run_solver {State} error time_time problem solver x_init metrics params _.
Arguments run_and_store {State} error time_time bm method solver x_init params rs.
Arguments run_method {State} error time_time jnp_array GradientDescent bm user_method method l rs.
Arguments run_methods {State} error time_time jnp_array GradientDescent bm user_method pairs rs.
Arguments run {State} error time_time jnp_array GradientDescent bm user_method w store.
Arguments runs_method {State} user_method method.
Arguments run_pairs {State} user_method pairs.

Arguments stop_decision {State} error solver tol sol state.
Arguments trajectory {State} solver kwargs m sol state.
Arguments errors_entry {State} error metrics state.
Arguments method_call {State} jnp_array GradientDescent bm user_method method params.

(** ** Worked examples *)

Local Abbreviation ex_run_solver := (run_solver ex_error ex_time ex_problem).
Local Abbreviation ex_run := (run ex_error ex_time ex_jnp_array ex_GradientDescent).

Lemma ex_metrics_history_x : "history_x" ∈ ex_metrics.
Proof. unfold ex_metrics. set_solver. Qed.

Lemma ex_metrics_history_f : "history_f" ∈ ex_metrics.
Proof. unfold ex_metrics. set_solver. Qed.

Lemma ex_metrics_nit : "nit" ∈ ex_metrics.
Proof. unfold ex_metrics. set_solver. Qed.

(** C1 (what the code does): the tolerance of the loop is 0.001 whatever
    the keyword parameters say.  With "tol" configured as 0.01 and a solver
    whose error is 0.005 after every step, the comparison with the
    configured tolerance holds after the first step, yet the loop prints
    0.001, never breaks, and performs all three updates. *)
Theorem run_solver_ignores_configured_tolerance :
  (forall kwargs, tolerance kwargs = Ok (PyNum (1 # 1000))) /\
  ex_kwargs !! "tol" = Some (PyNum (1 # 100)) /\
  after_steps (ex_gd 3) ex_kwargs 1 (PyArr [1%Q; 1%Q]) (Some 1%Q)
    = Ok (PyArr [(1 # 2)%Q; (1 # 2)%Q], Some (5 # 1000)%Q) /\
  stop_criterion_err (5 # 1000) (PyNum (1 # 100)) = Ok true /\
  events_of (ex_run_solver (ex_gd 3) (PyArr [1%Q; 1%Q]) ex_metrics ex_kwargs) ex_world
    = [EvInit; EvPrint (PyNum (1 # 1000)); EvUpdate 0; EvErrorCheck 1; EvUpdate 1;
       EvErrorCheck 2; EvUpdate 2].
Proof.
  split_and!.
  - apply tolerance_default.
  - vm_compute. reflexivity.
  - vm_compute. reflexivity.
  - vm_compute. reflexivity.
  - vm_compute. reflexivity.
Qed.

(** The custom optimizer of the examples asks to stop at once: the loop
    still performs the update of iteration 0 before it first asks. *)
Lemma run_solver_no_stop_check_before_first_update_witness :
  let evs := events_of (ex_run_solver ex_custom PyNone ex_metrics ex_kwargs) ex_world in
  evs = [EvInit; EvPrint (PyNum (1 # 1000)); EvUpdate 0; EvStopCriterion 1] /\
  (EvStopCriterion 0 ∉ evs) /\ 1 <= n_updates evs.
Proof.
  intros evs.
  destruct (run_solver_no_stop_check_before_first_update _ ex_error ex_time ex_problem
              ex_custom PyNone ex_metrics ex_kwargs ex_world) as ((_ & Hno) & _ & Hone).
  split; [vm_compute; reflexivity|]. split; [exact Hno|].
  apply Hone; [vm_compute; reflexivity|simpl; lia].
Defined.

(** C4 (counterexample to the claim as stated): with [maxiter = 0] no
    iteration completes and the returned dict has no "history_x" series at
    all, although it was requested. *)
Lemma run_solver_history_absent_without_iterations :
  ~ (forall result,
       fst (ex_run_solver (ex_gd 0) (PyArr [1%Q; 1%Q]) ex_metrics ex_kwargs ex_world)
         = Ok result ->
       let n := n_updates (events_of (ex_run_solver (ex_gd 0) (PyArr [1%Q; 1%Q])
                                        ex_metrics ex_kwargs) ex_world) in
       exists xs fs,
         result !! "history_x" = Some xs /\ result !! "history_f" = Some fs /\
         length xs = n /\ length fs = n).
Proof.
  intros H.
  destruct (H ∅) as (xs & fs & Hx & _).
  - vm_compute. reflexivity.
  - rewrite lookup_empty in Hx. discriminate.
Qed.

Lemma run_solver_history_witness :
  exists result xs fs,
    fst (ex_run_solver (ex_gd 3) (PyArr [1%Q; 1%Q]) ex_metrics ex_kwargs ex_world) = Ok result /\
    result !! "history_x" = Some xs /\ length xs = 3 /\
    result !! "history_f" = Some fs /\ length fs = 3 /\
    result !! "nit" = Some [PyInt 3].
Proof.
  destruct (fst (ex_run_solver (ex_gd 3) (PyArr [1%Q; 1%Q]) ex_metrics ex_kwargs ex_world))
    as [result|e] eqn:E; [|vm_compute in E; discriminate].
  destruct (run_solver_history _ ex_error ex_time ex_problem (ex_gd 3) (PyArr [1%Q; 1%Q])
              ex_metrics ex_kwargs ex_world result E
              ex_metrics_history_x ex_metrics_history_f)
    as (st0 & xs & fs & _ & _ & Hlx & Hlf & _ & Hpos & _).
  assert (Hn : n_updates (events_of (ex_run_solver (ex_gd 3) (PyArr [1%Q; 1%Q])
                                       ex_metrics ex_kwargs) ex_world) = 3)
    by (vm_compute; reflexivity).
  rewrite Hn in Hlx, Hlf, Hpos.
  destruct Hpos as (Hx & Hf & Hnit); [lia|].
  exists result, xs, fs. split_and!; try done. apply Hnit, ex_metrics_nit.
Defined.

Lemma run_methods_recorded_witness :
  exists res rs,
    ex_run ex_bm None ex_world ex_store = (Ok res, rs) /\
    list_to_set (br_methods res) = dom (br_data res) /\
    br_methods res = ["GRADIENT_DESCENT_const_step"].
Proof.
  destruct (ex_run ex_bm None ex_world ex_store) as [[res|e] rs] eqn:E;
    [|vm_compute in E; discriminate].
  destruct (run_methods_recorded _ ex_error ex_time ex_jnp_array ex_GradientDescent
              ex_bm None ex_world ex_store res rs E) as [Hset Hm].
  exists res, rs. split; [reflexivity|]. split; [exact Hset|].
  rewrite Hm. vm_compute. reflexivity.
Defined.

(** C6 (counterexample to the claim as stated): the first method's run
    raises in its first step.  [run] ends with that exception; the second
    method, whose run alone completes, is never started: its series is not
    in the data, its parameter dict still has "x_init", and the log shows
    the events of the first method only. *)
Lemma run_raise_stops_later_methods :
  let r := ex_run ex_bm_raise None ex_world ex_store in
  is_Ok (fst (ex_run ex_bm_second None ex_world ex_store)) = true /\
  fst r = Raise (SolverError 1) /\
  rs_data (snd r) !! "GRADIENT_DESCENT_const_step" = None /\
  rs_store (snd r) 0 = ex_params /\
  w_log (rs_world (snd r)) = [EvInit; EvPrint (PyNum (1 # 1000)); EvUpdate 0].
Proof.
  intros r. subst r. split_and!; vm_compute; reflexivity.
Qed.

(** The first method completes, the second raises in its first step: [run]
    ends with that exception, with the series of the first method only, and
    the dict of the third method as it was. *)
Lemma run_raise_aborts_witness :
  exists rs,
    ex_run ex_bm_raise_later None ex_world ex_store = (Raise (SolverError 1), rs) /\
    rs_methods rs = ["GRADIENT_DESCENT_const_step"; "GRADIENT_DESCENT_bad"] /\
    dom (rs_data rs) = {["GRADIENT_DESCENT_const_step"]} /\
    rs_data rs !! "GRADIENT_DESCENT_bad" = None /\
    rs_store rs 2 = ex_store 2.
Proof.
  destruct (run_raise_aborts _ ex_error ex_time ex_jnp_array ex_GradientDescent
              ex_bm_raise_later None ex_world ex_store
              [("GRADIENT_DESCENT_const_step", 0)] "GRADIENT_DESCENT_bad" 1
              [("GRADIENT_DESCENT_later", 2)]
              (snd (run_methods ex_error ex_time ex_jnp_array ex_GradientDescent
                      ex_bm_raise_later None [("GRADIENT_DESCENT_const_step", 0)]
                      (run_start ex_world ex_store)))
              (ex_gd 3) (PyArr [1%Q; 1%Q]) (SolverError 1))
    as (rs & Hrun & _ & Hm & _ & Hdom & Hnone & _ & Hstore).
  - reflexivity.
  - vm_compute. reflexivity.
  - vm_compute. reflexivity.
  - vm_compute. reflexivity.
  - exists rs. split; [exact Hrun|]. split; [exact Hm|]. split_and!.
    + rewrite Hdom. change (list_to_set ["GRADIENT_DESCENT_const_step"] =@{gset string}
                              {["GRADIENT_DESCENT_const_step"]}).
      set_solver.
    + apply Hnone. intros Hin. apply elem_of_cons in Hin as [Heq|Hin]; [discriminate Heq|].
      by apply elem_of_nil in Hin.
    + apply Hstore; [discriminate|]. intros m Hin.
      apply elem_of_cons in Hin as [Heq|Hin]; [discriminate Heq|].
      by apply elem_of_nil in Hin.
Defined.

(** C8 (counterexample to the claim as stated): after a completed run
    the parameter dict of the method that was run has lost its "x_init"
    entry. *)
Lemma run_removes_x_init :
  let r := ex_run ex_bm None ex_world ex_store in
  is_Ok (fst r) = true /\
  ex_store 0 !! "x_init" = Some (PyArr [1%Q; 1%Q]) /\
  rs_store (snd r) 0 !! "x_init" = None /\
  ~ (forall l, rs_store (snd r) l = ex_store l).
Proof.
  intros r. subst r. split_and!; try (vm_compute; reflexivity).
  intros H. specialize (H 0).
  apply (f_equal (fun m : Params => m !! "x_init")) in H.
  vm_compute in H. discriminate.
Qed.

Lemma run_store_witness :
  exists o rs,
    ex_run ex_bm None ex_world ex_store = (o, rs) /\
    rs_store rs 0 !! "tol" = Some (PyNum (1 # 100)) /\
    rs_store rs 2 = ex_store 2 /\
    rs_store rs 0 = delete "x_init" (ex_store 0).
Proof.
  destruct (ex_run ex_bm None ex_world ex_store) as [o rs] eqn:E.
  destruct (run_store _ ex_error ex_time ex_jnp_array ex_GradientDescent
              ex_bm None ex_world ex_store o rs E) as (Hother & Hskip & Hrun).
  exists o, rs. split; [reflexivity|]. split_and!.
  - rewrite Hother by discriminate. vm_compute. reflexivity.
  - apply Hskip. intros method Hin.
    change (all_pairs ex_bm)
      with [("GRADIENT_DESCENT_const_step", 0); ("MY_METHOD", 2)] in Hin.
    apply elem_of_cons in Hin as [Heq|Hin]; [discriminate Heq|].
    apply elem_of_cons in Hin as [Heq|Hin]; [injection Heq as ->; reflexivity|].
    by apply elem_of_nil in Hin.
  - apply (Hrun) with (method := "GRADIENT_DESCENT_const_step").
    + assert (Ho : is_Ok (fst (ex_run ex_bm None ex_world ex_store)) = true)
        by (vm_compute; reflexivity).
      rewrite E in Ho. exact Ho.
    + change (all_pairs ex_bm)
        with [("GRADIENT_DESCENT_const_step", 0); ("MY_METHOD", 2)].
      left.
    + reflexivity.
Defined.

Lemma run_skips_other_methods_witness :
  exists res rs,
    ex_run ex_bm None ex_world ex_store = (Ok res, rs) /\
    ex_run ex_bm None ex_world ex_store
      = ex_run (only_gradient_descent ex_bm) None ex_world ex_store /\
    ("MY_METHOD" ∉ br_methods res) /\ br_data res !! "MY_METHOD" = None.
Proof.
  destruct (run_skips_other_methods _ ex_error ex_time ex_jnp_array ex_GradientDescent
              ex_bm ex_world ex_store) as [Hsame Hskip].
  destruct (ex_run ex_bm None ex_world ex_store) as [[res|e] rs] eqn:E;
    [|vm_compute in E; discriminate].
  exists res, rs. split; [reflexivity|]. split; [exact Hsame|].
  apply (Hskip res rs eq_refl). vm_compute. reflexivity.
Defined.

Lemma check_metric_fails_closed_witness :
  check_metric ex_known_metrics ["nit"; "f"] = false /\
  check_metric ex_known_metrics ["nit"; "time"; "nit"] = true /\
  check_metric ex_known_metrics ["time"; "nit"] = check_metric ex_known_metrics ["nit"; "time"; "nit"] /\
  init ex_check_method ["GRADIENT_DESCENT"] ex_known_metrics ex_problem
    [[("GRADIENT_DESCENT_const_step", 0)]] ["nit"; "f"] = Exit 1.
Proof.
  destruct (check_metric_fails_closed ex_check_method ["GRADIENT_DESCENT"] ex_known_metrics)
    as (Hreject & Haccept & Hsame & Hexit).
  split_and!.
  - apply (Hreject _ "f").
    + set_solver.
    + unfold ex_known_metrics. intros Hin.
      repeat (apply elem_of_cons in Hin as [Hin|Hin]; [discriminate|]).
      by apply elem_of_nil in Hin.
  - apply Haccept. intros name Hin. unfold ex_known_metrics. set_solver.
  - apply Hsame. intros name. set_solver.
  - apply Hexit. apply (Hreject _ "f").
    + set_solver.
    + unfold ex_known_metrics. intros Hin.
      repeat (apply elem_of_cons in Hin as [Hin|Hin]; [discriminate|]).
      by apply elem_of_nil in Hin.
Defined.

(** ** Worked examples for the stop condition, the series and [run] *)

Lemma ex_metrics_all_errors : "errors" ∈ ex_metrics_all.
Proof. unfold ex_metrics_all. set_solver. Qed.

Lemma ex_metrics_all_time : "time" ∈ ex_metrics_all.
Proof. unfold ex_metrics_all. set_solver. Qed.

Lemma ex_metrics_all_history_x : "history_x" ∈ ex_metrics_all.
Proof. unfold ex_metrics_all. set_solver. Qed.

Lemma ex_metrics_all_nit : "nit" ∈ ex_metrics_all.
Proof. unfold ex_metrics_all. set_solver. Qed.

(** The error of the decaying solver is 1/1000 after three steps, which is
    not below the tolerance, and 1/10000 after four: the run stops there,
    before [maxiter = 10]. *)
Lemma run_solver_builtin_stops_below_default_tolerance_witness :
  n_updates (events_of (ex_run_solver (ex_gd_decay 10) (PyArr [1%Q; 1%Q])
                          ex_metrics ex_kwargs) ex_world) = 4 /\
  (exists err, ex_error (Some (1 # 1000)%Q) = Some err /\
               stop_criterion_err err (PyNum (1 # 1000)) = Ok false) /\
  exists sol st err,
    after_steps (ex_gd_decay 10) ex_kwargs 4 (PyArr [1%Q; 1%Q]) (Some 1%Q) = Ok (sol, st) /\
    ex_error st = Some err /\ (err < 1 # 1000)%Q.
Proof.
  assert (Hn : n_updates (events_of (ex_run_solver (ex_gd_decay 10) (PyArr [1%Q; 1%Q])
                                       ex_metrics ex_kwargs) ex_world) = 4)
    by (vm_compute; reflexivity).
  split; [exact Hn|].
  destruct (fst (ex_run_solver (ex_gd_decay 10) (PyArr [1%Q; 1%Q]) ex_metrics ex_kwargs ex_world))
    as [result|e] eqn:E; [|vm_compute in E; discriminate].
  destruct (run_solver_builtin_stops_below_default_tolerance _ ex_error ex_time ex_problem
              (ex_gd_decay 10) (PyArr [1%Q; 1%Q]) ex_metrics ex_kwargs ex_world result
              eq_refl E) as (st0 & Hinit & Hbefore & Hend).
  rewrite Hn in Hbefore, Hend. simpl in Hinit. injection Hinit as <-.
  split.
  - apply (Hbefore 3 (PyArr [(1 # 8)%Q; (1 # 8)%Q]) (Some (1 # 1000)%Q)); [lia|].
    vm_compute. reflexivity.
  - destruct Hend as (_ & sol & st & err & H1 & H2 & H3); [simpl; lia|].
    exists sol, st, err. exact (conj H1 (conj H2 H3)).
Defined.

(** The custom optimizer of the examples asks to stop after its first
    step, before [maxiter = 2]. *)
Lemma run_solver_custom_stops_at_stop_criterion_witness :
  exists sol st,
    after_steps ex_custom ex_kwargs 1 (PyArr [1%Q]) None = Ok (sol, st) /\
    stop_criterion ex_custom sol st = Ok true.
Proof.
  assert (Hn : n_updates (events_of (ex_run_solver ex_custom PyNone ex_metrics ex_kwargs)
                            ex_world) = 1)
    by (vm_compute; reflexivity).
  destruct (fst (ex_run_solver ex_custom PyNone ex_metrics ex_kwargs ex_world))
    as [result|e] eqn:E; [|vm_compute in E; discriminate].
  destruct (run_solver_custom_stops_at_stop_criterion _ ex_error ex_time ex_problem
              ex_custom PyNone ex_metrics ex_kwargs ex_world result eq_refl E)
    as (st0 & Hinit & _ & Hend).
  rewrite Hn in Hend. simpl in Hinit. injection Hinit as <-.
  destruct Hend as (_ & sol & st & H1 & H2); [simpl; lia|].
  exists sol, st. exact (conj H1 H2).
Defined.

(** A custom optimizer that never asks to stop runs its two iterations. *)
Lemma run_solver_custom_never_stopping_runs_maxiter_witness :
  n_updates (events_of (ex_run_solver ex_custom_never PyNone ex_metrics ex_kwargs) ex_world) = 2.
Proof.
  destruct (fst (ex_run_solver ex_custom_never PyNone ex_metrics ex_kwargs ex_world))
    as [result|e] eqn:E; [|vm_compute in E; discriminate].
  apply (run_solver_custom_never_stopping_runs_maxiter _ ex_error ex_time ex_problem
           ex_custom_never PyNone ex_metrics ex_kwargs ex_world result).
  - reflexivity.
  - intros sol st. simpl. discriminate.
  - exact E.
Defined.

(** With the clock of the examples, which advances by one with every
    reading: a run whose first update raises has read the clock once, a run
    that returns has read it twice and its time is the difference of the
    readings 1 and 0. *)
Lemma run_solver_time_witness :
  (fst (ex_run_solver (ex_gd 3) (PyArr [1%Q; 1%Q]) ex_metrics_all
          (delete "x_init" ex_params_bad) ex_world) = Raise (SolverError 1) /\
   w_clock (snd (ex_run_solver (ex_gd 3) (PyArr [1%Q; 1%Q]) ex_metrics_all
                   (delete "x_init" ex_params_bad) ex_world)) = 1) /\
  exists result,
    fst (ex_run_solver (ex_gd 3) (PyArr [1%Q; 1%Q]) ex_metrics_all ex_kwargs ex_world)
      = Ok result /\
    w_clock (snd (ex_run_solver (ex_gd 3) (PyArr [1%Q; 1%Q]) ex_metrics_all ex_kwargs
                    ex_world)) = 2 /\
    result !! "time" = Some [PyNum (ex_time 1 - ex_time 0)%Q].
Proof.
  split.
  - assert (E : fst (ex_run_solver (ex_gd 3) (PyArr [1%Q; 1%Q]) ex_metrics_all
                       (delete "x_init" ex_params_bad) ex_world) = Raise (SolverError 1))
      by (vm_compute; reflexivity).
    split; [exact E|].
    destruct (run_solver_time _ ex_error ex_time ex_problem (ex_gd 3) (PyArr [1%Q; 1%Q])
                ex_metrics_all (delete "x_init" ex_params_bad) ex_world) as (_ & Hraise & _).
    exact (Hraise _ E).
  - destruct (fst (ex_run_solver (ex_gd 3) (PyArr [1%Q; 1%Q]) ex_metrics_all ex_kwargs
                     ex_world)) as [result|e] eqn:E; [|vm_compute in E; discriminate].
    destruct (run_solver_time _ ex_error ex_time ex_problem (ex_gd 3) (PyArr [1%Q; 1%Q])
                ex_metrics_all ex_kwargs ex_world) as (_ & _ & Hok).
    destruct (Hok result E) as [Hclock Ht].
    exists result. split; [reflexivity|]. split; [exact Hclock|].
    exact (Ht ex_metrics_all_time).
Defined.

(** Three steps of gradient descent with every metric requested. *)
Lemma run_solver_series_witness :
  exists result,
    let traj := trajectory (ex_gd 3) ex_kwargs 3 (PyArr [1%Q; 1%Q]) (Some 1%Q) in
    fst (ex_run_solver (ex_gd 3) (PyArr [1%Q; 1%Q]) ex_metrics_all ex_kwargs ex_world)
      = Ok result /\
    length traj = 3 /\
    series_is result "history_x" (map fst traj) /\
    (exists es, series_is result "errors" (map PyNum es) /\
                Forall2 (fun p err => ex_error (snd p) = Some err) traj es) /\
    nit_is result 3.
Proof.
  assert (Hn : n_updates (events_of (ex_run_solver (ex_gd 3) (PyArr [1%Q; 1%Q])
                                       ex_metrics_all ex_kwargs) ex_world) = 3)
    by (vm_compute; reflexivity).
  destruct (fst (ex_run_solver (ex_gd 3) (PyArr [1%Q; 1%Q]) ex_metrics_all ex_kwargs ex_world))
    as [result|e] eqn:E; [|vm_compute in E; discriminate].
  destruct (run_solver_series _ ex_error ex_time ex_problem (ex_gd 3) (PyArr [1%Q; 1%Q])
              ex_metrics_all ex_kwargs ex_world result E)
    as (st0 & Hinit & Hlen & _ & Hx & _ & He & Hnit).
  rewrite Hn in Hlen, Hx, He, Hnit. simpl in Hinit. injection Hinit as <-.
  exists result. split; [reflexivity|]. split; [exact Hlen|].
  split; [exact (Hx ex_metrics_all_history_x)|].
  split; [exact (He ex_metrics_all_errors)|exact (Hnit ex_metrics_all_nit)].
Defined.

(** The count of iterations is stored under "nit", a requested name that
    the loop serves. *)
Lemma run_solver_stored_names_witness :
  exists result,
    fst (ex_run_solver (ex_gd 3) (PyArr [1%Q; 1%Q]) ex_metrics_all ex_kwargs ex_world)
      = Ok result /\
    is_Some (result !! "nit") /\
    "nit" ∈ ex_metrics_all /\ "nit" ∈ stored_names.
Proof.
  assert (Hs : is_Some (match fst (ex_run_solver (ex_gd 3) (PyArr [1%Q; 1%Q])
                                     ex_metrics_all ex_kwargs ex_world) with
                        | Ok r => r !! "nit"
                        | Raise _ => None
                        end))
    by (vm_compute; eauto).
  destruct (fst (ex_run_solver (ex_gd 3) (PyArr [1%Q; 1%Q]) ex_metrics_all ex_kwargs ex_world))
    as [result|e] eqn:E; [|vm_compute in E; discriminate].
  exists result. split; [reflexivity|]. split; [exact Hs|].
  exact (run_solver_stored_names _ ex_error ex_time ex_problem (ex_gd 3) (PyArr [1%Q; 1%Q])
           ex_metrics_all ex_kwargs ex_world result "nit" E Hs).
Defined.

(** The state of the custom optimizer of the examples has no error: with
    "errors" requested its run raises in the first iteration. *)
Lemma run_solver_errors_without_error_attribute_witness :
  fst (ex_run_solver ex_custom PyNone ex_metrics_all ex_kwargs ex_world) = Raise AttributeError /\
  events_of (ex_run_solver ex_custom PyNone ex_metrics_all ex_kwargs) ex_world
  = [EvInit; EvPrint (PyNum (1 # 1000)); EvUpdate 0].
Proof.
  apply (run_solver_errors_without_error_attribute _ ex_error ex_time ex_problem
           ex_custom PyNone ex_metrics_all ex_kwargs ex_world None (PyArr [1%Q]) None).
  - simpl. lia.
  - reflexivity.
  - reflexivity.
  - intros _. vm_compute. reflexivity.
  - exact ex_metrics_all_errors.
  - reflexivity.
Defined.

(** Two configurations under one name: the method is listed twice and
    stored once. *)
Lemma run_duplicate_method_names_witness :
  exists res rs,
    ex_run ex_bm_twice None ex_world ex_store = (Ok res, rs) /\
    br_methods res = ["GRADIENT_DESCENT_const_step"; "GRADIENT_DESCENT_const_step"] /\
    size (br_data res) < length (br_methods res).
Proof.
  assert (Hm : match fst (ex_run ex_bm_twice None ex_world ex_store) with
               | Ok r => br_methods r
               | Raise _ => []
               end = ["GRADIENT_DESCENT_const_step"; "GRADIENT_DESCENT_const_step"])
    by (vm_compute; reflexivity).
  destruct (ex_run ex_bm_twice None ex_world ex_store) as [[res|e] rs] eqn:E;
    [|vm_compute in E; discriminate].
  simpl in Hm.
  destruct (run_duplicate_method_names _ ex_error ex_time ex_jnp_array ex_GradientDescent
              ex_bm_twice None ex_world ex_store res rs E) as [Hle Hiff].
  exists res, rs. split; [reflexivity|]. split; [exact Hm|].
  destruct (decide (size (br_data res) = length (br_methods res))) as [Heq|Hne]; [|lia].
  exfalso. apply Hiff in Heq. rewrite Hm in Heq.
  apply NoDup_cons_1_1 in Heq. apply Heq. left.
Defined.

(** After the run of the examples the dict of the method that was run has
    no "x_init" left, and a second run without a user method changes no
    dict; a second run with a user method leaves the dict of the method
    that was run as it is. *)
Lemma run_consumes_x_init_witness :
  exists res rs,
    ex_run ex_bm None ex_world ex_store = (Ok res, rs) /\
    get_x_init (ex_store 0) = PyArr [1%Q; 1%Q] /\
    get_x_init (rs_store rs 0) = PyNone /\
    (forall l, rs_store (snd (ex_run ex_bm None ex_world (rs_store rs))) l = rs_store rs l) /\
    rs_store (snd (ex_run ex_bm (Some ex_custom) ex_world (rs_store rs))) 0 = rs_store rs 0.
Proof.
  destruct (ex_run ex_bm None ex_world ex_store) as [[res|e] rs] eqn:E;
    [|vm_compute in E; discriminate].
  destruct (run_consumes_x_init _ ex_error ex_time ex_jnp_array ex_GradientDescent
              ex_bm None ex_world ex_store res rs E) as (Hgone & Hlater & Hsecond).
  exists res, rs. split; [reflexivity|]. split; [vm_compute; reflexivity|]. split_and!.
  - apply (Hgone "GRADIENT_DESCENT_const_step" 0); [|reflexivity].
    change (all_pairs ex_bm)
      with [("GRADIENT_DESCENT_const_step", 0); ("MY_METHOD", 2)].
    left.
  - intros l.
    destruct (ex_run ex_bm None ex_world (rs_store rs)) as [o2 rs2] eqn:E2.
    exact (Hsecond ex_world o2 rs2 (or_intror E2) l).
  - destruct (ex_run ex_bm (Some ex_custom) ex_world (rs_store rs)) as [o2 rs2] eqn:E2.
    apply (Hlater (Some ex_custom) ex_world o2 rs2 E2 0).
    intros method Hin _.
    change (all_pairs ex_bm)
      with [("GRADIENT_DESCENT_const_step", 0); ("MY_METHOD", 2)] in Hin.
    apply elem_of_cons in Hin as [Heq|Hin]; [by injection Heq as ->|].
    apply elem_of_cons in Hin as [Heq|Hin]; [discriminate Heq|].
    by apply elem_of_nil in Hin.
Defined.

(** A benchmark with built-in methods only runs the same with the custom
    optimizer of the examples as without. *)
Lemma run_ignores_user_method_for_built_in_witness :
  ex_run ex_bm_second (Some ex_custom) ex_world ex_store
  = ex_run ex_bm_second None ex_world ex_store.
Proof.
  apply (run_ignores_user_method_for_built_in _ ex_error ex_time ex_jnp_array
           ex_GradientDescent ex_bm_second ex_custom ex_world ex_store).
  change (all_pairs ex_bm_second) with [("GRADIENT_DESCENT_const_step", 0)].
  apply Forall_cons; [reflexivity|apply Forall_nil].
Defined.

(** The series stored for the built-in method of the examples is what
    [__run_solver] returned for a gradient-descent solver built from the
    method's parameters without "x_init". *)
Lemma run_data_from_run_solver_witness :
  exists res rs sub solver x_init w1,
    ex_run ex_bm None ex_world ex_store = (Ok res, rs) /\
    br_data res !! "GRADIENT_DESCENT_const_step" = Some sub /\
    ex_GradientDescent ex_problem ex_kwargs = Ok solver /\
    fst (ex_run_solver solver x_init ex_metrics ex_kwargs w1) = Ok sub.
Proof.
  assert (Hs : is_Some (match fst (ex_run ex_bm None ex_world ex_store) with
                        | Ok r => br_data r !! "GRADIENT_DESCENT_const_step"
                        | Raise _ => None
                        end))
    by (vm_compute; eauto).
  destruct (ex_run ex_bm None ex_world ex_store) as [[res|e] rs] eqn:E;
    [|vm_compute in E; discriminate].
  simpl in Hs. destruct Hs as [sub Hsub].
  destruct (run_data_from_run_solver _ ex_error ex_time ex_jnp_array ex_GradientDescent
              ex_bm None ex_world ex_store res rs "GRADIENT_DESCENT_const_step" sub E Hsub)
    as (l & params & solver & x_init & w1 & Hin & Hp & Hcall & _ & _ & _ & Hrun).
  change (all_pairs ex_bm)
    with [("GRADIENT_DESCENT_const_step", 0); ("MY_METHOD", 2)] in Hin.
  apply elem_of_cons in Hin as [Hl|Hin].
  - injection Hl as ->.
    assert (Hsolver : ex_GradientDescent ex_problem ex_kwargs = Ok solver).
    { unfold method_call in Hcall.
      change (String.prefix "GRADIENT_DESCENT" "GRADIENT_DESCENT_const_step") with true in Hcall.
      cbv iota in Hcall.
      assert (Hk : delete "x_init" params = ex_kwargs).
      { destruct Hp as [-> | ->]; [reflexivity|]. by rewrite delete_delete_eq. }
      rewrite Hk in Hcall. change (bm_problem ex_bm) with ex_problem in Hcall.
      destruct (ex_GradientDescent ex_problem ex_kwargs) as [s|e]; [|discriminate].
      by injection Hcall as -> _. }
    exists res, rs, sub, solver, x_init, w1. split; [reflexivity|].
    split; [exact Hsub|]. split; [exact Hsolver|exact Hrun].
  - exfalso. apply elem_of_cons in Hin as [Hl|Hin]; [discriminate Hl|].
    by apply elem_of_nil in Hin.
Defined.

(** ** Properties of [Plotter.plotly_figure] *)

Module PlotterProperties.

Import Plotter.

(** The traces of a completed [collect] are the chained results of [g]. *)
Lemma collect_groups {A B : Type} (g : A -> outcome (list B)) (l : list A) : forall bs,
  collect g l = Ok bs ->
  exists groups, bs = concat groups /\ Forall2 (fun a ts => g a = Ok ts) l groups.
Proof.
  induction l as [|a l IH]; intros bs H; simpl in H.
  - injection H as <-. exists []. split; [done|constructor].
  - destruct (g a) as [ts|e] eqn:Hg; [|discriminate].
    destruct (collect g l) as [cs|e]; [|discriminate].
    injection H as <-.
    destruct (IH cs eq_refl) as (groups & -> & Hall).
    exists (ts :: groups). split; [done|]. by constructor.
Qed.

Lemma option_traces_group dataframe first rest i_method method option ts :
  option_traces (first :: rest) i_method method (select_method dataframe method) option
    = Ok ts ->
  group_ok dataframe (first :: rest) (i_method, method, option) ts.
Proof.
  intros H. unfold group_ok. split; [exact H|].
  unfold option_traces in H.
  destruct (column _ (value option +:+ "_mean")) as [mean|e]; [|discriminate].
  destruct (column _ (value option +:+ "_std")) as [std|e]; [|discriminate].
  destruct (all_zero std) eqn:Hz; simpl in H; injection H as <-.
  - split.
    + eexists _, [], std. rewrite Hz. by split_and!.
    + exists first, rest. split; [done|]. by repeat constructor.
  - split.
    + eexists _, [_; _], std. rewrite Hz. by split_and!.
    + exists first, rest. split; [done|]. by repeat constructor.
Qed.

Lemma option_groups dataframe first rest i_method method : forall options inner,
  Forall2 (fun o ts =>
             option_traces (first :: rest) i_method method
               (select_method dataframe method) o = Ok ts) options inner ->
  Forall2 (group_ok dataframe (first :: rest))
          (map (fun o => (i_method, method, o)) options) inner.
Proof.
  induction 1 as [|o ts options inner Ho _ IH]; simpl; constructor.
  - by apply option_traces_group.
  - exact IH.
Qed.

Lemma is_first_value_cons first rest option :
  is_first_value (first :: rest) option = String.eqb (value option) (value first).
Proof. reflexivity. Qed.

(** C9 (as amended): the traces of a figure built by [plotly_figure] are,
    method by method and option by option ([group_ok]), one mean trace and,
    when the standard deviation is not zero throughout, two band traces;
    each of these traces is created visible exactly when its option's value
    is the value of the first dropdown option.  So for the first option each
    method has one visible mean trace (and two visible band traces when
    there is a band), and every trace of an option with another value is
    created invisible. *)
Theorem plotly_figure_visibility dataframe dropdown_options fig :
  plotly_figure dataframe dropdown_options = Ok fig ->
  exists groups,
    fig_data fig = concat groups /\
    Forall2 (group_ok dataframe dropdown_options)
            (method_option_pairs dataframe dropdown_options) groups.
Proof.
  unfold plotly_figure. intros H.
  destruct (collect _ (methods_of dataframe)) as [data|e] eqn:Hdata; [|discriminate].
  destruct (df_rows dataframe) as [|row0 rows] eqn:Hrows; [discriminate|].
  injection H as <-. simpl.
  unfold method_option_pairs. clear Hrows.
  revert data Hdata. generalize (methods_of dataframe) as ms.
  destruct dropdown_options as [|first rest].
  { (* no option: no trace *)
    induction ms as [|[i m] ms IH]; intros data Hdata; simpl in Hdata.
    - injection Hdata as <-. exists []. split; [done|constructor].
    - destruct (collect _ ms) as [cs|e]; [|discriminate].
      injection Hdata as <-. by apply IH. }
  induction ms as [|[i m] ms IH]; intros data Hdata; simpl in Hdata.
  - injection Hdata as <-. exists []. split; [done|constructor].
  - destruct (method_traces dataframe (first :: rest) (i, m)) as [ts|e] eqn:Hm; [|discriminate].
    destruct (collect _ ms) as [cs|e]; [|discriminate].
    injection Hdata as <-.
    destruct (IH cs eq_refl) as (groups & -> & Hall).
    unfold method_traces in Hm. cbn [fst snd] in Hm.
    apply collect_groups in Hm as (inner & -> & Hinner).
    exists (inner ++ groups)%list. split; [by rewrite concat_app|].
    change (flat_map ?g ((i, m) :: ms)) with (g (i, m) ++ flat_map g ms)%list.
    apply Forall2_app; [|done].
    by apply (option_groups dataframe first rest i m).
Qed.

(** C9 (counterexample to the claim as stated): two methods whose
    standard deviation is not zero.  Under the first dropdown option three
    traces per method are created visible: the mean and the two bounds of
    the band. *)
Lemma plotly_figure_band_traces_visible :
  exists fig,
    plotly_figure ex_dataframe ex_options = Ok fig /\
    map snd (methods_of ex_dataframe) = ["GD"; "CSGD"] /\
    map tr_hovertext (visible_traces (fig_data fig))
      = ["GD - f"; "GD - f_upper"; "GD - f_lower";
         "CSGD - f"; "CSGD - f_upper"; "CSGD - f_lower"] /\
    length (visible_traces (fig_data fig)) <> 2.
Proof.
  destruct (plotly_figure ex_dataframe ex_options) as [fig|e] eqn:E;
    [|vm_compute in E; discriminate].
  exists fig. split; [reflexivity|].
  assert (Hv : map tr_hovertext (visible_traces (fig_data fig))
               = ["GD - f"; "GD - f_upper"; "GD - f_lower";
                  "CSGD - f"; "CSGD - f_upper"; "CSGD - f_lower"]).
  { vm_compute in E. injection E as <-. vm_compute. reflexivity. }
  split_and!.
  - vm_compute. reflexivity.
  - exact Hv.
  - intros Hlen. apply (f_equal (@length string)) in Hv.
    rewrite length_map, Hlen in Hv. discriminate.
Qed.

Lemma plotly_figure_visibility_witness :
  exists fig groups,
    plotly_figure ex_dataframe ex_options = Ok fig /\
    fig_data fig = concat groups /\
    Forall2 (group_ok ex_dataframe ex_options)
            (method_option_pairs ex_dataframe ex_options) groups /\
    length groups = 4.
Proof.
  destruct (plotly_figure ex_dataframe ex_options) as [fig|e] eqn:E;
    [|vm_compute in E; discriminate].
  destruct (plotly_figure_visibility ex_dataframe ex_options fig E) as (groups & Hdata & Hall).
  exists fig, groups. split_and!; try done.
  apply Forall2_length in Hall. rewrite <- Hall. vm_compute. reflexivity.
Defined.

(** ** More on [plotly_figure]: when it succeeds, and the shape of its traces *)

Lemma collect_raise {A B : Type} (g : A -> outcome (list B)) (l : list A) e :
  collect g l = Raise e -> exists a, a ∈ l /\ g a = Raise e.
Proof.
  induction l as [|a l IH]; simpl; [discriminate|].
  destruct (g a) as [bs|e'] eqn:Hg.
  - destruct (collect g l) as [cs|e'']; [discriminate|].
    intros [= ->]. destruct (IH eq_refl) as (a' & Hin & Ha'). exists a'. split; [by right|done].
  - intros [= ->]. exists a. split; [by left|done].
Qed.

Lemma collect_ok {A B : Type} (g : A -> outcome (list B)) (l : list A) :
  is_Ok (collect g l) = true <-> (forall a, a ∈ l -> is_Ok (g a) = true).
Proof.
  split.
  - intros Hok a Hin. destruct (collect g l) as [bs|e] eqn:Hc; [|discriminate].
    apply collect_groups in Hc as (groups & _ & Hall).
    apply list_elem_of_lookup in Hin as [i Hi].
    destruct (Forall2_lookup_l _ _ _ _ _ Hall Hi) as (ts & _ & Hts). by rewrite Hts.
  - intros Hall. destruct (collect g l) as [bs|e] eqn:Hc; [done|].
    apply collect_raise in Hc as (a & Hin & Ha). specialize (Hall a Hin).
    rewrite Ha in Hall. discriminate.
Qed.

Lemma column_ok df name : is_Ok (column df name) = true <-> name ∈ df_columns df.
Proof.
  unfold column, in_list. case_bool_decide; simpl; split; try done.
Qed.

Lemma column_raise df name e : column df name = Raise e -> e = KeyError.
Proof. unfold column. destruct (in_list _ _); congruence. Qed.

Lemma column_length df name ys :
  column df name = Ok ys -> length ys = length (df_rows df).
Proof.
  unfold column. destruct (in_list _ _); [|discriminate].
  intros [= <-]. by rewrite length_map.
Qed.

Lemma option_traces_ok dropdown_options i_method method method_df option :
  is_Ok (option_traces dropdown_options i_method method method_df option) = true <->
  (value option +:+ "_mean") ∈ df_columns method_df /\
  (value option +:+ "_std") ∈ df_columns method_df.
Proof.
  rewrite <- !column_ok. unfold option_traces.
  destruct (column method_df (value option +:+ "_mean")) as [mean|e]; simpl; [|by intuition].
  destruct (column method_df (value option +:+ "_std")) as [std|e]; simpl; [|by intuition].
  by destruct (all_zero std).
Qed.

Lemma option_traces_raise dropdown_options i_method method method_df option e :
  option_traces dropdown_options i_method method method_df option = Raise e -> e = KeyError.
Proof.
  unfold option_traces.
  destruct (column method_df (value option +:+ "_mean")) as [mean|e1] eqn:H1.
  - destruct (column method_df (value option +:+ "_std")) as [std|e2] eqn:H2.
    + by destruct (all_zero std).
    + intros [= <-]. by apply column_raise in H2.
  - intros [= <-]. by apply column_raise in H1.
Qed.

Lemma methods_of_nil dataframe : methods_of dataframe = [] <-> df_rows dataframe = [].
Proof.
  unfold methods_of. destruct (df_rows dataframe) as [|row rows]; simpl; [done|].
  split; discriminate.
Qed.

(** X12: [plotly_figure] succeeds exactly when the dataframe has a row and
    has, for every dropdown option, the columns "<value>_mean" and
    "<value>_std"; every failure is a [KeyError].  In particular it fails on
    a dataframe without rows, whatever the options. *)
Theorem plotly_figure_succeeds_iff dataframe dropdown_options :
  (is_Ok (plotly_figure dataframe dropdown_options) = true <->
   df_rows dataframe <> [] /\
   forall option, option ∈ dropdown_options ->
     (value option +:+ "_mean") ∈ df_columns dataframe /\
     (value option +:+ "_std") ∈ df_columns dataframe) /\
  (forall e, plotly_figure dataframe dropdown_options = Raise e -> e = KeyError).
Proof.
  split.
  - unfold plotly_figure. split.
    + intros Hok.
      destruct (collect _ (methods_of dataframe)) as [data|e] eqn:Hdata; [|discriminate].
      destruct (df_rows dataframe) as [|row0 rows] eqn:Hrows; [discriminate|].
      split; [done|]. intros option Hin.
      assert (Hm : is_Ok (collect (method_traces dataframe dropdown_options)
                            (methods_of dataframe)) = true) by (by rewrite Hdata).
      rewrite collect_ok in Hm.
      destruct (methods_of dataframe) as [|im ms] eqn:Hms.
      { apply methods_of_nil in Hms. congruence. }
      specialize (Hm im (list_elem_of_here _ _)).
      unfold method_traces in Hm. rewrite collect_ok in Hm.
      by apply Hm, option_traces_ok in Hin.
    + intros [Hrows Hcols].
      assert (Hm : is_Ok (collect (method_traces dataframe dropdown_options)
                            (methods_of dataframe)) = true).
      { apply collect_ok. intros im _. unfold method_traces. apply collect_ok.
        intros option Hin. apply option_traces_ok. by apply Hcols. }
      destruct (collect _ (methods_of dataframe)) as [data|e]; [|discriminate].
      by destruct (df_rows dataframe).
  - intros e. unfold plotly_figure.
    destruct (collect _ (methods_of dataframe)) as [data|e'] eqn:Hdata.
    + destruct (df_rows dataframe); congruence.
    + intros [= ->]. apply collect_raise in Hdata as (im & _ & Him).
      unfold method_traces in Him. apply collect_raise in Him as (option & _ & Ho).
      by apply option_traces_raise in Ho.
Qed.

(** The traces of a figure, group by group, as the loops add them. *)
Lemma plotly_figure_data dataframe dropdown_options fig :
  plotly_figure dataframe dropdown_options = Ok fig ->
  exists groups,
    fig_data fig = concat groups /\
    Forall2 (fun p ts =>
               option_traces dropdown_options (fst (fst p)) (snd (fst p))
                 (select_method dataframe (snd (fst p))) (snd p) = Ok ts)
            (method_option_pairs dataframe dropdown_options) groups.
Proof.
  unfold plotly_figure. intros H.
  destruct (collect _ (methods_of dataframe)) as [data|e] eqn:Hdata; [|discriminate].
  destruct (df_rows dataframe) as [|row0 rows]; [discriminate|].
  injection H as <-. simpl. unfold method_option_pairs.
  revert data Hdata. generalize (methods_of dataframe) as ms.
  induction ms as [|[i m] ms IH]; intros data Hdata.
  - injection Hdata as <-. exists []. split; [done|constructor].
  - cbn [collect] in Hdata.
    destruct (method_traces dataframe dropdown_options (i, m)) as [ts|e] eqn:Hm; [|discriminate].
    destruct (collect _ ms) as [cs|e]; [|discriminate].
    injection Hdata as <-.
    destruct (IH cs eq_refl) as (groups & -> & Hall).
    unfold method_traces in Hm. cbn [fst snd] in Hm.
    apply collect_groups in Hm as (inner & -> & Hinner).
    exists (inner ++ groups)%list. split; [by rewrite concat_app|].
    change (flat_map ?g ((i, m) :: ms)) with (g (i, m) ++ flat_map g ms)%list.
    apply Forall2_app; [|done].
    apply Forall2_fmap_l. eapply Forall2_impl; [|exact Hinner].
    intros o ts Ho. exact Ho.
Qed.

Lemma option_traces_shape dropdown_options i_method method method_df option ts :
  option_traces dropdown_options i_method method method_df option = Ok ts ->
  (length ts = 1 \/ length ts = 3) /\
  Forall (fun t => tr_x t = map r_Iteration (df_rows method_df) /\
                   length (tr_y t) = length (df_rows method_df)) ts.
Proof.
  unfold option_traces.
  destruct (column method_df (value option +:+ "_mean")) as [mean|e] eqn:Hmean; [|discriminate].
  destruct (column method_df (value option +:+ "_std")) as [std|e] eqn:Hstd; [|discriminate].
  apply column_length in Hmean, Hstd.
  destruct (all_zero std); simpl; intros [= <-].
  - split; [by left|].
    repeat (apply Forall_cons; [split; [reflexivity|simpl; lia]|]). apply Forall_nil.
  - split; [by right|].
    repeat (apply Forall_cons;
            [split; [reflexivity|simpl; rewrite ?length_zip_with; lia]|]).
    apply Forall_nil.
Qed.

Lemma elem_of_concat_groups {A B : Type} (P : A -> list B -> Prop) (l : list A)
    (groups : list (list B)) (t : B) :
  Forall2 P l groups -> t ∈ concat groups ->
  exists a ts, a ∈ l /\ P a ts /\ t ∈ ts.
Proof.
  induction 1 as [|a ts l groups Ha _ IH]; simpl; intros Hin.
  - by apply elem_of_nil in Hin.
  - apply elem_of_app in Hin as [Hin|Hin].
    + exists a, ts. split; [by left|done].
    + destruct (IH Hin) as (a' & ts' & Hin' & HP & Ht). exists a', ts'. split; [by right|done].
Qed.

Lemma method_option_pairs_elem dataframe dropdown_options i method option :
  (i, method, option) ∈ method_option_pairs dataframe dropdown_options ->
  (i, method) ∈ methods_of dataframe /\ option ∈ dropdown_options.
Proof.
  unfold method_option_pairs. intros Hin.
  apply list_elem_of_In, in_flat_map in Hin as ([i' m'] & Him & Hin).
  apply in_map_iff in Hin as (o & [= -> -> ->] & Ho).
  split; by apply list_elem_of_In.
Qed.

Lemma unique_elem (l : list string) x : x ∈ unique l <-> x ∈ l.
Proof.
  induction l as [|y l IH]; simpl; [done|].
  rewrite !elem_of_cons, list_elem_of_filter, IH.
  destruct (decide (x = y)); naive_solver.
Qed.

Lemma unique_NoDup (l : list string) : NoDup (unique l).
Proof.
  induction l as [|y l IH]; simpl; [apply NoDup_nil_2|].
  apply NoDup_cons_2.
  - rewrite list_elem_of_filter. naive_solver.
  - by apply list.NoDup_filter.
Qed.

Lemma enumerate_from_snd {A : Type} (l : list A) : forall i,
  map snd (enumerate_from i l) = l.
Proof. induction l as [|a l IH]; intros i; simpl; [done|]. by rewrite IH. Qed.

Lemma enumerate_from_lookup {A : Type} (l : list A) : forall i k a,
  enumerate_from i l !! k = Some a -> fst a = i + k /\ l !! k = Some (snd a).
Proof.
  induction l as [|x l IH]; intros i k a H; simpl in *; [done|].
  destruct k as [|k]; simpl in *.
  - injection H as <-. simpl. split; [lia|done].
  - apply IH in H as [-> ?]. split; [lia|done].
Qed.

Lemma methods_of_elem dataframe i method :
  (i, method) ∈ methods_of dataframe ->
  exists row, row ∈ df_rows dataframe /\ r_Method row = method.
Proof.
  unfold methods_of. intros Hin.
  assert (Hm : method ∈ unique (map r_Method (df_rows dataframe))).
  { rewrite <- (enumerate_from_snd (unique (map r_Method (df_rows dataframe))) 0).
    apply list_elem_of_fmap. by exists (i, method). }
  apply unique_elem, list_elem_of_fmap in Hm as (row & -> & Hrow). by exists row.
Qed.

(** X13: in a figure built by [plotly_figure] every trace belongs to one
    method that occurs in the dataframe: its x values are the iterations of
    the rows of that method, and it has one y value for each of these rows;
    so no trace is empty and x and y have the same length. *)
Theorem plotly_figure_trace_shape dataframe dropdown_options fig t :
  plotly_figure dataframe dropdown_options = Ok fig ->
  t ∈ fig_data fig ->
  exists method,
    let rows := df_rows (select_method dataframe method) in
    rows <> [] /\
    tr_x t = map r_Iteration rows /\
    length (tr_y t) = length rows.
Proof.
  intros H Hin. apply plotly_figure_data in H as (groups & Hdata & Hall).
  rewrite Hdata in Hin.
  destruct (elem_of_concat_groups _ _ _ _ Hall Hin) as ([[i m] o] & ts & Hp & Hts & Ht).
  simpl in Hts. apply option_traces_shape in Hts as [_ Hshape].
  rewrite Forall_forall in Hshape. apply list_elem_of_In in Ht.
  destruct (Hshape t Ht) as [Hx Hy].
  exists m. simpl. split_and!; [|done..].
  apply method_option_pairs_elem in Hp as [Hm _].
  apply methods_of_elem in Hm as (row & Hrow & Hmeth).
  intros Hnil. assert (Hr : row ∈ filter (fun r => r_Method r = m) (df_rows dataframe))
    by (by apply list_elem_of_filter).
  rewrite Hnil in Hr. by apply elem_of_nil in Hr.
Qed.

(** ** More on [plotly_figure]: how many traces, the buttons, the markers *)

Lemma length_concat_bounds {A : Type} (groups : list (list A)) :
  Forall (fun ts => length ts = 1 \/ length ts = 3) groups ->
  length groups <= length (concat groups) <= 3 * length groups.
Proof.
  induction 1 as [|ts groups Hts _ IH]; simpl; [lia|].
  rewrite length_app. lia.
Qed.

Lemma method_option_pairs_length dataframe dropdown_options :
  length (method_option_pairs dataframe dropdown_options)
  = length (methods_of dataframe) * length dropdown_options.
Proof.
  unfold method_option_pairs.
  induction (methods_of dataframe) as [|im ms IH]; simpl; [done|].
  by rewrite length_app, length_map, IH.
Qed.

Lemma enumerate_from_length {A : Type} (l : list A) : forall i,
  length (enumerate_from i l) = length l.
Proof. induction l as [|a l IH]; intros i; simpl; [done|]. by rewrite IH. Qed.

Lemma methods_of_length dataframe :
  length (methods_of dataframe)
  = size (list_to_set (map r_Method (df_rows dataframe)) : gset string).
Proof.
  unfold methods_of. rewrite enumerate_from_length.
  rewrite <- (size_list_to_set (C := gset string)) by apply unique_NoDup.
  f_equal. apply set_eq. intros x. by rewrite !elem_of_list_to_set, unique_elem.
Qed.

(** X14: a figure built by [plotly_figure] has between [N] and [3 N]
    traces, where [N] is the number of distinct method names of the
    dataframe times the number of dropdown options: one mean trace for each
    method and option, and at most one band (two traces) on top. *)
Theorem plotly_figure_trace_count dataframe dropdown_options fig :
  plotly_figure dataframe dropdown_options = Ok fig ->
  let N := size (list_to_set (map r_Method (df_rows dataframe)) : gset string)
           * length dropdown_options in
  N <= length (fig_data fig) <= 3 * N.
Proof.
  intros H N. subst N.
  apply plotly_figure_data in H as (groups & -> & Hall).
  rewrite <- methods_of_length, <- method_option_pairs_length.
  assert (Hlen := Hall). apply Forall2_length in Hlen. rewrite Hlen.
  apply length_concat_bounds.
  clear -Hall. induction Hall as [|p ts ps groups Hp _ IH]; constructor; [|done].
  by apply option_traces_shape in Hp as [Hlen _].
Qed.

Lemma prefix_app_r s : forall t b, String.prefix s t = true -> String.prefix s (t +:+ b) = true.
Proof.
  induction s as [|c s IH]; intros t b; [by destruct (t +:+ b)|].
  destruct t as [|c' t]; simpl; [discriminate|].
  destruct (Ascii.ascii_dec c c'); [|discriminate]. apply IH.
Qed.

Lemma prefix_refl s : String.prefix s s = true.
Proof.
  induction s as [|c s IH]; simpl; [done|].
  by destruct (Ascii.ascii_dec c c).
Qed.

Lemma is_substring_refl s : is_substring s s = true.
Proof.
  destruct s as [|c s]; [reflexivity|].
  change (String.prefix (String c s) (String c s) || is_substring (String c s) s = true).
  by rewrite prefix_refl.
Qed.

Lemma is_substring_app_r s t b :
  is_substring s t = true -> is_substring s (t +:+ b) = true.
Proof.
  induction t as [|c t IH].
  - simpl. rewrite orb_false_r. destruct s; [|discriminate]. intros _.
    destruct b; by simpl.
  - intros H. change (is_substring s (String c (t +:+ b)) = true).
    change (String.prefix s (String c t) || is_substring s t = true) in H.
    change (String.prefix s (String c (t +:+ b)) || is_substring s (t +:+ b) = true).
    apply orb_true_iff in H as [H|H]; apply orb_true_iff.
    + left. by apply (prefix_app_r s (String c t) b).
    + right. by apply IH.
Qed.

Lemma is_substring_app_l s a t :
  is_substring s t = true -> is_substring s (a +:+ t) = true.
Proof.
  intros H. induction a as [|c a IH]; [done|].
  change (String.prefix s (String c (a +:+ t)) || is_substring s (a +:+ t) = true).
  rewrite IH. apply orb_true_r.
Qed.

Lemma append_empty_r (s : string) : s +:+ "" = s.
Proof.
  induction s as [|c s IH]; [reflexivity|].
  change (String c (s +:+ "") = String c s). by rewrite IH.
Qed.

Lemma option_traces_hovertext dropdown_options i_method method method_df option ts :
  option_traces dropdown_options i_method method method_df option = Ok ts ->
  Forall (fun t => exists suffix,
            tr_hovertext t = method +:+ " - " +:+ label option +:+ suffix) ts.
Proof.
  unfold option_traces.
  destruct (column method_df (value option +:+ "_mean")) as [mean|e]; [|discriminate].
  destruct (column method_df (value option +:+ "_std")) as [std|e]; [|discriminate].
  destruct (all_zero std); simpl; intros [= <-].
  - apply Forall_cons; [|apply Forall_nil]. exists "". simpl.
    by rewrite append_empty_r.
  - apply Forall_cons; [|apply Forall_cons; [|apply Forall_cons; [|apply Forall_nil]]]; simpl.
    + exists "". by rewrite append_empty_r.
    + by exists "_upper".
    + by exists "_lower".
Qed.

(** X15: the dropdown menu of a figure has one button per option, in
    order, labelled with the option's label and holding one flag per trace
    of the figure; the flag of a trace is whether the option's value occurs
    in the trace's hover text.  So a button shows every trace of an option
    whose label contains the button's value (its own traces when label and
    value agree, but also, say, the traces of "f_gap" under the button "f"),
    and every trace of a method whose name contains that value. *)
Theorem plotly_figure_buttons dataframe dropdown_options fig :
  plotly_figure dataframe dropdown_options = Ok fig ->
  Forall2 (fun option b =>
             b_label b = label option /\
             b_visible b
             = map (fun t => is_substring (value option) (tr_hovertext t)) (fig_data fig))
          dropdown_options (fig_buttons fig) /\
  exists groups,
    fig_data fig = concat groups /\
    Forall2 (fun p ts =>
               forall option t,
                 t ∈ ts ->
                 is_substring (value option) (label (snd p)) = true \/
                 is_substring (value option) (snd (fst p)) = true ->
                 is_substring (value option) (tr_hovertext t) = true)
            (method_option_pairs dataframe dropdown_options) groups.
Proof.
  intros H. split.
  - unfold plotly_figure in H.
    destruct (collect _ (methods_of dataframe)) as [data|e]; [|discriminate].
    destruct (df_rows dataframe); [discriminate|]. injection H as <-. simpl.
    induction dropdown_options as [|o os IH]; simpl; constructor; [done|exact IH].
  - apply plotly_figure_data in H as (groups & Hdata & Hall).
    exists groups. split; [done|].
    eapply Forall2_impl; [|exact Hall].
    intros [[i m] o'] ts Hts option t Ht Hsub. simpl in *.
    apply option_traces_hovertext in Hts. rewrite Forall_forall in Hts.
    apply list_elem_of_In in Ht. destruct (Hts t Ht) as [suffix ->].
    destruct Hsub as [Hsub|Hsub].
    + apply is_substring_app_l, is_substring_app_l. by apply is_substring_app_r.
    + by apply is_substring_app_r.
Qed.

Lemma pick_period (l : list string) i k : pick l (i + k * length l) = pick l i.
Proof. unfold pick. by rewrite Nat.Div0.mod_add. Qed.

Lemma pick_inj (l : list string) i j :
  NoDup l -> i < length l -> j < length l -> pick l i = pick l j -> i = j.
Proof.
  intros Hnd Hi Hj. unfold pick. rewrite !Nat.mod_small by done.
  destruct (lookup_lt_is_Some_2 l i Hi) as [x Hx].
  destruct (lookup_lt_is_Some_2 l j Hj) as [y Hy].
  rewrite (nth_lookup_Some _ _ _ _ Hx), (nth_lookup_Some _ _ _ _ Hy). intros <-.
  by apply (NoDup_lookup l i j x).
Qed.

Lemma markers_NoDup : NoDup markers.
Proof. compute_done. Qed.

Lemma colors_rgba_NoDup : NoDup colors_rgba.
Proof. compute_done. Qed.

(** X16: the mean trace of the method numbered [i] carries the marker
    [marker_of i] and its band traces carry none.  Marker symbols repeat
    with period 13 and colours with period 10, so the marker of a method is
    that of the method 130 places on; among the first 13 methods the symbols
    are pairwise distinct, among the first 10 the colours. *)
Theorem plotly_figure_markers :
  (forall dropdown_options i method method_df option ts,
     option_traces dropdown_options i method method_df option = Ok ts ->
     exists mean_trace bands,
       ts = mean_trace :: bands /\
       tr_marker mean_trace = Some (marker_of i) /\
       Forall (fun t => tr_marker t = None) bands) /\
  (forall i, symbol (marker_of (i + 13)) = symbol (marker_of i)) /\
  (forall i, color (marker_of (i + 10)) = color (marker_of i)) /\
  (forall i, marker_of (i + 130) = marker_of i) /\
  (forall i j, i < 13 -> j < 13 -> symbol (marker_of i) = symbol (marker_of j) -> i = j) /\
  (forall i j, i < 10 -> j < 10 -> color (marker_of i) = color (marker_of j) -> i = j).
Proof.
  split_and!.
  - intros dropdown_options i method method_df option ts. unfold option_traces.
    destruct (column method_df (value option +:+ "_mean")) as [mean|e]; [|discriminate].
    destruct (column method_df (value option +:+ "_std")) as [std|e]; [|discriminate].
    destruct (all_zero std); simpl; intros [= <-]; eexists _, _;
      (split_and!; [reflexivity|reflexivity|by repeat constructor]).
  - intros i. apply (pick_period markers i 1).
  - intros i. apply (pick_period colors_rgba i 1).
  - intros i. unfold marker_of. f_equal.
    + apply (pick_period markers i 10).
    + apply (pick_period colors_rgba i 13).
  - intros i j Hi Hj. apply pick_inj; [apply markers_NoDup|done..].
  - intros i j Hi Hj. apply pick_inj; [apply colors_rgba_NoDup|done..].
Qed.

(** ** Properties of [Plotter.plot] *)

Lemma omap_MetricName names :
  omap (fun metric => match metric with MetricName name => Some name | _ => None end)
       (map MetricName names) = names.
Proof. induction names as [|n names IH]; [done|]. cbn. f_equal. exact IH. Qed.

Lemma omap_MetricName_custom ls :
  omap (fun metric => match metric with MetricName name => Some name | _ => None end)
       (map MetricCustom ls) = [].
Proof. by induction ls. Qed.

Lemma omap_MetricCustom ls :
  omap (fun metric => match metric with MetricCustom l => Some l | _ => None end)
       (map MetricCustom ls) = ls.
Proof. induction ls as [|l ls IH]; [done|]. cbn. f_equal. exact IH. Qed.

Lemma omap_MetricCustom_name names :
  omap (fun metric => match metric with MetricCustom l => Some l | _ => None end)
       (map MetricName names) = [].
Proof. by induction names. Qed.

Lemma metrics_str_length metrics : length (metrics_str metrics) <= length metrics.
Proof.
  unfold metrics_str. rewrite length_app.
  induction metrics as [|[name|l|] metrics IH]; cbn in *; lia.
Qed.

Lemma omap_MetricName_filter metrics :
  map MetricName
      (omap (fun metric => match metric with MetricName name => Some name | _ => None end)
            metrics)
  = List.filter (fun metric => match metric with MetricName _ => true | _ => false end)
                metrics.
Proof. induction metrics as [|[name|l|] metrics IH]; [done|cbn; f_equal; exact IH|exact IH..]. Qed.

Lemma omap_MetricCustom_filter metrics :
  map MetricCustom
      (omap (fun metric => match metric with MetricCustom l => Some l | _ => None end)
            metrics)
  = List.filter (fun metric => match metric with MetricCustom _ => true | _ => false end)
                metrics.
Proof. induction metrics as [|[name|l|] metrics IH]; [done|exact IH|cbn; f_equal; exact IH|exact IH]. Qed.

(** X17: the dropdown options that [plot] builds, for every list
    [metrics].  Their label is their value and there is at most one per
    element of [metrics].  Their values are a list of names followed by a
    list of labels: the names are the string elements of [metrics] in their
    order, the labels those of the [CustomMetric] elements in their order,
    so the labels of custom metrics come after all names wherever they
    stand in [metrics], and an element that is neither a string nor a
    [CustomMetric] gives no option.  Hence leaving out such an element, or
    exchanging a custom metric with a name next to it, anywhere in
    [metrics], does not change the options; with custom metrics first and
    names after them, the options are the names followed by the labels. *)
Theorem dropdown_options_of_metrics :
  (forall metrics, Forall (fun o => label o = value o) (dropdown_options_of metrics)) /\
  (forall metrics, length (dropdown_options_of metrics) <= length metrics) /\
  (forall metrics, exists names ls,
     map value (dropdown_options_of metrics) = (names ++ ls)%list /\
     map MetricName names
     = List.filter (fun metric => match metric with MetricName _ => true | _ => false end)
                   metrics /\
     map MetricCustom ls
     = List.filter (fun metric => match metric with MetricCustom _ => true | _ => false end)
                   metrics) /\
  (forall l1 l2,
     dropdown_options_of (l1 ++ MetricOther :: l2) = dropdown_options_of (l1 ++ l2)) /\
  (forall l1 c n l2,
     dropdown_options_of (l1 ++ MetricCustom c :: MetricName n :: l2)
     = dropdown_options_of (l1 ++ MetricName n :: MetricCustom c :: l2)) /\
  (forall names, map value (dropdown_options_of (map MetricName names)) = names) /\
  (forall ls names,
     map value (dropdown_options_of (map MetricCustom ls ++ map MetricName names))
     = (names ++ ls)%list).
Proof.
  assert (Hval : forall l, map value (map (fun metric => mkOption metric metric) l) = l).
  { intros l. induction l as [|x l IH]; simpl; [done|]. by rewrite IH. }
  split_and!.
  - intros metrics. unfold dropdown_options_of. apply Forall_forall.
    intros o Hin. apply in_map_iff in Hin as (metric & <- & _). done.
  - intros metrics. unfold dropdown_options_of. rewrite length_map.
    apply metrics_str_length.
  - intros metrics. unfold dropdown_options_of, metrics_str. rewrite Hval.
    eexists _, _. split; [reflexivity|].
    split; [apply omap_MetricName_filter|apply omap_MetricCustom_filter].
  - intros l1 l2. unfold dropdown_options_of, metrics_str. by rewrite !omap_app.
  - intros l1 c n l2. unfold dropdown_options_of, metrics_str. by rewrite !omap_app.
  - intros names. unfold dropdown_options_of, metrics_str.
    by rewrite Hval, omap_MetricName, omap_MetricCustom_name, app_nil_r.
  - intros ls names. unfold dropdown_options_of, metrics_str.
    rewrite Hval, !omap_app.
    by rewrite omap_MetricName, omap_MetricName_custom, omap_MetricCustom,
               omap_MetricCustom_name, app_nil_r.
Qed.



Lemma file_after_app {Config : Type} (e1 e2 : list (Effect Config)) path :
  file_after (e1 ++ e2) path
  = match file_after e2 path with
    | Some fig => Some fig
    | None => file_after e1 path
    end.
Proof.
  induction e1 as [|e e1 IH]; simpl.
  - by destruct (file_after e2 path).
  - rewrite IH. by destruct (file_after e2 path).
Qed.

Lemma String_eqb_refl s : String.eqb s s = true.
Proof. by apply String.eqb_eq. Qed.

(** X19: when [plot] completes with [write_html] set, it has shown and
    written one figure per dataframe, all to the same file, so that the file
    [path_to_write] holds in the end the figure of the last dataframe only
    (and is not written when there is no dataframe); without [write_html] it
    has shown one figure per dataframe and written nothing. *)
Theorem plot_file_holds_last_figure {Config : Type} (dfs : list (string * DataFrame)) metrics
    (config : Config) write_html path include_plotlyjs full_html effects :
  plot dfs metrics config write_html path include_plotlyjs full_html = (effects, Ok tt) ->
  length effects = (if write_html then 2 else 1) * length dfs /\
  match list.last dfs with
  | Some (_, df) =>
      exists fig,
        plotly_figure df (dropdown_options_of metrics) = Ok fig /\
        file_after effects path = (if write_html then Some fig else None)
  | None => file_after effects path = None
  end.
Proof.
  unfold plot. revert effects.
  induction dfs as [|[k df] dfs IH]; intros effects H; simpl in H.
  - injection H as <-. simpl. split; [by destruct write_html|done].
  - destruct (plotly_figure df (dropdown_options_of metrics)) as [figure|e] eqn:Hfig;
      [|discriminate].
    destruct (plot_loop dfs metrics config write_html path) as [effects' o'] eqn:Hrest.
    injection H as <- ->.
    destruct (IH _ eq_refl) as [Hlen Hlast].
    split.
    { simpl. rewrite length_app, Hlen. destruct write_html; simpl; lia. }
    change (file_after (([Show figure config]
              ++ (if write_html then [WriteHtml path figure config "cdn" false] else []))
              ++ effects') path) with
      (file_after (([Show figure config]
              ++ (if write_html then [WriteHtml path figure config "cdn" false] else []))
              ++ effects') path).
    assert (Hhere : file_after
                      (Show figure config
                       :: (if write_html then [WriteHtml path figure config "cdn" false] else []))
                      path
                    = if write_html then Some figure else None).
    { destruct write_html; simpl; [by rewrite String_eqb_refl|done]. }
    destruct dfs as [|[k' df'] dfs'].
    + simpl in Hrest. injection Hrest as <-. simpl list.last. exists figure.
      split; [done|]. rewrite app_nil_r. exact Hhere.
    + change (list.last ((k, df) :: (k', df') :: dfs')) with (list.last ((k', df') :: dfs')).
      destruct (list.last ((k', df') :: dfs')) as [[k'' df'']|] eqn:Hl.
      * destruct Hlast as (fig & Hfig' & Hfile). exists fig. split; [done|].
        change (Show figure config
                :: (if write_html then [WriteHtml path figure config "cdn" false] else [])
                   ++ effects')%list
          with ((Show figure config
                :: (if write_html then [WriteHtml path figure config "cdn" false] else []))
                   ++ effects')%list.
        rewrite file_after_app, Hfile. destruct write_html; [done|exact Hhere].
      * apply last_None in Hl. discriminate.
Qed.

(** ** Worked examples for the figure and for [plot] *)

(** The dataframe of the examples has the four columns of the two options;
    a dataframe without rows gives a [KeyError]. *)
Lemma plotly_figure_succeeds_iff_witness :
  is_Ok (plotly_figure ex_dataframe ex_options) = true /\
  plotly_figure (mkDataFrame [] []) ex_options = Raise KeyError.
Proof.
  destruct (plotly_figure_succeeds_iff ex_dataframe ex_options) as [[_ Hok] _].
  destruct (plotly_figure_succeeds_iff (mkDataFrame [] []) ex_options) as [_ Hraise].
  split.
  - apply Hok. split; [discriminate|]. intros option Hin. unfold ex_options in Hin.
    apply elem_of_cons in Hin as [->|Hin]; [split; compute_done|].
    apply elem_of_cons in Hin as [->|Hin]; [split; compute_done|].
    by apply elem_of_nil in Hin.
  - destruct (plotly_figure (mkDataFrame [] []) ex_options) as [fig|e] eqn:E;
      [vm_compute in E; discriminate|].
    by rewrite (Hraise e eq_refl).
Defined.

Lemma plotly_figure_trace_shape_witness :
  exists fig t method,
    plotly_figure ex_dataframe ex_options = Ok fig /\
    t ∈ fig_data fig /\
    tr_x t = map r_Iteration (df_rows (select_method ex_dataframe method)) /\
    length (tr_y t) = length (df_rows (select_method ex_dataframe method)).
Proof.
  assert (Hne : match plotly_figure ex_dataframe ex_options with
                | Ok fig => length (fig_data fig)
                | Raise _ => 0
                end = 8)
    by (vm_compute; reflexivity).
  destruct (plotly_figure ex_dataframe ex_options) as [fig|e] eqn:E; [|discriminate].
  destruct (fig_data fig) as [|t ts] eqn:Hd; [discriminate|].
  assert (Hin : t ∈ fig_data fig) by (rewrite Hd; left).
  destruct (plotly_figure_trace_shape ex_dataframe ex_options fig t E Hin)
    as (method & _ & Hx & Hy).
  exists fig, t, method. split; [reflexivity|].
  split; [exact Hin|]. exact (conj Hx Hy).
Defined.

(** Two methods and two options: between 4 and 12 traces. *)
Lemma plotly_figure_trace_count_witness :
  exists fig,
    plotly_figure ex_dataframe ex_options = Ok fig /\
    4 <= length (fig_data fig) <= 12.
Proof.
  assert (HN : size (list_to_set (map r_Method (df_rows ex_dataframe)) : gset string)
               * length ex_options = 4)
    by (vm_compute; reflexivity).
  destruct (plotly_figure ex_dataframe ex_options) as [fig|e] eqn:E;
    [|vm_compute in E; discriminate].
  pose proof (plotly_figure_trace_count ex_dataframe ex_options fig E) as H.
  cbv zeta in H. rewrite HN in H.
  exists fig. split; [reflexivity|exact H].
Defined.

Lemma plotly_figure_buttons_witness :
  exists fig,
    plotly_figure ex_dataframe ex_options = Ok fig /\
    Forall2 (fun option b =>
               b_label b = label option /\
               b_visible b
               = map (fun t => is_substring (value option) (tr_hovertext t)) (fig_data fig))
            ex_options (fig_buttons fig).
Proof.
  destruct (plotly_figure ex_dataframe ex_options) as [fig|e] eqn:E;
    [|vm_compute in E; discriminate].
  destruct (plotly_figure_buttons ex_dataframe ex_options fig E) as [Hbuttons _].
  exists fig. split; [reflexivity|exact Hbuttons].
Defined.

(** The second method of the examples: its mean trace has the second
    marker, which is also that of the methods 14 and 131. *)
Lemma plotly_figure_markers_witness :
  (exists mean_trace bands,
     option_traces ex_options 1 "CSGD" (select_method ex_dataframe "CSGD") (mkOption "f" "f")
       = Ok (mean_trace :: bands) /\
     tr_marker mean_trace = Some (marker_of 1)) /\
  symbol (marker_of 14) = symbol (marker_of 1) /\
  marker_of 131 = marker_of 1 /\
  (symbol (marker_of 1) = symbol (marker_of 1) -> 1 = 1).
Proof.
  destruct plotly_figure_markers as (Htraces & Hsym & _ & Hall & Hinj & _).
  split_and!.
  - destruct (option_traces ex_options 1 "CSGD" (select_method ex_dataframe "CSGD")
                (mkOption "f" "f")) as [ts|e] eqn:E; [|vm_compute in E; discriminate].
    destruct (Htraces _ _ _ _ _ _ E) as (mean_trace & bands & -> & Hm & _).
    by exists mean_trace, bands.
  - exact (Hsym 1).
  - exact (Hall 1).
  - apply Hinj; lia.
Defined.


(** After the two dataframes of the examples the file holds the figure of
    the second. *)
Lemma plot_file_holds_last_figure_witness :
  exists effects fig,
    plot ex_dataframes ex_plot_metrics tt true "out.html" "cdn" false = (effects, Ok tt) /\
    length effects = 4 /\
    plotly_figure ex_dataframe_one (dropdown_options_of ex_plot_metrics) = Ok fig /\
    file_after effects "out.html" = Some fig.
Proof.
  assert (Ho : snd (plot ex_dataframes ex_plot_metrics tt true "out.html" "cdn" false) = Ok tt)
    by (vm_compute; reflexivity).
  destruct (plot ex_dataframes ex_plot_metrics tt true "out.html" "cdn" false)
    as [effects o] eqn:E.
  simpl in Ho. subst o.
  destruct (plot_file_holds_last_figure ex_dataframes ex_plot_metrics tt true "out.html"
              "cdn" false effects E) as [Hlen Hlast].
  change (list.last ex_dataframes) with (Some ("quadratic_one", ex_dataframe_one)) in Hlast.
  destruct Hlast as (fig & Hfig & Hfile).
  exists effects, fig. split; [reflexivity|]. split; [exact Hlen|]. exact (conj Hfig Hfile).
Defined.

End PlotterProperties.
